(** * ipa-dumper: the transfer-and-assembly orchestrator of [main.py]

    A shallow embedding of [SSHConfig], [IpaBuilder] and [main] from
    [src/main.py], and the properties of the design document checked
    against it.

    Conventions of the embedding.
    - Python [str] is [string]; an index is a [Z], as [str.find] returns -1.
    - A JSON-like payload is a [value]; a Python [dict] is an association
      list whose first binding of a key is the live one.
    - The local disk and the device's disk are finite maps from absolute,
      normalised paths (lists of components) to nodes.  There are no
      symbolic links and no permissions: the removal of an entry never
      fails, so [shutil.rmtree] enters its [onerror] handler only when
      the path it is given is not a directory; the call of [os.chmod]
      the handler makes is recorded in the trace.  A component [..] is
      not resolved.
    - An exception is a value of [exn]; a function that may raise returns
      a [result].  State is passed explicitly through the monad [M].
    - The remote channel is modelled by a device disk, a flag telling
      whether the transport is active and a flag telling whether the SSH
      service accepts a new connection with the stored credential.
    - [parser.parse_args()] belongs to a library: what it makes of the
      command line is an input of [main].  A transfer that fails leaves the
      staging directory as it was. *)

From stdpp Require Import gmap strings list fin_maps pretty.
From Stdlib Require Import ZArith Ascii String.

Open Scope Z_scope.

(** ** Python strings *)

Module PyStr.

(** [s.startswith(pre)] *)
Definition startswith (pre s : string) : bool := String.prefix pre s.

(** [s.find(sub)]: the lowest index at which [sub] occurs, or -1. *)
Fixpoint find (sub s : string) : Z :=
  if startswith sub s then 0
  else match s with
       | EmptyString => -1
       | String _ s' => let r := find sub s' in
                        if r <? 0 then -1 else 1 + r
       end.

Fixpoint drop (n : nat) (s : string) : string :=
  match n, s with
  | O, _ => s
  | S n', String _ s' => drop n' s'
  | S _, EmptyString => EmptyString
  end.

(** [s[i:]]: a negative start counts from the end and is clipped at 0. *)
Definition slice_from (s : string) (i : Z) : string :=
  if i <? 0 then drop (Z.to_nat (Z.max 0 (Z.of_nat (String.length s) + i))) s
  else drop (Z.to_nat i) s.

(** [s.endswith(suf)] *)
Fixpoint endswith (suf s : string) : bool :=
  if String.eqb s suf then true
  else match s with
       | EmptyString => false
       | String _ s' => endswith suf s'
       end.

(** [sub in s] for strings: substring test. *)
Definition contains (sub s : string) : bool := 0 <=? find sub s.

(** [s.split('/')] *)
Fixpoint split_slash (s : string) : list string :=
  match s with
  | EmptyString => [EmptyString]
  | String c s' =>
      if Ascii.eqb c "/"%char then EmptyString :: split_slash s'
      else match split_slash s' with
           | [] => [String c EmptyString]
           | w :: ws => String c w :: ws
           end
  end.

End PyStr.

(** ** [pathlib.PurePosixPath] *)

(** A path is the list of its components below the root. *)
Abbreviation path := (list string).

Module PyPath.

Definition keep_part (c : string) : bool :=
  negb (String.eqb c "") && negb (String.eqb c ".").

(** The components pathlib keeps: empty ones and [.] are dropped,
    [..] is kept. *)
Definition parts (s : string) : path :=
  List.filter keep_part (PyStr.split_slash s).

Definition is_absolute (s : string) : bool := PyStr.startswith "/" s.

(** [base / s]: an absolute right operand replaces the left one. *)
Definition joinpath (base : path) (s : string) : path :=
  if is_absolute s then parts s else base ++ parts s.

(** [Path(s).name]: the last component, or the empty string. *)
Definition name (s : string) : string := List.last (parts s) "".

(** [p.name] for a path already parsed. *)
Definition basename (p : path) : string := List.last p "".

(** [p.parent]; the root is its own parent. *)
Definition parent (p : path) : path := removelast p.

(** [p.relative_to(base)]: [None] stands for [ValueError]. *)
Fixpoint relative_to (base p : path) : option path :=
  match base, p with
  | [], _ => Some p
  | b :: base', c :: p' => if String.eqb b c then relative_to base' p' else None
  | _ :: _, [] => None
  end.

(** [p] lies under [base], [base] itself included. *)
Definition is_under (base p : path) : bool :=
  match relative_to base p with Some _ => true | None => false end.

End PyPath.

(** ** Payloads *)

#[local] Unset Elimination Schemes.

Inductive value :=
| VNone
| VBool (b : bool)
| VInt (z : Z)
| VStr (s : string)
| VList (l : list value)
| VDict (d : list (string * value)).
#[local] Set Elimination Schemes.

(** A Python [dict] with string keys. *)
Abbreviation pydict A := (list (string * A)).

Module PyDict.
Section ops.
Context {A : Type}.

(** [d.get(k)] *)
Fixpoint get (k : string) (d : pydict A) : option A :=
  match d with
  | [] => None
  | (k', v) :: d' => if String.eqb k k' then Some v else get k d'
  end.

(** [d[k] = v]: an existing key keeps its position. *)
Fixpoint set (k : string) (v : A) (d : pydict A) : pydict A :=
  match d with
  | [] => [(k, v)]
  | (k', v') :: d' =>
      if String.eqb k k' then (k, v) :: d' else (k', v') :: set k v d'
  end.

(** [k in d] *)
Definition mem (k : string) (d : pydict A) : bool :=
  match get k d with Some _ => true | None => false end.

Definition keys (d : pydict A) : list string := d.*1.
End ops.
End PyDict.

(** ** Exceptions and results *)

(** [Exc cls msg] is an instance of a subclass of [Exception];
  [SystemExit] is not one, so [except Exception] lets it through. *)
Inductive exn_class :=
| RuntimeError | TimeoutError | ValueError | TypeError | KeyError
| AttributeError | EOFError
| FileNotFoundError | FileExistsError | NotADirectoryError
| IsADirectoryError | ShutilError
| SSHException | SCPException.

Inductive exn :=
| Exc (cls : exn_class) (msg : string)
| SystemExit (code : Z).

Inductive result (A : Type) :=
| Ok (a : A)
| Raise (e : exn).
Arguments Ok {A} a.
Arguments Raise {A} e.

Module PyVal.

(** Truth value of an object. *)
Definition truthy (v : value) : bool :=
  match v with
  | VNone => false
  | VBool b => b
  | VInt z => negb (z =? 0)
  | VStr s => negb (String.eqb s "")
  | VList l => match l with [] => false | _ => true end
  | VDict d => match d with [] => false | _ => true end
  end.

(** [v == s] for a string literal [s]. *)
Definition eq_str (v : value) (s : string) : bool :=
  match v with VStr s' => String.eqb s' s | _ => false end.

(** [k in v]: substring test on a string, membership on a list, key
    test on a dict; [TypeError] on the other objects. *)
Definition contains (k : string) (v : value) : result bool :=
  match v with
  | VStr s => Ok (PyStr.contains k s)
  | VList l => Ok (existsb (fun x => eq_str x k) l)
  | VDict d => Ok (PyDict.mem k d)
  | _ => Raise (Exc TypeError "argument is not iterable")
  end.

(** [v[k]] for a string literal [k]. *)
Definition getitem (v : value) (k : string) : result value :=
  match v with
  | VDict d => match PyDict.get k d with
               | Some x => Ok x
               | None => Raise (Exc KeyError k)
               end
  | VStr _ => Raise (Exc TypeError "string indices must be integers")
  | VList _ => Raise (Exc TypeError "list indices must be integers or slices")
  | _ => Raise (Exc TypeError "object is not subscriptable")
  end.

(** [v.get(k)] on a dict; absent keys give [None]. *)
Definition dict_get (d : pydict value) (k : string) : value :=
  match PyDict.get k d with Some x => x | None => VNone end.

End PyVal.

(** ** Disks *)

(** What a regular file holds: raw bytes, or a ZIP archive given by its
    entries (archive-internal path and content). *)
#[local] Unset Elimination Schemes.
Inductive blob :=
| Raw (data : string)
| Zip (entries : list (path * blob)).
#[local] Set Elimination Schemes.

Inductive node :=
| File (b : blob)
| Dir.

Abbreviation disk := (gmap path node).

Module FS.

Definition exists_ (d : disk) (p : path) : bool :=
  match d !! p with Some _ => true | None => false end.

Definition is_dir (d : disk) (p : path) : bool :=
  match d !! p with Some Dir => true | _ => false end.

Definition is_file (d : disk) (p : path) : bool :=
  match d !! p with Some (File _) => true | _ => false end.

(** The root is a directory and every entry lies in a directory. *)
Definition wf (d : disk) : Prop :=
  d !! [] = Some Dir ∧
  ∀ p c, is_Some (d !! (p ++ [c])) → d !! p = Some Dir.

(** [wf] as a test. *)
Definition wfb (d : disk) : bool :=
  is_dir d [] &&
  forallb (λ k, match k with [] => true | _ => is_dir d (PyPath.parent k) end)
          (map_to_list d).*1.

(** [os.mkdir(p)] *)
Definition os_mkdir (p : path) (d : disk) : result disk :=
  match d !! p with
  | Some _ => Raise (Exc FileExistsError "File exists")
  | None =>
      match d !! PyPath.parent p with
      | Some Dir => Ok (<[p := Dir]> d)
      | Some (File _) => Raise (Exc NotADirectoryError "Not a directory")
      | None => Raise (Exc FileNotFoundError "No such file or directory")
      end
  end.

(** [Path.mkdir(parents=True, exist_ok=exist_ok)] on the path whose
    components, last one first, are [rp]: try [os.mkdir]; on
    [FileNotFoundError] make the parent (with [exist_ok=True]) and try
    again; on another [OSError] succeed when the path is a directory
    and [exist_ok] holds. *)
Fixpoint mkdir_rev (exist_ok : bool) (rp : list string) (d : disk) : result disk :=
  let p := rev rp in
  match os_mkdir p d with
  | Ok d' => Ok d'
  | Raise (Exc FileNotFoundError msg) =>
      match rp with
      | [] => Raise (Exc FileNotFoundError msg)
      | _ :: rp' =>
          match mkdir_rev true rp' d with
          | Ok d1 =>
              match os_mkdir p d1 with
              | Ok d2 => Ok d2
              | Raise e => if exist_ok && is_dir d1 p then Ok d1 else Raise e
              end
          | Raise e => Raise e
          end
      end
  | Raise e => if exist_ok && is_dir d p then Ok d else Raise e
  end.

Definition mkdir_parents (exist_ok : bool) (p : path) (d : disk) : result disk :=
  mkdir_rev exist_ok (rev p) d.

(** The entries of [d] at and below [p], keyed relative to [p]. *)
Definition subtree (d : disk) (p : path) : list (path * node) :=
  omap (λ kn, (λ suf, (suf, kn.2)) <$> PyPath.relative_to p kn.1) (map_to_list d).

(** [d] without [p] and everything below it. *)
Definition remove_tree (p : path) (d : disk) : disk :=
  filter (λ kn, PyPath.is_under p kn.1 = false) d.

(** The entries [t], keyed relative to [dest], written over [d]. *)
Definition graft (dest : path) (t : list (path * node)) (d : disk) : disk :=
  foldr (λ kn acc, <[dest ++ kn.1 := kn.2]> acc) d t.

(** [shutil.move(src, dst)].  An existing directory [dst] receives
    [src] under its own name.  A file is renamed over an existing file.
    A directory is renamed to a free name; when the parent of that name
    is missing the fallback [copytree] makes it. *)
Definition move (src dst : path) (d : disk) : result disk :=
  if is_dir d dst && bool_decide (src = dst) then Ok d else
  let real_dst := if is_dir d dst then dst ++ [PyPath.basename src] else dst in
  if is_dir d dst && exists_ d real_dst then
    Raise (Exc ShutilError "Destination path already exists")
  else
    match d !! src with
    | None => Raise (Exc FileNotFoundError "No such file or directory")
    | Some (File b) =>
        if is_dir d (PyPath.parent real_dst)
        then Ok (<[real_dst := File b]> (delete src d))
        else Raise (Exc FileNotFoundError "No such file or directory")
    | Some Dir =>
        if exists_ d real_dst then Raise (Exc FileExistsError "File exists")
        else if PyPath.is_under src real_dst then
          Raise (Exc ShutilError "Cannot move a directory into itself")
        else
          match mkdir_parents true (PyPath.parent real_dst) d with
          | Ok d1 => Ok (graft real_dst (subtree d src) (remove_tree src d1))
          | Raise e => Raise e
          end
    end.

Definition is_child (p k : path) : bool :=
  match PyPath.relative_to p k with Some [_] => true | _ => false end.

Definition is_below (p k : path) : bool :=
  match PyPath.relative_to p k with Some (_ :: _) => true | _ => false end.

(** [p.iterdir()]: the entries directly in [p]. *)
Definition iterdir (d : disk) (p : path) : result (list path) :=
  match d !! p with
  | Some Dir => Ok (List.filter (is_child p) (map_to_list d).*1)
  | Some (File _) => Raise (Exc NotADirectoryError "Not a directory")
  | None => Raise (Exc FileNotFoundError "No such file or directory")
  end.

(** [p.rglob('*')]: every entry below [p]. *)
Definition rglob (d : disk) (p : path) : list path :=
  List.filter (is_below p) (map_to_list d).*1.

(** [p.unlink()] *)
Definition unlink (p : path) (d : disk) : result disk :=
  match d !! p with
  | Some (File _) => Ok (delete p d)
  | Some Dir => Raise (Exc IsADirectoryError "Is a directory")
  | None => Raise (Exc FileNotFoundError "No such file or directory")
  end.

(** [os.lstat(p)] and [os.scandir(p)], as far as they can fail: the
    disk is read, not written. *)
Definition lstat (p : path) (d : disk) : result disk :=
  match d !! p with
  | Some _ => Ok d
  | None => Raise (Exc FileNotFoundError "No such file or directory")
  end.

Definition scandir (p : path) (d : disk) : result disk :=
  match d !! p with
  | Some Dir => Ok d
  | Some (File _) => Raise (Exc NotADirectoryError "Not a directory")
  | None => Raise (Exc FileNotFoundError "No such file or directory")
  end.

End FS.

(** ** [class SSHConfig] *)

Module SSHConfig.

Record t := Make {
  host : string;
  port : Z;
  username : string;
  password : option string;
  key_filename : option string
}.

(** Truth value of an [Optional[str]]. *)
Definition truthy (o : option string) : bool :=
  match o with
  | Some s => negb (String.eqb s "")
  | None => false
  end.

(** [__post_init__] (line 38) *)
Definition __post_init__ (self : t) : result unit :=
  if negb (truthy (password self)) && negb (truthy (key_filename self)) then
    Raise (Exc ValueError "Either password or key_filename must be provided")
  else Ok tt.

(** [SSHConfig(host=..., port=..., username=..., password=...,
    key_filename=...)]: the generated [__init__] stores the fields and
    calls [__post_init__]. *)
Definition new (host : string) (port : Z) (username : string)
    (password key_filename : option string) : result t :=
  let self := Make host port username password key_filename in
  match __post_init__ self with
  | Ok _ => Ok self
  | Raise e => Raise e
  end.

End SSHConfig.

(** ** The builder's state and its surroundings *)

Inductive level := INFO | WARNING | ERROR.

(** The value interpolated into a log line. *)
Inductive logarg :=
| NoArg
| ArgStr (s : string)
| ArgVal (v : value)
| ArgExn (e : exn)
| ArgPath (p : path).

Record log_entry := LogEntry {
  log_level : level;
  log_text : string;
  log_arg : logarg
}.

(** What [ssh_client.get_transport()] gives. *)
Inductive transport := NoTransport | Inactive | Active.

(** Calls the disks do not show, oldest first: those on the remote
    channel, and [os.chmod]. *)
Inductive event :=
| EvEnsure                               (* _ensure_ssh_connection() *)
| EvConnect                              (* SSHClient.connect(...) *)
| EvOpen                                 (* SCPClient(...).__enter__() *)
| EvGet (remote : string) (recursive : bool) (* scp.get(...) *)
| EvChmod (p : path).                    (* os.chmod(p, stat.S_IWRITE) *)

Record state := State {
  output_dir : path;             (* self.output_dir *)
  file_dict : pydict string;     (* self.file_dict *)
  finished : bool;               (* self.finished.is_set() *)
  ssh_client : option transport; (* self.ssh_client, None before connect_ssh *)
  ssh_config : option SSHConfig.t; (* self.ssh_config, None before connect_ssh *)
  sshd_up : bool;                (* the device accepts a new SSH connection *)
  device : disk;                 (* the device's disk *)
  fs : disk;                     (* the local disk *)
  log : list log_entry;          (* logger output, oldest first *)
  trace : list event;
  stdout : list string           (* what print and the prompt of input write, oldest first *)
}.

Definition set_file_dict (x : pydict string) (st : state) : state :=
  State (output_dir st) x (finished st) (ssh_client st) (ssh_config st) (sshd_up st)
        (device st) (fs st) (log st) (trace st) (stdout st).
Definition set_finished (x : bool) (st : state) : state :=
  State (output_dir st) (file_dict st) x (ssh_client st) (ssh_config st) (sshd_up st)
        (device st) (fs st) (log st) (trace st) (stdout st).
Definition set_ssh_client (x : option transport) (st : state) : state :=
  State (output_dir st) (file_dict st) (finished st) x (ssh_config st) (sshd_up st)
        (device st) (fs st) (log st) (trace st) (stdout st).
Definition set_ssh_config (x : option SSHConfig.t) (st : state) : state :=
  State (output_dir st) (file_dict st) (finished st) (ssh_client st) x (sshd_up st)
        (device st) (fs st) (log st) (trace st) (stdout st).
Definition set_fs (x : disk) (st : state) : state :=
  State (output_dir st) (file_dict st) (finished st) (ssh_client st) (ssh_config st) (sshd_up st)
        (device st) x (log st) (trace st) (stdout st).
Definition set_log (x : list log_entry) (st : state) : state :=
  State (output_dir st) (file_dict st) (finished st) (ssh_client st) (ssh_config st) (sshd_up st)
        (device st) (fs st) x (trace st) (stdout st).
Definition set_trace (x : list event) (st : state) : state :=
  State (output_dir st) (file_dict st) (finished st) (ssh_client st) (ssh_config st) (sshd_up st)
        (device st) (fs st) (log st) x (stdout st).
Definition set_stdout (x : list string) (st : state) : state :=
  State (output_dir st) (file_dict st) (finished st) (ssh_client st) (ssh_config st) (sshd_up st)
        (device st) (fs st) (log st) (trace st) x.

(** [self.payload_dir = self.output_dir / 'Payload'] *)
Definition payload_dir (st : state) : path :=
  PyPath.joinpath (output_dir st) "Payload".
Arguments payload_dir : simpl never.

(** ** The monad of state and exceptions *)

Definition M (A : Type) : Type := state → result A * state.

#[global] Instance M_ret : MRet M := λ A a st, (Ok a, st).
#[global] Instance M_bind : MBind M := λ A B f m st,
  match m st with
  | (Ok a, st') => f a st'
  | (Raise e, st') => (Raise e, st')
  end.

Definition raise {A} (e : exn) : M A := λ st, (Raise e, st).

Definition lift {A} (r : result A) : M A := λ st, (r, st).

Definition modify (f : state → state) : M unit := λ st, (Ok tt, f st).

Definition gets {A} (f : state → A) : M A := λ st, (Ok (f st), st).

(** [try: body except Exception as e: handler e] *)
Definition try_except {A} (body : M A) (handler : exn → M A) : M A := λ st,
  match body st with
  | (Raise (Exc cls msg), st') => handler (Exc cls msg) st'
  | r => r
  end.

(** [try: body finally: final], the [finally] block falling off its end. *)
Definition try_finally {A} (body : M A) (final : M unit) : M A := λ st,
  let '(r, st1) := body st in
  match final st1 with
  | (Ok _, st2) => (r, st2)
  | (Raise e, st2) => (Raise e, st2)
  end.

Definition logger (lv : level) (text : string) (arg : logarg) : M unit :=
  modify (λ st, set_log (log st ++ [LogEntry lv text arg]) st).

Definition emit (ev : event) : M unit :=
  modify (λ st, set_trace (trace st ++ [ev]) st).

Definition print (line : string) : M unit :=
  modify (λ st, set_stdout (stdout st ++ [line]) st).

(** ** The remote channel *)

Module Remote.

(** A received entry fits the local disk when nothing is there yet or
    an entry of the same kind is. *)
Definition fits (d : disk) (dest : path) (kn : path * node) : bool :=
  match d !! (dest ++ kn.1), kn.2 with
  | None, _ => true
  | Some Dir, Dir => true
  | Some (File _), File _ => true
  | _, _ => false
  end.

(** The local disk after [scp.get(remote, local, recursive=recursive)],
    or [None] when the transfer fails.  A single file lands in the
    directory [local] under its own name; a directory is received only
    when [recursive] holds and is merged into what is already there.
    When [local] is not a directory the received entry takes its name. *)
Definition fetch (dev : disk) (remote : string) (recursive : bool)
    (local : path) (d : disk) : option disk :=
  let rp := PyPath.parts remote in
  let dest := if FS.is_dir d local then local ++ [PyPath.basename rp] else local in
  match rp, dev !! rp with
  | _ :: _, Some (File b) =>
      if FS.is_dir d (PyPath.parent dest) && negb (FS.is_dir d dest)
      then Some (<[dest := File b]> d) else None
  | _ :: _, Some Dir =>
      if recursive && FS.is_dir d (PyPath.parent dest)
         && forallb (fits d dest) (FS.subtree dev rp)
      then Some (FS.graft dest (FS.subtree dev rp) d) else None
  | _, _ => None
  end.

End Remote.

(** ** The instrumentation runtime and the operator *)

Module Frida.

Record application := Application {
  identifier : string;
  name : string;
  pid : Z                      (* 0 when the application is not running *)
}.

Record device := Device {
  dev_name : string;
  dev_id : string;
  dev_type : string;
  applications : list application
}.

(** What the script's thread hands to the builder. *)
Inductive input :=
| Message (message : pydict value)   (* the handler is called *)
| Drop.                              (* the SSH transport goes inactive *)

(** The surroundings of one run: the devices the runtime lists, the
    operator's answers to the selection prompt ([None] for a line
    [int] rejects), and the inputs of the script's thread, each with
    the time in seconds, counted from the start of the wait, at which
    the builder has finished with it. *)
Record env := Env {
  devices : list device;
  stdin : list (option Z);
  stream : list (Z * input)
}.

End Frida.

(** ** [class IpaBuilder] *)

Module IpaBuilder.

(** [_create_ssh_connection] (line 58).  The new client has no
    transport; the arguments of [connect] are read off the stored
    credential before the call is made. *)
Definition _create_ssh_connection : M unit :=
  try_except
    (modify (set_ssh_client (Some NoTransport)) ;;
     config ← gets ssh_config;
     (if config is Some _ then mret tt
      else raise (Exc AttributeError "'NoneType' object has no attribute 'host'")) ;;
     emit EvConnect ;;
     up ← gets sshd_up;
     (if up : bool then modify (set_ssh_client (Some Active))
      else raise (Exc SSHException "Unable to connect")) ;;
     logger INFO "SSH connection established successfully" NoArg)
    (λ e, logger ERROR "SSH connection failed: " (ArgExn e) ;; raise e).

(** [connect_ssh] (line 53) *)
Definition connect_ssh (config : SSHConfig.t) : M unit :=
  modify (set_ssh_config (Some config)) ;;
  _create_ssh_connection.

(** [_ensure_ssh_connection] (line 78) *)
Definition _ensure_ssh_connection : M unit :=
  emit EvEnsure ;;
  try_except
    (c ← gets ssh_client;
     match c with
     | Some Active => mret tt
     | _ => logger INFO "Reconnecting SSH..." NoArg ;; _create_ssh_connection
     end)
    (λ e, logger ERROR "Error checking SSH connection: " (ArgExn e) ;;
          _create_ssh_connection).

(** [with SCPClient(self.ssh_client.get_transport(), ...) as scp]:
    entering the block opens a session on the transport. *)
Definition scp_open : M unit :=
  c ← gets ssh_client;
  match c with
  | None => raise (Exc AttributeError "'NoneType' object has no attribute 'get_transport'")
  | Some NoTransport => raise (Exc AttributeError "'NoneType' object has no attribute 'open_session'")
  | Some Inactive => emit EvOpen ;; raise (Exc SSHException "SSH session not active")
  | Some Active => emit EvOpen
  end.

(** [scp.get(remote, str(self.payload_dir / ''), recursive=recursive)] *)
Definition scp_get (remote : value) (recursive : bool) : M unit :=
  match remote with
  | VStr r =>
      emit (EvGet r recursive) ;;
      got ← gets (λ st, Remote.fetch (device st) r recursive (payload_dir st) (fs st));
      match got with
      | Some d => modify (set_fs d)
      | None => raise (Exc SCPException r)
      end
  | _ => raise (Exc TypeError "remote path is not a string")
  end.

(** [v.find('.app/')]: a method of strings only. *)
Definition find_marker (v : value) : result Z :=
  match v with
  | VStr s => Ok (PyStr.find ".app/" s)
  | _ => Raise (Exc AttributeError "object has no attribute 'find'")
  end.

(** [v[i:]] for the string just searched. *)
Definition slice_value (v : value) (i : Z) : result string :=
  match v with
  | VStr s => Ok (PyStr.slice_from s i)
  | _ => Raise (Exc TypeError "object is not subscriptable")
  end.

(** [Path(v).name] *)
Definition name_of (v : value) : result string :=
  match v with
  | VStr s => Ok (PyPath.name s)
  | _ => Raise (Exc TypeError "expected str, bytes or os.PathLike object")
  end.

(** The three statements that fetch an artifact and record it
    (lines 93-95 and again 211-213). *)
Definition fetch_and_record_dump (payload : value) : M unit :=
  dump ← lift (PyVal.getitem payload "dump");
  scp_get dump false ;;
  p ← lift (PyVal.getitem payload "path");
  index ← lift (find_marker p);
  rel ← lift (slice_value p (index + 5));
  key ← lift (name_of dump);
  modify (λ st, set_file_dict (PyDict.set key rel (file_dict st)) st).

(** The two statements that fetch the bundle and record its folder
    (lines 107-108 and again 220-221). *)
Definition fetch_and_record_app (payload : value) : M unit :=
  app ← lift (PyVal.getitem payload "app");
  scp_get app true ;;
  key ← lift (name_of app);
  modify (λ st, set_file_dict (PyDict.set "app" key (file_dict st)) st).

(** [_handle_dump_payload] as first defined (line 88) *)
Definition _handle_dump_payload_88 (payload : value) : M unit :=
  try_except
    (_ensure_ssh_connection ;;
     scp_open ;;
     try_except (fetch_and_record_dump payload)
       (λ e, logger ERROR "Failed to transfer file: " (ArgExn e) ;; raise e))
    (λ e, logger ERROR "Failed to handle dump payload: " (ArgExn e)).

(** [_handle_app_payload] as first defined (line 102) *)
Definition _handle_app_payload_102 (payload : value) : M unit :=
  try_except
    (_ensure_ssh_connection ;;
     scp_open ;;
     try_except (fetch_and_record_app payload)
       (λ e, logger ERROR "Failed to transfer app: " (ArgExn e) ;; raise e))
    (λ e, logger ERROR "Failed to handle app payload: " (ArgExn e)).

(** [_handle_dump_payload] as defined again (line 208) *)
Definition _handle_dump_payload_208 (payload : value) : M unit :=
  scp_open ;;
  try_except (fetch_and_record_dump payload)
    (λ e, logger ERROR "Failed to handle dump payload: " (ArgExn e)).

(** [_handle_app_payload] as defined again (line 217) *)
Definition _handle_app_payload_217 (payload : value) : M unit :=
  scp_open ;;
  try_except (fetch_and_record_app payload)
    (λ e, logger ERROR "Failed to handle app payload: " (ArgExn e)).

(** The [def]s of the two handlers in the order of the class body. *)
Definition class_body : list (string * (value → M unit)) :=
  [ ("_handle_dump_payload", _handle_dump_payload_88);
    ("_handle_app_payload", _handle_app_payload_102);
    ("_handle_dump_payload", _handle_dump_payload_208);
    ("_handle_app_payload", _handle_app_payload_217) ].

(** Executing a class body binds each name as its [def] is reached: a
    later [def] of a name replaces the earlier one. *)
Definition class_namespace : pydict (value → M unit) :=
  foldl (λ ns kf, PyDict.set kf.1 kf.2 ns) [] class_body.

(** [self.<name>(payload)] *)
Definition method (name : string) (payload : value) : M unit :=
  match PyDict.get name class_namespace with
  | Some f => f payload
  | None => raise (Exc AttributeError name)
  end.

Definition _handle_dump_payload : value → M unit := method "_handle_dump_payload".
Definition _handle_app_payload : value → M unit := method "_handle_app_payload".

(** [isinstance(payload, dict) and payload.get('type') == 'log'] *)
Definition is_log_payload (payload : value) : bool :=
  match payload with
  | VDict d => PyVal.eq_str (PyVal.dict_get d "type") "log"
  | _ => false
  end.

(** [payload.get('payload', '')] of a log payload *)
Definition log_message (payload : value) : value :=
  match payload with
  | VDict d => match PyDict.get "payload" d with Some v => v | None => VStr "" end
  | _ => VStr ""
  end.

(** The [if]/[elif] chain of lines 197-202. *)
Definition dispatch (payload : value) : M unit :=
  is_dump ← lift (PyVal.contains "dump" payload);
  if is_dump : bool then _handle_dump_payload payload
  else
    is_app ← lift (PyVal.contains "app" payload);
    if is_app : bool then _handle_app_payload payload
    else
      is_done ← lift (PyVal.contains "done" payload);
      if is_done : bool then modify (set_finished true)
      else mret tt.

(** [on_message] (line 175).  The progress bar only writes to the
    console; creating and closing it leaves the state alone. *)
Definition on_message (message : pydict value) : M unit :=
  if PyVal.eq_str (PyVal.dict_get message "type") "error" then
    logger ERROR "Frida Script Error: " (ArgVal (PyVal.dict_get message "description"))
  else
    let payload := PyVal.dict_get message "payload" in
    if negb (PyVal.truthy payload) then mret tt
    else if is_log_payload payload then
      logger INFO "[JavaScript Log] " (ArgVal (log_message payload))
    else
      try_finally
        (try_except (dispatch payload)
           (λ e, logger ERROR "Error handling message: " (ArgExn e)))
        (mret tt).

(** A disk operation run on the local disk. *)
Definition on_fs (f : disk → result disk) : M unit :=
  d ← gets fs;
  match f d with
  | Ok d' => modify (set_fs d')
  | Raise e => raise e
  end.

(** [for x in l: body x] *)
Fixpoint for_each {A} (l : list A) (body : A → M unit) : M unit :=
  match l with
  | [] => mret tt
  | x :: l' => body x ;; for_each l' body
  end.

(** [shutil.rmtree(p, onerror=onerror)]: a directory goes with all it
    holds; on another path the first call that fails, [os.scandir] or
    [os.lstat], is handed to [onerror] with the path, and [rmtree]
    returns when [onerror] does. *)
Definition rmtree (p : path)
    (onerror : (path → disk → result disk) → path → M unit) : M unit :=
  d ← gets fs;
  match d !! p with
  | Some Dir => modify (set_fs (FS.remove_tree p d))
  | Some (File _) => onerror FS.scandir p
  | None => onerror FS.lstat p
  end.

(** [_force_remove] (line 170): [os.chmod(path, stat.S_IWRITE)], which
    fails on a missing path, then [func(path)] once more. *)
Definition _force_remove (func : path → disk → result disk) (p : path) : M unit :=
  d ← gets fs;
  (if FS.exists_ d p then emit (EvChmod p)
   else raise (Exc FileNotFoundError "No such file or directory")) ;;
  on_fs (func p).

(** [create_directories] (line 163) *)
Definition create_directories : M unit :=
  out ← gets output_dir;
  staging ← gets payload_dir;
  on_fs (FS.mkdir_parents true out) ;;
  d ← gets fs;
  (if FS.exists_ d staging then rmtree staging _force_remove else mret tt) ;;
  on_fs (FS.mkdir_parents false staging).

(** The body of the loop of lines 235-239. *)
Definition move_artifact (app_name : string) (item : string * string) : M unit :=
  let '(key, value) := item in
  if negb (String.eqb key "app") then
    staging ← gets payload_dir;
    let target_path := PyPath.joinpath (PyPath.joinpath staging app_name) value in
    on_fs (FS.mkdir_parents true (PyPath.parent target_path)) ;;
    on_fs (FS.move (PyPath.joinpath staging key) target_path)
  else mret tt.

(** [open(p, 'wb')] writing [b]: the file is created or truncated. *)
Definition write_file (p : path) (b : blob) (d : disk) : result disk :=
  match d !! p with
  | Some Dir => Raise (Exc IsADirectoryError "Is a directory")
  | _ => if FS.is_dir d (PyPath.parent p) then Ok (<[p := File b]> d)
         else Raise (Exc FileNotFoundError "No such file or directory")
  end.

(** The loop of lines 246-248: the entries written before the loop
    ends, and how it ends. *)
Fixpoint zip_entries (d : disk) (base : path) (files : list path)
    : list (path * blob) * result unit :=
  match files with
  | [] => ([], Ok tt)
  | file_path :: rest =>
      match d !! file_path with
      | Some (File b) =>
          match PyPath.relative_to base file_path with
          | Some arcname =>
              let '(entries, r) := zip_entries d base rest in
              ((arcname, b) :: entries, r)
          | None => ([], Raise (Exc ValueError "path is not in the subpath"))
          end
      | _ => zip_entries d base rest
      end
  end.

(** The [with zipfile.ZipFile(ipa_path, 'w', ...)] block: the archive
    is created when the block is entered and holds, when the block is
    left, the entries written so far. *)
Definition write_archive (ipa_path app_folder : path) : M unit :=
  on_fs (write_file ipa_path (Zip [])) ;;
  d ← gets fs;
  staging ← gets payload_dir;
  let '(entries, r) := zip_entries d (PyPath.parent staging) (FS.rglob d app_folder) in
  modify (λ st, set_fs (<[ipa_path := File (Zip entries)]> (fs st)) st) ;;
  lift r.

(** The [try] block of [generate_ipa] (lines 228-250). *)
Definition generate_ipa_try (display_name : string) : M unit :=
  out ← gets output_dir;
  staging ← gets payload_dir;
  let ipa_path := PyPath.joinpath out (display_name +:+ ".ipa") in
  logger INFO "Generating IPA: " (ArgPath ipa_path) ;;
  items ← gets file_dict;
  match PyDict.get "app" items with
  | None | Some EmptyString =>
      raise (Exc RuntimeError "App name not found in file dictionary.")
  | Some app_name =>
      for_each items (move_artifact app_name) ;;
      let app_folder := PyPath.joinpath staging app_name in
      d ← gets fs;
      if negb (FS.exists_ d app_folder) || negb (FS.is_dir d app_folder) then
        raise (Exc RuntimeError "The .app folder does not exist or is not a directory.")
      else
        write_archive ipa_path app_folder ;;
        logger INFO "IPA generated successfully: " (ArgPath ipa_path)
  end.

(** The body of the loop of lines 254-263. *)
Definition purge_item (item : path) : M unit :=
  d ← gets fs;
  if FS.is_dir d item && PyStr.endswith ".app" (PyPath.basename item) then mret tt
  else
    try_except
      (if FS.is_file d item then on_fs (FS.unlink item)
       else if FS.is_dir d item then rmtree item _force_remove
       else mret tt)
      (λ e, logger ERROR "Failed to clean up " (ArgPath item)).

(** The [finally] block of [generate_ipa] (lines 254-263). *)
Definition generate_ipa_finally : M unit :=
  d ← gets fs;
  staging ← gets payload_dir;
  items ← lift (FS.iterdir d staging);
  for_each items purge_item.

(** The [try] block of [generate_ipa] with its [except] clause
    (lines 227-252). *)
Definition generate_ipa_caught (display_name : string) : M unit :=
  try_except (generate_ipa_try display_name)
    (λ e, logger ERROR "Failed to generate IPA: " (ArgExn e)).

(** [generate_ipa] (line 225) *)
Definition generate_ipa (display_name : string) : M unit :=
  try_finally (generate_ipa_caught display_name) generate_ipa_finally.

(** What [input] writes before it reads (line 148). *)
Definition prompt : string := "Enter the number of the device you want to use: ".

(** The [while True] loop of lines 146-156, reading the operator's
    answers: [input] writes its prompt and reads a line; when the
    answers have run out it raises [EOFError]. *)
Fixpoint prompt_choice (usb_devices : list Frida.device) (answers : list (option Z))
    : M Frida.device :=
  match answers with
  | [] => print prompt ;; raise (Exc EOFError "EOF when reading a line")
  | Some choice :: rest =>
      print prompt ;;
      if (1 <=? choice) && (choice <=? Z.of_nat (List.length usb_devices)) then
        match usb_devices !! Z.to_nat (choice - 1) with
        | Some selected_device =>
            logger INFO "Selected device: " (ArgStr (Frida.dev_name selected_device)) ;;
            mret selected_device
        | None => raise (Exc RuntimeError "list index out of range")
        end
      else print "Invalid choice. Please try again." ;; prompt_choice usb_devices rest
  | None :: rest =>
      print prompt ;;
      print "Invalid input. Please enter a number." ;; prompt_choice usb_devices rest
  end.

(** [enumerate(l, start=start)] *)
Fixpoint enumerate {A} (start : Z) (l : list A) : list (Z * A) :=
  match l with
  | [] => []
  | x :: l' => (start, x) :: enumerate (start + 1) l'
  end.

(** The line printed for a device of the list (line 144). *)
Definition device_line (item : Z * Frida.device) : string :=
  pretty item.1 +:+ ". " +:+ Frida.dev_name item.2
    +:+ " (ID: " +:+ Frida.dev_id item.2 +:+ ")".

(** One pass of the [for attempt in range(3)] loop of line 128:
    [Some device] when the pass returns, [None] when the loop goes on. *)
Definition usb_attempt (e : Frida.env) (attempt : Z) (answers : list (option Z))
    : M (option Frida.device) :=
  try_except
    (let usb_devices :=
       List.filter (λ dv, String.eqb (Frida.dev_type dv) "usb") (Frida.devices e) in
     match usb_devices with
     | [] => logger WARNING "No iPhone connected via USB. Attempt "
               (ArgStr (pretty (attempt + 1) +:+ "/3")) ;;
             mret None
     | [only] => logger INFO "One iPhone detected: " (ArgStr (Frida.dev_name only)) ;;
                 mret (Some only)
     | _ => logger INFO "Multiple devices detected. Please select one:" NoArg ;;
            for_each (enumerate 1 usb_devices) (λ item, print (device_line item)) ;;
            dv ← prompt_choice usb_devices answers;
            mret (Some dv)
     end)
    (λ x, logger ERROR "Error while detecting devices: " (ArgExn x) ;; mret None).

(** [get_usb_iphone] (line 123).  A pass that did not return has used
    up the operator's answers. *)
Definition get_usb_iphone (e : Frida.env) : M Frida.device :=
  r1 ← usb_attempt e 0 (Frida.stdin e);
  match r1 with
  | Some dv => mret dv
  | None =>
      r2 ← usb_attempt e 1 [];
      match r2 with
      | Some dv => mret dv
      | None =>
          r3 ← usb_attempt e 2 [];
          match r3 with
          | Some dv => mret dv
          | None =>
              logger ERROR "Failed to detect an iPhone after multiple attempts." NoArg ;;
              raise (Exc RuntimeError "No iPhone detected")
          end
      end
  end.

(** The application the loop of line 278 stops at. *)
Definition find_application (app_identifier : string) (apps : list Frida.application)
    : option Frida.application :=
  List.find (λ app, String.eqb app_identifier (Frida.identifier app)
                    || String.eqb app_identifier (Frida.name app)) apps.

(** [timeout=7200] of line 309, in seconds. *)
Definition wait_timeout : Z := 7200.

Definition handle_input (i : Frida.input) : M unit :=
  match i with
  | Frida.Message message => on_message message
  | Frida.Drop =>
      modify (λ st, match ssh_client st with
                    | Some Active => set_ssh_client (Some Inactive) st
                    | _ => st
                    end)
  end.

(** The script's thread while the main thread waits: inputs are handled
    in order until the completion event is set or the timeout is
    reached; the main thread then goes on with the state so reached. *)
Fixpoint pump (s : list (Z * Frida.input)) (st : state) : state :=
  match s with
  | [] => st
  | (t, i) :: s' =>
      if finished st then st
      else if wait_timeout <=? t then st
      else pump s' (handle_input i st).2
  end.

(** Lines 297-308: the workspace is prepared and the script is loaded
    and told to dump. *)
Definition prepare (display_name : string) : M unit :=
  logger INFO "Starting dump process for: " (ArgStr display_name) ;;
  create_directories ;;
  logger INFO "Dumping application contents..." NoArg ;;
  logger INFO "Waiting for the dump to complete..." NoArg.

(** Lines 297-311: after the preparation the main thread waits for
    the completion event, up to the timeout. *)
Definition await_dump (e : Frida.env) (display_name : string) : M unit :=
  prepare display_name ;;
  modify (pump (Frida.stream e)) ;;
  done ← gets finished;
  (if done : bool then mret tt
   else raise (Exc TimeoutError "Dump operation timed out")) ;;
  logger INFO "Dump operation completed successfully" NoArg.

(** Lines 313-318: the archive is built. *)
Definition assemble (display_name : string) : M unit :=
  logger INFO "Creating IPA file..." NoArg ;;
  generate_ipa display_name ;;
  logger INFO "Dump completed successfully" NoArg ;;
  out ← gets output_dir;
  logger INFO "Output location: " (ArgPath out).

(** Lines 297-318, for the application found. *)
Definition dump_found (e : Frida.env) (display_name : string) : M unit :=
  await_dump e display_name ;;
  assemble display_name.

(** The local variables of [dump_app] the [finally] block reads. *)
Record locals := Locals {
  session : bool;               (* a session is attached *)
  success : bool;
  display_name : option string
}.

(** Lines 273-295: the device is selected and the application is
    looked for; [None] when no application matches.  The session is
    attached to the application found. *)
Definition locate (e : Frida.env) (app_identifier : string)
    : M (option Frida.application) :=
  logger INFO "Searching for USB-connected iPhone..." NoArg ;;
  dv ← get_usb_iphone e;
  logger INFO "Scanning for target application..." NoArg ;;
  match find_application app_identifier (Frida.applications dv) with
  | Some app =>
      logger INFO "Found application: " (ArgStr (Frida.name app)) ;;
      mret (Some app)
  | None =>
      logger ERROR "Application not found: " (ArgStr app_identifier) ;;
      mret None
  end.

(** The [try] block of [dump_app] (lines 273-319): how it is left
    ([Ok None] at its end, [Ok (Some v)] by [return v], [Raise x] by an
    exception) and the locals at that point. *)
Definition dump_app_try (e : Frida.env) (app_identifier : string) (st : state)
    : result (option bool) * locals * state :=
  match locate e app_identifier st with
  | (Raise x, st1) => (Raise x, Locals false false None, st1)
  | (Ok None, st1) => (Ok (Some false), Locals false false None, st1)
  | (Ok (Some app), st1) =>
      let name := Frida.name app in
      match dump_found e name st1 with
      | (Raise x, st2) => (Raise x, Locals true false (Some name), st2)
      | (Ok _, st2) => (Ok None, Locals true true (Some name), st2)
      end
  end.

Definition rule : string := "==================================================".

(** The [finally] block of [dump_app] up to its last statement
    (lines 321-344). *)
Definition dump_app_finally (app_identifier : string) (l : locals) : M unit :=
  (if session l then logger INFO "Cleaned up session" NoArg else mret tt) ;;
  print rule ;;
  print "iOS App Dump Summary" ;;
  print rule ;;
  (if success l then
     print ("Target App: " +:+ default "None" (display_name l)) ;;
     print "Total Time" ;;
     print "Output Directory" ;;
     print "Status: Success"
   else
     print ("Target App: " +:+ app_identifier) ;;
     print "Status: Failed" ;;
     print "Check logs for details") ;;
  print rule.

(** [dump_app] (line 266).  The [finally] block ends in
    [return success] (line 346): whichever way the [try] block was
    left, the call returns the local [success]. *)
Definition dump_app (e : Frida.env) (app_identifier : string) : M bool := λ st,
  let '(left_by, l, st1) := dump_app_try e app_identifier st in
  match dump_app_finally app_identifier l st1 with
  | (Ok _, st2) => (Ok (success l), st2)
  | (Raise x, st2) => (Raise x, st2)
  end.

End IpaBuilder.

(** ** [main] *)

Module Main.

(** The attributes of the namespace [parse_args] returns. *)
Record args := Args {
  target : string;
  host : string;
  port : Z;
  user : string;
  password : option string;
  key_file : option string;
  output : option string
}.

(** What [parser.parse_args()] (line 404) makes of the command line:
    the namespace; or the exit of the parser, with status 0 once the
    help asked for by [-h] is printed, and with status 2 on a command
    line the parser rejects. *)
Inductive parsed :=
| Namespace (a : args)
| Help
| Usage.

(** The machine the program is started on. *)
Record world := World {
  home : path;          (* Path.home() *)
  cwd : path;           (* the working directory *)
  local_disk : disk;
  device_disk : disk;
  sshd : bool           (* the device accepts an SSH connection *)
}.

(** [IpaBuilder(output_dir)] (line 43) *)
Definition new_builder (w : world) (output_dir : option string) : state :=
  let out := if SSHConfig.truthy output_dir
             then PyPath.joinpath (cwd w) (default "" output_dir)
             else PyPath.joinpath (PyPath.joinpath (home w) "Downloads") "ios_dumps" in
  State out [] false None None (sshd w) (device_disk w) (local_disk w) [] [] [].

(** Lines 418-421: the builder connects to the device. *)
Definition startup (ssh_config : SSHConfig.t) : M unit :=
  print "Starting iOS App Dumper..." ;;
  logger INFO "Establishing SSH connection..." NoArg ;;
  IpaBuilder.connect_ssh ssh_config.

(** The [try] block of [main] (lines 418-426). *)
Definition main_try (e : Frida.env) (ssh_config : SSHConfig.t) (a : args) : M unit :=
  startup ssh_config ;;
  success ← IpaBuilder.dump_app e (target a);
  if success : bool then mret tt else raise (SystemExit 1).

(** Lines 406-431, for the namespace [a]. *)
Definition main_with (e : Frida.env) (w : world) (a : args) : Z * state :=
  let st0 := new_builder w (output a) in
  if negb (SSHConfig.truthy (password a)) && negb (SSHConfig.truthy (key_file a)) then
    (2, st0)
  else
    match SSHConfig.new (host a) (port a) (user a) (password a) (key_file a) with
    | Raise _ => (1, st0)
    | Ok ssh_config =>
        match try_except (main_try e ssh_config a)
                (λ x, logger ERROR "Fatal error during dump process: " (ArgExn x) ;;
                      print "Dump process failed. Check logs for details." ;;
                      raise (SystemExit 1)) st0 with
        | (Ok _, st) => (0, st)
        | (Raise (SystemExit code), st) => (code, st)
        | (Raise (Exc _ _), st) => (1, st)
        end
    end.

(** [main] (line 402): the exit status of the process and the final
    state.  [parser.error] exits with status 2, as the parser does on
    a command line it rejects; an exception that reaches the top gives
    status 1; [sys.exit(n)] gives [n].  Before a builder is made the
    state is that of a builder just made, which has touched nothing. *)
Definition main (e : Frida.env) (w : world) (p : parsed) : Z * state :=
  match p with
  | Namespace a => main_with e w a
  | Help => (0, new_builder w None)
  | Usage => (2, new_builder w None)
  end.

(** The run gets as far as the wait of line 309: the credential is
    accepted, the connection is made, the application [app] is found
    and the workspace is prepared, which leaves the builder in [st]. *)
Definition reaches_wait (e : Frida.env) (w : world) (a : args)
    (app : Frida.application) (st : state) : Prop :=
  SSHConfig.truthy (password a) || SSHConfig.truthy (key_file a) = true ∧
  ∃ ssh_config st1 st2,
    SSHConfig.new (host a) (port a) (user a) (password a) (key_file a)
      = Ok ssh_config ∧
    startup ssh_config (new_builder w (output a)) = (Ok tt, st1) ∧
    IpaBuilder.locate e (target a) st1 = (Ok (Some app), st2) ∧
    IpaBuilder.prepare (Frida.name app) st2 = (Ok tt, st).

End Main.

(** ** The design document's vocabulary *)

Module Spec.

(** The message kinds of the router, in the document's precedence:
    an error report; no payload; a structured log record; a payload
    with a [dump] field; one with an [app] field; one that signals
    completion.  The two last kinds are payloads with none of the
    fields and payloads whose fields cannot be tested. *)
Inductive kind :=
| KError (description : value)
| KNoPayload
| KLog (text : value)
| KDump (payload : value)
| KApp (payload : value)
| KDone
| KIgnored
| KUnreadable (e : exn).

Definition classify (message : pydict value) : kind :=
  if PyVal.eq_str (PyVal.dict_get message "type") "error" then
    KError (PyVal.dict_get message "description")
  else
    let payload := PyVal.dict_get message "payload" in
    if negb (PyVal.truthy payload) then KNoPayload
    else if IpaBuilder.is_log_payload payload then KLog (IpaBuilder.log_message payload)
    else
      match PyVal.contains "dump" payload with
      | Raise e => KUnreadable e
      | Ok true => KDump payload
      | Ok false =>
          match PyVal.contains "app" payload with
          | Raise e => KUnreadable e
          | Ok true => KApp payload
          | Ok false =>
              match PyVal.contains "done" payload with
              | Raise e => KUnreadable e
              | Ok true => KDone
              | Ok false => KIgnored
              end
          end
      end.

(** What the router does with a message of each kind. *)
Definition route (k : kind) : M unit :=
  match k with
  | KError description => logger ERROR "Frida Script Error: " (ArgVal description)
  | KNoPayload => mret tt
  | KLog text => logger INFO "[JavaScript Log] " (ArgVal text)
  | KDump payload =>
      try_except (IpaBuilder._handle_dump_payload_208 payload)
        (λ e, logger ERROR "Error handling message: " (ArgExn e))
  | KApp payload =>
      try_except (IpaBuilder._handle_app_payload_217 payload)
        (λ e, logger ERROR "Error handling message: " (ArgExn e))
  | KDone => modify (set_finished true)
  | KIgnored => mret tt
  | KUnreadable e => logger ERROR "Error handling message: " (ArgExn e)
  end.

(** The kinds of message once more, told apart by the shape of the
    message alone: an error report with its description; a message
    whose payload is missing or false; a log record with its text; a
    payload with a [dump] field, and one with an [app] field, each with
    the value of the field where the payload is a dict; a payload with
    a [done] field; a payload with none of the three; a payload in
    which no field can be looked for. *)
Inductive message_kind :=
| ErrorReport (description : value)
| NoPayload
| LogRecord (text : value)
| Artifact (remote : option value)
| Bundle (remote : option value)
| Completion
| Unknown
| Unsearchable.

(** An object Python takes for false. *)
Definition falsy (v : value) : bool :=
  match v with
  | VNone | VBool false | VInt 0 | VStr EmptyString | VList [] | VDict [] => true
  | _ => false
  end.

(** The value is the string [s]. *)
Definition is_string (s : string) (v : option value) : bool :=
  match v with
  | Some (VStr s') => bool_decide (s' = s)
  | _ => false
  end.

(** The field [k] of a payload that is a dict. *)
Definition field (k : string) (v : value) : option value :=
  match v with
  | VDict d => PyDict.get k d
  | _ => None
  end.

(** [k] is a key of the dict, an element of the list or a part of the
    string; [None] for a number or a truth value, in which nothing can
    be looked for. *)
Definition has (k : string) (v : value) : option bool :=
  match v with
  | VDict d => Some (bool_decide (k ∈ d.*1))
  | VList l => Some (existsb (λ x, is_string k (Some x)) l)
  | VStr s => Some (PyStr.contains k s)
  | _ => None
  end.

Definition kind_of (message : pydict value) : message_kind :=
  if is_string "error" (PyDict.get "type" message) then
    ErrorReport (default VNone (PyDict.get "description" message))
  else
    match PyDict.get "payload" message with
    | None => NoPayload
    | Some payload =>
        if falsy payload then NoPayload
        else if is_string "log" (field "type" payload) then
          LogRecord (default (VStr "") (field "payload" payload))
        else
          match has "dump" payload, has "app" payload, has "done" payload with
          | Some true, _, _ => Artifact (field "dump" payload)
          | Some false, Some true, _ => Bundle (field "app" payload)
          | Some false, Some false, Some true => Completion
          | Some false, Some false, Some false => Unknown
          | _, _, _ => Unsearchable
          end
    end.

(** The calls on the remote channel that fetching [remote] comes to: a
    session is opened on the transport there is, and over an active
    transport the file or folder named by a string is asked for. *)
Definition requests (remote : option value) (recursive : bool) (st : state)
    : list event :=
  match ssh_client st with
  | Some Active =>
      EvOpen :: match remote with
                | Some (VStr r) => [EvGet r recursive]
                | _ => []
                end
  | Some Inactive => [EvOpen]
  | _ => []
  end.

(** [sub] occurs in [s] right after [pre], and nowhere before. *)
Definition first_occurrence (sub s pre post : string) : Prop :=
  s = pre +:+ sub +:+ post ∧
  ∀ pre' post', s = pre' +:+ sub +:+ post' →
                (String.length pre ≤ String.length pre')%nat.

(** [sub] occurs in [s]. *)
Definition occurs (sub s : string) : Prop :=
  ∃ pre post, s = pre +:+ sub +:+ post.

(** Exactly one of two authentication methods is usable. *)
Definition exactly_one (password key : option string) : bool :=
  xorb (SSHConfig.truthy password) (SSHConfig.truthy key).

(** At least one of them is. *)
Definition at_least_one (password key : option string) : bool :=
  SSHConfig.truthy password || SSHConfig.truthy key.

(** Two states that differ in the log and in the trace only. *)
Definition same_but_log (st st' : state) : Prop :=
  output_dir st = output_dir st' ∧ file_dict st = file_dict st' ∧
  finished st = finished st' ∧ ssh_client st = ssh_client st' ∧
  ssh_config st = ssh_config st' ∧ sshd_up st = sshd_up st' ∧ device st = device st' ∧ fs st = fs st' ∧
  stdout st = stdout st'.

(** [st] with older log lines and older events put in front. *)
Definition with_prefix (l : list log_entry) (t : list event) (st : state) : state :=
  set_log (l ++ log st) (set_trace (t ++ trace st) st).

(** A computation that only appends to the log and to the trace and
    never reads them. *)
Definition framed {A} (m : M A) : Prop :=
  ∀ l t st, m (with_prefix l t st) = ((m st).1, with_prefix l t (m st).2).

(** The remote transfer asked for by [scp.get(remote, ...)] fails in
    [st]: no session can be opened, or the transfer itself fails. *)
Definition transfer_fails (remote : string) (recursive : bool) (st : state) : Prop :=
  ssh_client st ≠ Some Active ∨
  Remote.fetch (device st) remote recursive (payload_dir st) (fs st) = None.

End Spec.

(** ** A small run *)

(** A device holding the application [Foo.app] and two decrypted
    binaries, and a workstation with an empty home directory. *)
Module Scenario.

Definition device_disk : disk := list_to_map [
  ([], Dir); (["var"], Dir); (["var"; "c"], Dir);
  (["var"; "c"; "Foo.app"], Dir);
  (["var"; "c"; "Foo.app"; "Foo"], File (Raw "encrypted main"));
  (["var"; "c"; "Foo.app"; "Info.plist"], File (Raw "plist"));
  (["var"; "c"; "Foo.app"; "Frameworks"], Dir);
  (["var"; "c"; "Foo.app"; "Frameworks"; "Bar"], File (Raw "encrypted Bar"));
  (["tmp"], Dir);
  (["tmp"; "Foo.fid"], File (Raw "decrypted main"));
  (["tmp"; "Bar.fid"], File (Raw "decrypted Bar"))].

Definition local_disk : disk := list_to_map [
  ([], Dir); (["home"], Dir); (["home"; "u"], Dir)].

Definition world : Main.world :=
  Main.World ["home"; "u"] ["home"; "u"] local_disk device_disk true.

Definition send (payload : pydict value) : pydict value :=
  [("type", VStr "send"); ("payload", VDict payload)].

Definition dump_main : pydict value :=
  send [("dump", VStr "/tmp/Foo.fid"); ("path", VStr "/var/c/Foo.app/Foo")].
Definition dump_bar : pydict value :=
  send [("dump", VStr "/tmp/Bar.fid"); ("path", VStr "/var/c/Foo.app/Frameworks/Bar")].
Definition dump_lost : pydict value :=
  send [("dump", VStr "/tmp/Lost.fid"); ("path", VStr "/var/c/Foo.app/Frameworks/Lost")].
Definition dump_unmarked : pydict value :=
  send [("dump", VStr "/tmp/Foo.fid"); ("path", VStr "/var/containers/Foo")].
Definition app_bundle : pydict value := send [("app", VStr "/var/c/Foo.app")].
Definition done : pydict value := send [("done", VStr "ok")].

Definition phone (s : list (Z * Frida.input)) : Frida.env :=
  Frida.Env [Frida.Device "iPhone" "udid" "usb" [Frida.Application "com.example.foo" "Foo" 0]]
            [] s.

Definition args : Main.args :=
  Main.Args "com.example.foo" "127.0.0.1" 22 "root" (Some "alpine") None None.

(** The credential [main] makes of [args]. *)
Definition config : SSHConfig.t :=
  SSHConfig.Make "127.0.0.1" 22 "root" (Some "alpine") None.

(** The builder right after [connect_ssh] and [create_directories]. *)
Definition ready : state :=
  (IpaBuilder.create_directories
     (IpaBuilder.connect_ssh config (Main.new_builder world None)).2).2.

(** A complete dump. *)
Definition full_stream : list (Z * Frida.input) :=
  [(10, Frida.Message dump_main); (20, Frida.Message dump_bar);
   (30, Frida.Message app_bundle); (40, Frida.Message done)].

(** The same dump with one more artifact, which the device has lost. *)
Definition lossy_stream : list (Z * Frida.input) :=
  [(10, Frida.Message dump_main); (15, Frida.Message dump_lost);
   (20, Frida.Message dump_bar);
   (30, Frida.Message app_bundle); (40, Frida.Message done)].

(** A dump whose bundle never arrives. *)
Definition bundleless_stream : list (Z * Frida.input) :=
  [(10, Frida.Message dump_main); (40, Frida.Message done)].

(** A dump whose completion message comes when the wait is over. *)
Definition late_stream : list (Z * Frida.input) :=
  [(10, Frida.Message dump_main); (30, Frida.Message app_bundle);
   (7200, Frida.Message done)].

(** The builder when the whole of [full_stream] has been handled. *)
Definition staged : state := IpaBuilder.pump full_stream ready.

(** The builder of a run on [phone s] when the wait begins. *)
Definition waiting (s : list (Z * Frida.input)) : state :=
  (IpaBuilder.prepare "Foo"
     (IpaBuilder.locate (phone s) "com.example.foo"
        (Main.startup config (Main.new_builder world None)).2).2).2.

Definition foo : Frida.application := Frida.Application "com.example.foo" "Foo" 0.

(** The builder with a transport that went inactive. *)
Definition dropped : state := (IpaBuilder.handle_input Frida.Drop ready).2.

End Scenario.

(** ** Predicates on computations *)

(** [m] adds to the trace only events that satisfy [P]. *)
Definition emits (P : event → Prop) {A} (m : M A) : Prop :=
  ∀ st, ∃ evs, trace (m st).2 = trace st ++ evs ∧ Forall P evs.

(** The lines of the failure summary (lines 338-344). *)
Definition failure_summary (app_identifier : string) : list string :=
  [IpaBuilder.rule; "iOS App Dump Summary"; IpaBuilder.rule;
   "Target App: " +:+ app_identifier; "Status: Failed";
   "Check logs for details"; IpaBuilder.rule].

(** The lines of the success summary (lines 329-336). *)
Definition success_summary (display_name : string) : list string :=
  [IpaBuilder.rule; "iOS App Dump Summary"; IpaBuilder.rule;
   "Target App: " +:+ display_name; "Total Time"; "Output Directory";
   "Status: Success"; IpaBuilder.rule].

(** The disk after the body of the loop of lines 254-263 for [item]. *)
Definition purged_item (item : path) (d : disk) : disk :=
  if FS.is_dir d item && PyStr.endswith ".app" (PyPath.basename item) then d
  else if FS.is_file d item then delete item d
  else if FS.is_dir d item then FS.remove_tree item d
  else d.

(** The entry [c] of the staging directory is one the purge leaves
    alone: a directory whose name ends in [.app]. *)
Definition retained (d : disk) (staging : path) (c : string) : bool :=
  FS.is_dir d (staging ++ [c]) && PyStr.endswith ".app" c.

(** What the purge of [staging] leaves at [p]: the entries below a
    retained directory, and everything outside [staging]. *)
Definition purged (staging : path) (d : disk) (p : path) : option node :=
  match PyPath.relative_to staging p with
  | Some (c :: _) => if retained d staging c then d !! p else None
  | _ => d !! p
  end.

(** [m] leaves the component [proj] of the state as it was. *)
Definition keeps {A B} (proj : state → B) (m : M A) : Prop :=
  ∀ st, proj (m st).2 = proj st.

(** ** Further predicates and scenarios *)

(** [m] never leaves by [SystemExit]: what it raises, [except
    Exception] catches. *)
Definition exc_only {A} (m : M A) : Prop :=
  ∀ st code, (m st).1 ≠ Raise (SystemExit code).

(** The USB devices among those the runtime lists (line 131). *)
Definition usb_devices (e : Frida.env) : list Frida.device :=
  List.filter (λ dv, String.eqb (Frida.dev_type dv) "usb") (Frida.devices e).

(** An answer the selection prompt turns down: not a number, or a
    number that is not between 1 and the number of devices. *)
Definition rejected (n : nat) (answer : option Z) : Prop :=
  match answer with
  | None => True
  | Some choice => ¬ (1 ≤ choice ≤ Z.of_nat n)
  end.

(** What the prompt prints for an answer it turns down. *)
Definition rejection (answer : option Z) : string :=
  match answer with
  | None => "Invalid input. Please enter a number."
  | Some _ => "Invalid choice. Please try again."
  end.

(** What is written while the answers [skipped] are turned down: for
    each the prompt it was given to and the rejection. *)
Definition turned_down (skipped : list (option Z)) : list string :=
  skipped ≫= λ answer,
    ["Enter the number of the device you want to use: "; rejection answer].

(** The list of the devices as it is printed: each with its place,
    counted from 1, its name and its id. *)
Definition listing (l : list Frida.device) : list string :=
  imap (λ i dv, pretty (Z.of_nat i + 1) +:+ ". " +:+ Frida.dev_name dv
                +:+ " (ID: " +:+ Frida.dev_id dv +:+ ")") l.

(** [app_identifier in (app.identifier, app.name)] (line 279). *)
Definition matches (app_identifier : string) (app : Frida.application) : Prop :=
  app_identifier = Frida.identifier app ∨ app_identifier = Frida.name app.


(** A builder that has stored its credential and was refused by the
    device. *)
Definition refused : state :=
  (IpaBuilder.connect_ssh Scenario.config
     (Main.new_builder
        (Main.World ["home"; "u"] ["home"; "u"] Scenario.local_disk
           Scenario.device_disk false) None)).2.

(** The builder of [Scenario.ready] when a regular file sits where the
    staging directory should be. *)
Definition blocked : state :=
  set_fs (<[payload_dir Scenario.ready := File (Raw "stale")]> (fs Scenario.ready))
         Scenario.ready.

(** [self.payload_dir / key] of line 239: where the artifact recorded
    under [key] was fetched to. *)
Definition staged_at (st : state) (key : string) : path :=
  PyPath.joinpath (payload_dir st) key.

(** [self.payload_dir / app_name / value] of line 237. *)
Definition bundle_target (st : state) (app_name value : string) : path :=
  PyPath.joinpath (PyPath.joinpath (payload_dir st) app_name) value.

(** * Properties *)

(** ** Strings *)

Section strings.
Implicit Types s t u sub pre post : string.

Lemma append_nil t : "" +:+ t = t.
Proof. reflexivity. Qed.

Lemma append_cons c s t : String c s +:+ t = String c (s +:+ t).
Proof. reflexivity. Qed.

Lemma append_assoc s t u : (s +:+ t) +:+ u = s +:+ (t +:+ u).
Proof.
  induction s as [|c s IH]; [done |].
  rewrite !append_cons. by f_equal.
Qed.

Lemma append_length s t :
  String.length (s +:+ t) = (String.length s + String.length t)%nat.
Proof.
  induction s as [|c s IH]; [done |].
  rewrite append_cons. cbn [String.length]. by rewrite IH.
Qed.

Lemma append_inv_length pre pre' t t' :
  String.length pre = String.length pre' →
  pre +:+ t = pre' +:+ t' → pre = pre' ∧ t = t'.
Proof.
  revert pre'. induction pre as [|c pre IH]; intros [|c' pre'] Hlen Heq;
    try done.
  rewrite !append_cons in Heq.
  injection Heq as -> Heq. injection Hlen as Hlen.
  destruct (IH _ Hlen Heq) as [-> ->]. done.
Qed.

Lemma startswith_app sub t : PyStr.startswith sub (sub +:+ t) = true.
Proof.
  unfold PyStr.startswith. induction sub as [|c sub IH].
  - by destruct t.
  - rewrite append_cons. cbn [String.prefix].
    destruct (ascii_dec c c); [done | congruence].
Qed.

Lemma startswith_inv sub s :
  PyStr.startswith sub s = true → ∃ t, s = sub +:+ t.
Proof.
  unfold PyStr.startswith. revert s.
  induction sub as [|c sub IH]; intros s H.
  - by exists s.
  - destruct s as [|c' s]; [done |]. cbn [String.prefix] in H.
    destruct (ascii_dec c c') as [<- |]; [| done].
    destruct (IH _ H) as [t ->]. by exists t.
Qed.

Lemma find_lower sub s : -1 ≤ PyStr.find sub s.
Proof.
  induction s as [|c s IH]; cbn [PyStr.find].
  - destruct (PyStr.startswith sub ""); lia.
  - destruct (PyStr.startswith sub (String c s)); [lia |].
    destruct (Z.ltb_spec (PyStr.find sub s) 0); lia.
Qed.

(** [find] is not later than any occurrence. *)
Lemma find_upper sub pre post :
  0 ≤ PyStr.find sub (pre +:+ sub +:+ post) ≤ Z.of_nat (String.length pre).
Proof.
  induction pre as [|c pre IH].
  - rewrite append_nil. assert (PyStr.find sub (sub +:+ post) = 0) as ->; [| done].
    pose proof (startswith_app sub post) as H.
    destruct (sub +:+ post); cbn [PyStr.find]; by rewrite H.
  - rewrite append_cons. cbn [PyStr.find String.length].
    destruct (PyStr.startswith sub _); [lia |].
    destruct (Z.ltb_spec (PyStr.find sub (pre +:+ sub +:+ post)) 0); lia.
Qed.

(** A non-negative [find] is the length of what stands before an
    occurrence. *)
Lemma find_sound sub s :
  0 ≤ PyStr.find sub s →
  ∃ pre post, s = pre +:+ sub +:+ post ∧
              Z.of_nat (String.length pre) = PyStr.find sub s.
Proof.
  induction s as [|c s IH]; cbn [PyStr.find].
  - destruct (PyStr.startswith sub "") eqn:E; [| lia].
    intros _. destruct (startswith_inv _ _ E) as [t Ht].
    exists "", t. done.
  - destruct (PyStr.startswith sub (String c s)) eqn:E.
    + intros _. destruct (startswith_inv _ _ E) as [t Ht].
      exists "", t. done.
    + destruct (Z.ltb_spec (PyStr.find sub s) 0) as [|Hge]; [lia |].
      intros _. destruct (IH Hge) as (pre & post & -> & Hlen).
      exists (String c pre), post. split; [done |].
      cbn [String.length]. lia.
Qed.

Lemma find_absent sub s : ¬ Spec.occurs sub s → PyStr.find sub s = -1.
Proof.
  intros Hno. pose proof (find_lower sub s).
  destruct (Z.eq_dec (PyStr.find sub s) (-1)) as [|Hne]; [done |].
  destruct (find_sound sub s) as (pre & post & Hs & _); [lia |].
  exfalso. apply Hno. by exists pre, post.
Qed.

(** At a first occurrence [find] gives the length of what stands
    before it. *)
Lemma find_first sub s pre post :
  Spec.first_occurrence sub s pre post →
  PyStr.find sub s = Z.of_nat (String.length pre).
Proof.
  intros [-> Hmin].
  pose proof (find_upper sub pre post) as [Hlo Hup].
  destruct (find_sound sub _ Hlo) as (pre' & post' & Heq & Hlen).
  specialize (Hmin _ _ Heq). lia.
Qed.

Lemma drop_append pre t : PyStr.drop (String.length pre) (pre +:+ t) = t.
Proof. induction pre as [|c pre IH]; [done | apply IH]. Qed.

(** [s[i + len(sub):]] at a first occurrence is what follows it. *)
Lemma slice_after_first sub s pre post :
  Spec.first_occurrence sub s pre post →
  PyStr.slice_from s (PyStr.find sub s + Z.of_nat (String.length sub)) = post.
Proof.
  intros Hfirst. rewrite (find_first _ _ _ _ Hfirst).
  destruct Hfirst as [-> _]. unfold PyStr.slice_from.
  destruct (Z.ltb_spec (Z.of_nat (String.length pre) + Z.of_nat (String.length sub)) 0);
    [lia |].
  rewrite <- Nat2Z.inj_add, Nat2Z.id, <- append_length.
  rewrite <- append_assoc. apply drop_append.
Qed.

(** With no occurrence the slice starts at [len(sub) - 1]. *)
Lemma slice_without_marker sub s :
  ¬ Spec.occurs sub s → (1 ≤ String.length sub)%nat →
  PyStr.slice_from s (PyStr.find sub s + Z.of_nat (String.length sub))
  = PyStr.drop (String.length sub - 1) s.
Proof.
  intros Hno Hlen. rewrite (find_absent _ _ Hno). unfold PyStr.slice_from.
  destruct (Z.ltb_spec (-1 + Z.of_nat (String.length sub)) 0); [lia |].
  f_equal. lia.
Qed.

End strings.

(** ** The monad *)

Section monad.
Context {A B : Type}.
Implicit Types (m : M A) (f : A → M B) (st : state).

Lemma bind_ok m f st a st' :
  m st = (Ok a, st') → (m ≫= f) st = f a st'.
Proof. unfold mbind, M_bind. by intros ->. Qed.

Lemma bind_raise m f st e st' :
  m st = (Raise e, st') → (m ≫= f) st = (Raise e, st').
Proof. unfold mbind, M_bind. by intros ->. Qed.

Lemma try_except_ok m (h : exn → M A) st a st' :
  m st = (Ok a, st') → try_except m h st = (Ok a, st').
Proof. unfold try_except. by intros ->. Qed.

Lemma try_except_exc m (h : exn → M A) st cls msg st' :
  m st = (Raise (Exc cls msg), st') →
  try_except m h st = h (Exc cls msg) st'.
Proof. unfold try_except. by intros ->. Qed.

Lemma try_finally_pass m st : try_finally m (mret tt) st = m st.
Proof. unfold try_finally, mret, M_ret. by destruct (m st). Qed.

End monad.

(** Unfolds the operations of the monad. *)
Ltac munfold :=
  cbv [mbind M_bind mret M_ret raise lift modify gets logger emit print
       try_except try_finally IpaBuilder.on_fs].

(** ** The class namespace *)

(** The handlers [on_message] reaches are the ones defined last. *)
Lemma handle_dump_payload_resolved :
  IpaBuilder._handle_dump_payload = IpaBuilder._handle_dump_payload_208.
Proof. reflexivity. Qed.

Lemma handle_app_payload_resolved :
  IpaBuilder._handle_app_payload = IpaBuilder._handle_app_payload_217.
Proof. reflexivity. Qed.

(** ** The router *)

Lemma contains_raises_exc k v e :
  PyVal.contains k v = Raise e → ∃ cls msg, e = Exc cls msg.
Proof. destruct v; simpl; intros [= <-]; eauto. Qed.

(** [on_message] does what the document's router does with the kind of
    the message. *)
Lemma on_message_route message st :
  IpaBuilder.on_message message st = Spec.route (Spec.classify message) st.
Proof.
  unfold IpaBuilder.on_message, Spec.classify.
  destruct (PyVal.eq_str _ "error"); [done |].
  destruct (negb _); [done |].
  destruct (IpaBuilder.is_log_payload _); [done |].
  rewrite try_finally_pass. unfold IpaBuilder.dispatch.
  set (payload := PyVal.dict_get message "payload").
  set (h := λ e, logger ERROR "Error handling message: " (ArgExn e)).
  destruct (PyVal.contains "dump" payload) as [[|]|e] eqn:Hdump.
  - rewrite handle_dump_payload_resolved. done.
  - destruct (PyVal.contains "app" payload) as [[|]|e] eqn:Happ.
    + rewrite handle_app_payload_resolved. done.
    + destruct (PyVal.contains "done" payload) as [[|]|e] eqn:Hdone; try done.
      destruct (contains_raises_exc _ _ _ Hdone) as (cls & msg & ->). done.
    + destruct (contains_raises_exc _ _ _ Happ) as (cls & msg & ->). done.
  - destruct (contains_raises_exc _ _ _ Hdump) as (cls & msg & ->). done.
Qed.

(** A message the router takes for an artifact: not an error report,
    with a dict payload that is not a log record and has a string
    [dump] field. *)
Lemma classify_dump message d remote :
  PyVal.eq_str (PyVal.dict_get message "type") "error" = false →
  PyVal.dict_get message "payload" = VDict d →
  IpaBuilder.is_log_payload (VDict d) = false →
  PyDict.get "dump" d = Some remote →
  Spec.classify message = Spec.KDump (VDict d).
Proof.
  intros Hty Hpl Hlog Hdump. unfold Spec.classify.
  rewrite Hty, Hpl, Hlog.
  assert (PyVal.truthy (VDict d) = true) as -> by (by destruct d).
  cbn [negb PyVal.contains]. unfold PyDict.mem. by rewrite Hdump.
Qed.

(** The artifact handler when the transfer succeeds and the original
    path is a string: the artifact is staged and recorded under its
    local name, with the original path cut five characters after the
    index [find] gave. *)
Lemma dump_handler_records d remote original staged st :
  PyDict.get "dump" d = Some (VStr remote) →
  PyDict.get "path" d = Some (VStr original) →
  ssh_client st = Some Active →
  Remote.fetch (device st) remote false (payload_dir st) (fs st) = Some staged →
  Spec.route (Spec.KDump (VDict d)) st =
  (Ok tt,
   set_file_dict
     (PyDict.set (PyPath.name remote)
        (PyStr.slice_from original (PyStr.find ".app/" original + 5))
        (file_dict st))
     (set_fs staged (set_trace (trace st ++ [EvOpen; EvGet remote false]) st))).
Proof.
  intros Hdump Hpath Hssh Hfetch.
  unfold Spec.route, IpaBuilder._handle_dump_payload_208, IpaBuilder.scp_open,
    IpaBuilder.fetch_and_record_dump, IpaBuilder.scp_get, PyVal.getitem.
  rewrite Hdump, Hpath. munfold. rewrite Hssh. unfold payload_dir in *. cbn.
  destruct st as [out fd fin ssh up dev d0 lg tr so]. cbn in *.
  rewrite <- app_assoc. cbn. rewrite Hfetch. reflexivity.
Qed.

(** The artifact handler when the transfer fails: one error line, the
    channel events, and nothing else. *)
Lemma dump_handler_fails d remote st :
  PyDict.get "dump" d = Some (VStr remote) →
  Spec.transfer_fails remote false st →
  ∃ entry evs,
    Spec.route (Spec.KDump (VDict d)) st =
      (Ok tt, set_log (log st ++ [entry]) (set_trace (trace st ++ evs) st)) ∧
    log_level entry = ERROR.
Proof.
  intros Hdump Hfail.
  unfold Spec.route, IpaBuilder._handle_dump_payload_208, IpaBuilder.scp_open,
    IpaBuilder.fetch_and_record_dump, IpaBuilder.scp_get, PyVal.getitem.
  rewrite Hdump. munfold. unfold Spec.transfer_fails, payload_dir in *.
  destruct st as [out fd fin ssh up dev d0 lg tr so]. cbn in *.
  destruct ssh as [[| |]|].
  - eexists _, []. cbn. rewrite app_nil_r. done.
  - eexists _, [EvOpen]. cbn. done.
  - destruct Hfail as [Hne | Hnone]; [done |]. cbn in Hnone.
    eexists _, [EvOpen; EvGet remote false]. cbn.
    rewrite <- app_assoc. cbn. rewrite Hnone. done.
  - eexists _, []. cbn. rewrite app_nil_r. done.
Qed.

Lemma occurs_first sub s :
  Spec.occurs sub s → ∃ pre post, Spec.first_occurrence sub s pre post.
Proof.
  intros (pre0 & post0 & ->).
  pose proof (find_upper sub pre0 post0) as [Hlo _].
  destruct (find_sound _ _ Hlo) as (pre & post & Heq & Hlen).
  exists pre, post. split; [done |].
  intros pre' post' Heq'.
  pose proof (find_upper sub pre' post') as [_ Hup].
  rewrite <- Heq' in Hup. lia.
Qed.

Lemma dict_get_set {A} k (v : A) d : PyDict.get k (PyDict.set k v d) = Some v.
Proof.
  induction d as [|[k' v'] d IH]; cbn.
  - by rewrite String.eqb_refl.
  - destruct (String.eqb k k') eqn:E; cbn; rewrite ?String.eqb_refl, ?E; done.
Qed.

Lemma dict_get_set_ne {A} k k' (v : A) d :
  k ≠ k' → PyDict.get k' (PyDict.set k v d) = PyDict.get k' d.
Proof.
  intros Hne. induction d as [|[k0 v0] d IH]; cbn.
  - by destruct (String.eqb_spec k' k) as [-> |].
  - destruct (String.eqb_spec k k0) as [<- |]; cbn.
    + by destruct (String.eqb_spec k' k) as [-> |].
    + by rewrite IH.
Qed.

(** ** The events of a computation *)

Section emits.
Context (P : event → Prop).

Lemma emits_ret {A} (a : A) : emits P (mret a).
Proof. intros st. exists []. by rewrite app_nil_r. Qed.

Lemma emits_raise {A} e : emits P (raise e : M A).
Proof. intros st. exists []. by rewrite app_nil_r. Qed.

Lemma emits_lift {A} (r : result A) : emits P (lift r).
Proof. intros st. exists []. by rewrite app_nil_r. Qed.

Lemma emits_gets {A} (f : state → A) : emits P (gets f).
Proof. intros st. exists []. by rewrite app_nil_r. Qed.

Lemma emits_modify f : (∀ st, trace (f st) = trace st) → emits P (modify f).
Proof. intros Hf st. exists []. cbn. by rewrite Hf, app_nil_r. Qed.

Lemma emits_logger lv text arg : emits P (logger lv text arg).
Proof. intros st. exists []. by rewrite app_nil_r. Qed.

Lemma emits_print line : emits P (print line).
Proof. intros st. exists []. by rewrite app_nil_r. Qed.

Lemma emits_emit ev : P ev → emits P (emit ev).
Proof. intros Hev st. exists [ev]. split; [done | by constructor]. Qed.

Lemma emits_bind {A B} (m : M A) (f : A → M B) :
  emits P m → (∀ a, emits P (f a)) → emits P (m ≫= f).
Proof.
  intros Hm Hf st. unfold mbind, M_bind.
  destruct (Hm st) as (evs & Htr & Hevs).
  destruct (m st) as [[a|e] st1]; cbn in *.
  - destruct (Hf a st1) as (evs' & Htr' & Hevs').
    exists (evs ++ evs'). rewrite Htr', Htr, app_assoc.
    split; [done | by apply Forall_app].
  - by exists evs.
Qed.

Lemma emits_try_except {A} (m : M A) (h : exn → M A) :
  emits P m → (∀ e, emits P (h e)) → emits P (try_except m h).
Proof.
  intros Hm Hh st. unfold try_except.
  destruct (Hm st) as (evs & Htr & Hevs).
  destruct (m st) as [[a|[cls msg|code]] st1]; cbn in *; try by exists evs.
  destruct (Hh (Exc cls msg) st1) as (evs' & Htr' & Hevs').
  exists (evs ++ evs'). rewrite Htr', Htr, app_assoc.
  split; [done | by apply Forall_app].
Qed.

Lemma emits_try_finally {A} (m : M A) (final : M unit) :
  emits P m → emits P final → emits P (try_finally m final).
Proof.
  intros Hm Hf st. unfold try_finally.
  destruct (Hm st) as (evs & Htr & Hevs).
  destruct (m st) as [r st1]; cbn in *.
  destruct (Hf st1) as (evs' & Htr' & Hevs').
  exists (evs ++ evs').
  destruct (final st1) as [[[]|e] st2]; cbn in *;
    rewrite Htr', Htr, app_assoc; (split; [done | by apply Forall_app]).
Qed.

End emits.

(** Breaks a computation into its steps. *)
Ltac emits_steps :=
  repeat first
    [ apply emits_ret | apply emits_raise | apply emits_lift | apply emits_gets
    | apply emits_logger | apply emits_print
    | apply emits_modify; by intros []
    | apply emits_emit; done
    | apply emits_bind; [| intros ?]
    | apply emits_try_except; [| intros ?]
    | apply emits_try_finally
    | case_match ].

(** The events of the router never include the liveness check. *)
Lemma route_skips_ensure k : emits (λ ev, ev ≠ EvEnsure) (Spec.route k).
Proof.
  destruct k as [v| |v|p|p| | |e]; cbn [Spec.route].
  - emits_steps.
  - emits_steps.
  - emits_steps.
  - unfold IpaBuilder._handle_dump_payload_208, IpaBuilder.fetch_and_record_dump,
      IpaBuilder.scp_get.
    emits_steps.
  - unfold IpaBuilder._handle_app_payload_217, IpaBuilder.fetch_and_record_app,
      IpaBuilder.scp_get.
    emits_steps.
  - emits_steps.
  - emits_steps.
  - emits_steps.
Qed.

(** ** The kinds of message *)

Section kinds.
Import Spec.

Lemma eq_str_is_string (v : option value) s :
  PyVal.eq_str (default VNone v) s = is_string s v.
Proof.
  destruct v as [[| | |s'| |]|]; cbn; try done.
  destruct (String.eqb_spec s' s); by case_bool_decide.
Qed.

Lemma dict_get_default (d : pydict value) k :
  PyVal.dict_get d k = default VNone (PyDict.get k d).
Proof. unfold PyVal.dict_get. by destruct (PyDict.get k d). Qed.

Lemma truthy_falsy v : PyVal.truthy v = negb (falsy v).
Proof. destruct v as [|[]|[]|[]|[]|[]]; done. Qed.

Lemma mem_keys {A} k (d : pydict A) : PyDict.mem k d = bool_decide (k ∈ d.*1).
Proof.
  unfold PyDict.mem. induction d as [|[k' v] d IH]; cbn.
  - by rewrite bool_decide_eq_false_2 by (by intros ?%elem_of_nil).
  - destruct (String.eqb_spec k k') as [-> | Hne].
    + by rewrite bool_decide_eq_true_2 by (apply elem_of_cons; by left).
    + rewrite IH. apply bool_decide_ext. rewrite elem_of_cons. tauto.
Qed.

Lemma contains_has k v :
  PyVal.contains k v
  = match has k v with
    | Some b => Ok b
    | None => Raise (Exc TypeError "argument is not iterable")
    end.
Proof.
  destruct v as [| | |s|l|d]; cbn; try done.
  - f_equal. induction l as [|x l IH]; cbn [existsb]; [done |].
    rewrite IH. f_equal. apply (eq_str_is_string (Some x)).
  - by rewrite mem_keys.
Qed.

Lemma is_log_payload_is_string payload :
  IpaBuilder.is_log_payload payload = is_string "log" (field "type" payload).
Proof.
  destruct payload as [| | | | |d]; cbn; try done.
  by rewrite dict_get_default, eq_str_is_string.
Qed.

Lemma log_message_field payload :
  IpaBuilder.log_message payload = default (VStr "") (field "payload" payload).
Proof. by destruct payload. Qed.

(** The kind read off the shape of a message is the kind the router
    comes to by its tests. *)
Lemma classify_kind_of message :
  match kind_of message with
  | ErrorReport description => classify message = KError description
  | NoPayload => classify message = KNoPayload
  | LogRecord text => classify message = KLog text
  | Artifact remote =>
      ∃ payload, classify message = KDump payload ∧ field "dump" payload = remote
  | Bundle remote =>
      ∃ payload, classify message = KApp payload ∧ field "app" payload = remote
  | Completion => classify message = KDone
  | Unknown => classify message = KIgnored
  | Unsearchable => ∃ e, classify message = KUnreadable e
  end.
Proof.
  unfold kind_of, classify.
  rewrite !dict_get_default, eq_str_is_string.
  destruct (is_string "error" _); [done |].
  destruct (PyDict.get "payload" message) as [payload|]; cbn [default from_option id];
    [| done].
  rewrite truthy_falsy, negb_involutive.
  destruct (falsy payload); [done |].
  rewrite is_log_payload_is_string, log_message_field.
  destruct (is_string "log" _); [done |].
  rewrite !contains_has.
  destruct payload as [| | |s|l|d]; cbn [has]; try by eexists.
  all: repeat (match goal with |- context [match (if ?b then _ else _) with _ => _ end] => destruct b end
               || case_match); try done; by eexists.
Qed.

End kinds.

Section transfers.
Import Spec.

(** Handling an artifact: the call returns; the calls on the channel
    are those of one fetch of the file named; the completion event is
    left alone. *)
Lemma route_dump_effect payload st :
  (route (KDump payload) st).1 = Ok tt ∧
  trace (route (KDump payload) st).2
    = trace st ++ requests (field "dump" payload) false st ∧
  finished (route (KDump payload) st).2 = finished st.
Proof.
  unfold route, IpaBuilder._handle_dump_payload_208, IpaBuilder.scp_open,
    IpaBuilder.fetch_and_record_dump, IpaBuilder.scp_get, PyVal.getitem,
    IpaBuilder.find_marker, IpaBuilder.slice_value, IpaBuilder.name_of,
    requests, field.
  munfold. destruct st as [out fd fin ssh config up dev d0 lg tr so]. cbn.
  destruct ssh as [[| |]|]; cbn; rewrite ?app_nil_r; try done.
  destruct payload as [| | |s|l|d]; cbn; try done.
  destruct (PyDict.get "dump" d) as [[| | |r| |]|]; cbn; try done.
  rewrite <- app_assoc. cbn.
  destruct (Remote.fetch dev r false _ d0); cbn; [| done].
  destruct (PyDict.get "path" d) as [[| | |p| |]|]; cbn; done.
Qed.

(** Handling the bundle: the same, with a recursive fetch. *)
Lemma route_app_effect payload st :
  (route (KApp payload) st).1 = Ok tt ∧
  trace (route (KApp payload) st).2
    = trace st ++ requests (field "app" payload) true st ∧
  finished (route (KApp payload) st).2 = finished st.
Proof.
  unfold route, IpaBuilder._handle_app_payload_217, IpaBuilder.scp_open,
    IpaBuilder.fetch_and_record_app, IpaBuilder.scp_get, PyVal.getitem,
    IpaBuilder.name_of, requests, field.
  munfold. destruct st as [out fd fin ssh config up dev d0 lg tr so]. cbn.
  destruct ssh as [[| |]|]; cbn; rewrite ?app_nil_r; try done.
  destruct payload as [| | |s|l|d]; cbn; try done.
  destruct (PyDict.get "app" d) as [[| | |r| |]|]; cbn; try done.
  rewrite <- app_assoc. cbn.
  destruct (Remote.fetch dev r true _ d0); cbn; done.
Qed.

End transfers.

(** ** The claims on the router *)

(** C10.  Every message is handled by its kind, and the kinds are told
    apart in the document's precedence: an error report is logged and
    nothing else happens; a message whose payload is missing or false
    does nothing; a log record is logged; otherwise a [dump] field
    makes the message an artifact, whatever else the payload holds;
    without it an [app] field makes it the bundle; without both a
    [done] field sets the completion event, and setting it again
    changes nothing.  An artifact is fetched as a file and the bundle
    as a folder; neither touches the completion event.  The call
    returns in every case. *)
Theorem C10_on_message_precedence message st :
  (IpaBuilder.on_message message st).1 = Ok tt ∧
  match Spec.kind_of message with
  | Spec.ErrorReport description =>
      (IpaBuilder.on_message message st).2
      = set_log (log st ++ [LogEntry ERROR "Frida Script Error: " (ArgVal description)]) st
  | Spec.NoPayload => (IpaBuilder.on_message message st).2 = st
  | Spec.LogRecord text =>
      (IpaBuilder.on_message message st).2
      = set_log (log st ++ [LogEntry INFO "[JavaScript Log] " (ArgVal text)]) st
  | Spec.Artifact remote =>
      trace (IpaBuilder.on_message message st).2
        = trace st ++ Spec.requests remote false st ∧
      finished (IpaBuilder.on_message message st).2 = finished st
  | Spec.Bundle remote =>
      trace (IpaBuilder.on_message message st).2
        = trace st ++ Spec.requests remote true st ∧
      finished (IpaBuilder.on_message message st).2 = finished st
  | Spec.Completion =>
      (IpaBuilder.on_message message st).2 = set_finished true st ∧
      (IpaBuilder.on_message message (set_finished true st)).2 = set_finished true st
  | Spec.Unknown => (IpaBuilder.on_message message st).2 = st
  | Spec.Unsearchable =>
      ∃ e, (IpaBuilder.on_message message st).2
           = set_log (log st ++ [LogEntry ERROR "Error handling message: " (ArgExn e)]) st
  end.
Proof.
  pose proof (classify_kind_of message) as Hkind.
  rewrite !on_message_route.
  destruct (Spec.kind_of message) as [description| |text|remote|remote| | |].
  - by rewrite Hkind.
  - by rewrite Hkind.
  - by rewrite Hkind.
  - destruct Hkind as (payload & -> & <-).
    destruct (route_dump_effect payload st) as (? & ? & ?). done.
  - destruct Hkind as (payload & -> & <-).
    destruct (route_app_effect payload st) as (? & ? & ?). done.
  - rewrite Hkind. cbn. split; [done |]. split; [done |]. by destruct st.
  - by rewrite Hkind.
  - destruct Hkind as [e ->]. split; [done |]. by exists e.
Qed.

(** C4.  A [dumpFile] message whose original path contains the marker
    [.app/], and whose artifact is transferred, records under the
    artifact's local file name what follows the first occurrence of the
    marker. *)
Theorem C4_dump_records_path_after_marker message d remote original staged st :
  PyVal.eq_str (PyVal.dict_get message "type") "error" = false →
  PyVal.dict_get message "payload" = VDict d →
  IpaBuilder.is_log_payload (VDict d) = false →
  PyDict.get "dump" d = Some (VStr remote) →
  PyDict.get "path" d = Some (VStr original) →
  Spec.occurs ".app/" original →
  ssh_client st = Some Active →
  Remote.fetch (device st) remote false (payload_dir st) (fs st) = Some staged →
  ∃ pre post st',
    Spec.first_occurrence ".app/" original pre post ∧
    IpaBuilder.on_message message st = (Ok tt, st') ∧
    file_dict st' = PyDict.set (PyPath.name remote) post (file_dict st) ∧
    PyDict.get (PyPath.name remote) (file_dict st') = Some post.
Proof.
  intros Hty Hpl Hlog Hdump Hpath Hocc Hssh Hfetch.
  destruct (occurs_first _ _ Hocc) as (pre & post & Hfirst).
  exists pre, post. eexists. split; [done |].
  rewrite on_message_route, (classify_dump _ _ _ Hty Hpl Hlog Hdump).
  rewrite (dump_handler_records _ _ _ _ _ Hdump Hpath Hssh Hfetch).
  change 5 with (Z.of_nat (String.length ".app/")).
  rewrite (slice_after_first _ _ _ _ Hfirst).
  split; [done |]. split; [by destruct st |].
  destruct st; cbn. apply dict_get_set.
Qed.

(** An option known to hold something, by a test that computes. *)
Lemma some_default {A} (o : option A) (d : A) :
  (if o is Some _ then true else false) = true → o = Some (default d o).
Proof. by destruct o. Qed.

Lemma C4_witness :
  ∃ pre post st',
    Spec.first_occurrence ".app/" "/var/c/Foo.app/Frameworks/Bar" pre post ∧
    IpaBuilder.on_message Scenario.dump_bar Scenario.ready = (Ok tt, st') ∧
    file_dict st' = PyDict.set "Bar.fid" post (file_dict Scenario.ready) ∧
    PyDict.get "Bar.fid" (file_dict st') = Some post.
Proof.
  apply (C4_dump_records_path_after_marker Scenario.dump_bar
           [("dump", VStr "/tmp/Bar.fid");
            ("path", VStr "/var/c/Foo.app/Frameworks/Bar")]
           "/tmp/Bar.fid" "/var/c/Foo.app/Frameworks/Bar"
           (default ∅ (Remote.fetch (device Scenario.ready) "/tmp/Bar.fid" false
                         (payload_dir Scenario.ready) (fs Scenario.ready)))
           Scenario.ready).
  - reflexivity.
  - reflexivity.
  - reflexivity.
  - reflexivity.
  - reflexivity.
  - exists "/var/c/Foo", "Frameworks/Bar". reflexivity.
  - vm_compute. reflexivity.
  - apply some_default. vm_compute. reflexivity.
Defined.

(** C5.  A [dumpFile] message whose original path lacks the marker is
    not rejected: [find] gives -1 and the path without its first four
    characters is recorded. *)
Theorem C5_unmarked_path_is_recorded :
  ¬ Spec.occurs ".app/" "/var/containers/Foo" ∧
  (IpaBuilder.on_message Scenario.dump_unmarked Scenario.ready).1 = Ok tt ∧
  file_dict Scenario.ready = [] ∧
  file_dict (IpaBuilder.on_message Scenario.dump_unmarked Scenario.ready).2
  = [("Foo.fid", "/containers/Foo")].
Proof.
  split.
  - intros (pre & post & Heq).
    pose proof (find_upper ".app/" pre post) as [Hlo _].
    rewrite <- Heq in Hlo. vm_compute in Hlo. by apply Hlo.
  - vm_compute. done.
Qed.

(** C6.  No message makes the router call [_ensure_ssh_connection]:
    the handlers it reaches are the definitions of lines 208 and 217,
    which open the session at once.  With an inactive transport the
    artifact of a [dump] message is therefore not fetched, where the
    definition of line 88 would have reconnected and fetched it. *)
Theorem C6_transfer_without_liveness_check :
  (∀ message st, ∃ evs,
     trace (IpaBuilder.on_message message st).2 = trace st ++ evs ∧
     EvEnsure ∉ evs) ∧
  trace (IpaBuilder.on_message Scenario.dump_main Scenario.ready).2
    = trace Scenario.ready ++ [EvOpen; EvGet "/tmp/Foo.fid" false] ∧
  ssh_client Scenario.dropped = Some Inactive ∧
  trace (IpaBuilder.on_message Scenario.dump_main Scenario.dropped).2
    = trace Scenario.dropped ++ [EvOpen] ∧
  file_dict (IpaBuilder.on_message Scenario.dump_main Scenario.dropped).2 = [] ∧
  trace (IpaBuilder._handle_dump_payload_88
           (PyVal.dict_get Scenario.dump_main "payload") Scenario.dropped).2
    = trace Scenario.dropped ++ [EvEnsure; EvConnect; EvOpen; EvGet "/tmp/Foo.fid" false] ∧
  file_dict (IpaBuilder._handle_dump_payload_88
               (PyVal.dict_get Scenario.dump_main "payload") Scenario.dropped).2
    = [("Foo.fid", "Foo")].
Proof.
  split.
  - intros message st. rewrite on_message_route.
    destruct (route_skips_ensure (Spec.classify message) st) as (evs & Htr & Hevs).
    exists evs. split; [done |].
    intros Hin. by eapply Forall_forall in Hevs.
  - vm_compute. done.
Qed.

(** ** The claim on the credential *)

(** C9 as stated fails: a credential with a password and a key is
    accepted. *)
Lemma C9_both_methods_accepted :
  ¬ ∀ host port username password key_filename,
      (∃ c, SSHConfig.new host port username password key_filename = Ok c) ↔
      Spec.exactly_one password key_filename = true.
Proof.
  intros H.
  destruct (H "127.0.0.1" 22 "root" (Some "alpine") (Some "id_rsa")) as [Hacc _].
  discriminate Hacc. by eexists.
Qed.

(** C9, amended.  Construction succeeds exactly when at least one
    authentication method is usable.  A credential with neither makes
    [SSHConfig] raise [ValueError], and [main] leaves with status 2
    before the builder exists: nothing is logged and no connection is
    attempted. *)
Theorem C9_at_least_one_method host port username password key_filename :
  ((∃ c, SSHConfig.new host port username password key_filename = Ok c) ↔
   Spec.at_least_one password key_filename = true) ∧
  (Spec.at_least_one password key_filename = false →
   SSHConfig.new host port username password key_filename
     = Raise (Exc ValueError "Either password or key_filename must be provided") ∧
   ∀ e w target output,
     let run := Main.main e w
                  (Main.Namespace
                     (Main.Args target host port username password key_filename output)) in
     run.1 = 2 ∧ trace run.2 = [] ∧ log run.2 = []).
Proof.
  unfold Spec.at_least_one, SSHConfig.new, SSHConfig.__post_init__, Main.main,
    Main.main_with.
  cbn [SSHConfig.password SSHConfig.key_filename Main.password Main.key_file].
  destruct (SSHConfig.truthy password), (SSHConfig.truthy key_filename); cbn.
  all: split; [split; intros H; try done | intros H; try done].
  all: try (by eexists); try (by destruct H).
Qed.

Lemma C9_witness :
  SSHConfig.new "127.0.0.1" 22 "root" None (Some "")
    = Raise (Exc ValueError "Either password or key_filename must be provided") ∧
  ∀ e w target output,
    let run := Main.main e w
                 (Main.Namespace
                    (Main.Args target "127.0.0.1" 22 "root" None (Some "") output)) in
    run.1 = 2 ∧ trace run.2 = [] ∧ log run.2 = [].
Proof.
  apply (C9_at_least_one_method "127.0.0.1" 22 "root" None (Some "")).
  reflexivity.
Defined.

(** ** The log and the trace are write-only *)

Section framed.
Import Spec.

Lemma framed_ret {A} (a : A) : framed (mret a).
Proof. done. Qed.

Lemma framed_raise {A} e : framed (raise e : M A).
Proof. done. Qed.

Lemma framed_lift {A} (r : result A) : framed (lift r).
Proof. done. Qed.

Lemma framed_gets {A} (f : state → A) :
  (∀ l t st, f (with_prefix l t st) = f st) → framed (gets f).
Proof. intros Hf l t st. unfold gets. by rewrite Hf. Qed.

Lemma framed_modify f :
  (∀ l t st, f (with_prefix l t st) = with_prefix l t (f st)) →
  framed (modify f).
Proof. intros Hf l t st. unfold modify. by rewrite Hf. Qed.

Lemma framed_logger lv text arg : framed (logger lv text arg).
Proof.
  intros l t []. unfold logger, modify, with_prefix. cbn.
  by rewrite app_assoc.
Qed.

Lemma framed_emit ev : framed (emit ev).
Proof.
  intros l t []. unfold emit, modify, with_prefix. cbn.
  by rewrite app_assoc.
Qed.

Lemma framed_print line : framed (print line).
Proof. by intros l t []. Qed.

Lemma framed_bind {A B} (m : M A) (f : A → M B) :
  framed m → (∀ a, framed (f a)) → framed (m ≫= f).
Proof.
  intros Hm Hf l t st. unfold mbind, M_bind. rewrite Hm.
  destruct (m st) as [[a|e] st1]; cbn; [apply Hf | done].
Qed.

Lemma framed_try_except {A} (m : M A) (h : exn → M A) :
  framed m → (∀ e, framed (h e)) → framed (try_except m h).
Proof.
  intros Hm Hh l t st. unfold try_except. rewrite Hm.
  destruct (m st) as [[a|[cls msg|code]] st1]; cbn; [done | apply Hh | done].
Qed.

Lemma framed_try_finally {A} (m : M A) (final : M unit) :
  framed m → framed final → framed (try_finally m final).
Proof.
  intros Hm Hf l t st. unfold try_finally. rewrite Hm.
  destruct (m st) as [r st1]; cbn. rewrite Hf.
  by destruct (final st1) as [[[]|e] st2].
Qed.

Lemma framed_for_each {A} (items : list A) (body : A → M unit) :
  (∀ x, framed (body x)) → framed (IpaBuilder.for_each items body).
Proof.
  intros Hbody. induction items as [|x items IH]; cbn [IpaBuilder.for_each].
  - apply framed_ret.
  - apply framed_bind; [apply Hbody | by intros _].
Qed.

(** Two states that differ in the log and the trace at most: a framed
    computation gives the same result from both and keeps them so. *)
Lemma framed_same_but_log {A} (m : M A) st st' :
  framed m → same_but_log st st' →
  (m st).1 = (m st').1 ∧ same_but_log (m st).2 (m st').2.
Proof.
  intros Hm Hsame.
  set (core := set_log [] (set_trace [] st)).
  assert (st = with_prefix (log st) (trace st) core) as Hst.
  { subst core. destruct st. unfold with_prefix. cbn. by rewrite !app_nil_r. }
  assert (st' = with_prefix (log st') (trace st') core) as Hst'.
  { subst core. destruct st, st'. unfold same_but_log, with_prefix in *. cbn in *.
    destruct Hsame as (-> & -> & -> & -> & -> & -> & -> & -> & ->).
    by rewrite !app_nil_r. }
  pose proof (Hm (log st) (trace st) core) as H1. rewrite <- Hst in H1.
  pose proof (Hm (log st') (trace st') core) as H2. rewrite <- Hst' in H2.
  rewrite H1, H2. cbn. split; [done |].
  unfold same_but_log, with_prefix. by destruct (m core).2.
Qed.

End framed.

(** Breaks a computation into its steps. *)
Ltac framed_steps :=
  repeat first
    [ apply framed_ret | apply framed_raise | apply framed_lift
    | apply framed_logger | apply framed_print | apply framed_emit
    | apply framed_gets; by intros ? ? []
    | apply framed_modify; by intros ? ? []
    | apply framed_for_each; intros ?
    | apply framed_bind; [| intros ?]
    | apply framed_try_except; [| intros ?]
    | apply framed_try_finally
    | case_match ].

Lemma on_fs_framed f : Spec.framed (IpaBuilder.on_fs f).
Proof. unfold IpaBuilder.on_fs. framed_steps. Qed.

Lemma on_message_framed message : Spec.framed (IpaBuilder.on_message message).
Proof.
  unfold IpaBuilder.on_message, IpaBuilder.dispatch.
  rewrite handle_dump_payload_resolved, handle_app_payload_resolved.
  unfold IpaBuilder._handle_dump_payload_208, IpaBuilder._handle_app_payload_217,
    IpaBuilder.fetch_and_record_dump, IpaBuilder.fetch_and_record_app,
    IpaBuilder.scp_get.
  framed_steps.
Qed.

Lemma handle_input_framed i : Spec.framed (IpaBuilder.handle_input i).
Proof.
  destruct i as [message|]; cbn [IpaBuilder.handle_input].
  - apply on_message_framed.
  - apply framed_modify. by intros l t [? ? ? [[| |]|] ? ? ? ? ? ? ?].
Qed.

Lemma pump_framed s l t st :
  IpaBuilder.pump s (Spec.with_prefix l t st)
  = Spec.with_prefix l t (IpaBuilder.pump s st).
Proof.
  revert st. induction s as [|[t0 i] s IH]; intros st; cbn [IpaBuilder.pump].
  - done.
  - assert (finished (Spec.with_prefix l t st) = finished st) as -> by by destruct st.
    destruct (finished st); [done |].
    destruct (IpaBuilder.wait_timeout <=? t0); [done |].
    rewrite handle_input_framed. cbn [snd]. apply IH.
Qed.

Lemma generate_ipa_try_framed display_name :
  Spec.framed (IpaBuilder.generate_ipa_try display_name).
Proof.
  unfold IpaBuilder.generate_ipa_try, IpaBuilder.move_artifact,
    IpaBuilder.write_archive.
  framed_steps; apply on_fs_framed.
Qed.

Lemma generate_ipa_finally_framed : Spec.framed IpaBuilder.generate_ipa_finally.
Proof.
  unfold IpaBuilder.generate_ipa_finally, IpaBuilder.purge_item,
    IpaBuilder.rmtree, IpaBuilder._force_remove.
  framed_steps; apply on_fs_framed.
Qed.

Lemma generate_ipa_framed display_name :
  Spec.framed (IpaBuilder.generate_ipa display_name).
Proof.
  unfold IpaBuilder.generate_ipa, IpaBuilder.generate_ipa_caught.
  apply framed_try_finally.
  - apply framed_try_except; [apply generate_ipa_try_framed | intros e].
    apply framed_logger.
  - apply generate_ipa_finally_framed.
Qed.

(** ** The wait and the end of the run *)

Lemma await_dump_timeout e name st2 st :
  IpaBuilder.prepare name st2 = (Ok tt, st) →
  finished (IpaBuilder.pump (Frida.stream e) st) = false →
  IpaBuilder.await_dump e name st2
  = (Raise (Exc TimeoutError "Dump operation timed out"),
     IpaBuilder.pump (Frida.stream e) st).
Proof.
  intros Hprep Hfin. unfold IpaBuilder.await_dump.
  erewrite bind_ok; [| exact Hprep].
  munfold. cbn. by rewrite Hfin.
Qed.

Lemma await_dump_done e name st2 st :
  IpaBuilder.prepare name st2 = (Ok tt, st) →
  finished (IpaBuilder.pump (Frida.stream e) st) = true →
  IpaBuilder.await_dump e name st2
  = logger INFO "Dump operation completed successfully" NoArg
      (IpaBuilder.pump (Frida.stream e) st).
Proof.
  intros Hprep Hfin. unfold IpaBuilder.await_dump.
  erewrite bind_ok; [| exact Hprep].
  munfold. cbn. by rewrite Hfin.
Qed.

(** The [finally] block of [dump_app] touches the log and the console
    only. *)
Lemma dump_app_finally_spec app_identifier l st :
  ∃ lines,
    IpaBuilder.dump_app_finally app_identifier l st
    = (Ok tt, set_stdout
                (stdout st ++
                 (if IpaBuilder.success l
                  then success_summary (default "None" (IpaBuilder.display_name l))
                  else failure_summary app_identifier))
                (set_log (log st ++ lines) st)).
Proof.
  unfold IpaBuilder.dump_app_finally. munfold.
  destruct st, l as [[|] [|] name]; cbn;
    rewrite <- ?app_assoc; cbn.
  all: first [ by exists [LogEntry INFO "Cleaned up session" NoArg]
             | exists []; by rewrite app_nil_r ].
Qed.

(** [main] once the run has reached the wait: the exit status is
    decided by what [dump_found] does from the state the application
    was found in. *)
Lemma main_after_locate e w a app ssh_config st1 st2 :
  SSHConfig.new (Main.host a) (Main.port a) (Main.user a) (Main.password a)
    (Main.key_file a) = Ok ssh_config →
  Main.startup ssh_config (Main.new_builder w (Main.output a)) = (Ok tt, st1) →
  IpaBuilder.locate e (Main.target a) st1 = (Ok (Some app), st2) →
  ∃ lines,
    Main.main e w (Main.Namespace a) =
    match IpaBuilder.dump_found e (Frida.name app) st2 with
    | (Ok _, st3) =>
        (0, set_stdout (stdout st3 ++ success_summary (Frida.name app))
              (set_log (log st3 ++ lines) st3))
    | (Raise _, st3) =>
        (1, set_stdout (stdout st3 ++ failure_summary (Main.target a))
              (set_log (log st3 ++ lines) st3))
    end.
Proof.
  intros Hnew Hstart Hloc.
  unfold Main.main, Main.main_with.
  destruct (negb _ && negb _) eqn:Hneg.
  { unfold SSHConfig.new, SSHConfig.__post_init__ in Hnew. cbn in Hnew.
    by rewrite Hneg in Hnew. }
  rewrite Hnew. unfold Main.main_try, try_except.
  erewrite bind_ok; [| exact Hstart].
  unfold mbind at 1, M_bind at 1.
  unfold IpaBuilder.dump_app, IpaBuilder.dump_app_try. rewrite Hloc.
  destruct (IpaBuilder.dump_found e (Frida.name app) st2) as [[[]|x] st3].
  - destruct (dump_app_finally_spec (Main.target a)
                (IpaBuilder.Locals true true (Some (Frida.name app))) st3)
      as [lines ->].
    exists lines. done.
  - destruct (dump_app_finally_spec (Main.target a)
                (IpaBuilder.Locals true false (Some (Frida.name app))) st3)
      as [lines ->].
    exists lines. done.
Qed.

(** C7.  When the completion event is not set within the wait of 7200
    seconds, [dump_app] raises [TimeoutError] in its [try] block,
    returns [False], the failure summary is printed, no archive is
    built and the process leaves with status 1. *)
Theorem C7_timeout_fails_the_run e w a app st :
  Main.reaches_wait e w a app st →
  finished (IpaBuilder.pump (Frida.stream e) st) = false →
  IpaBuilder.wait_timeout = 7200 ∧
  (∃ ssh_config st1,
          Main.startup ssh_config (Main.new_builder w (Main.output a)) = (Ok tt, st1) ∧
          (IpaBuilder.dump_app_try e (Main.target a) st1).1.1
            = Raise (Exc TimeoutError "Dump operation timed out") ∧
          (IpaBuilder.dump_app e (Main.target a) st1).1 = Ok false) ∧
  (Main.main e w (Main.Namespace a)).1 = 1 ∧
  fs (Main.main e w (Main.Namespace a)).2 = fs (IpaBuilder.pump (Frida.stream e) st) ∧
  stdout (Main.main e w (Main.Namespace a)).2
    = stdout (IpaBuilder.pump (Frida.stream e) st) ++ failure_summary (Main.target a).
Proof.
  intros (Hcred & ssh_config & st1 & st2 & Hnew & Hstart & Hloc & Hprep) Hfin.
  split; [done |].
  assert (IpaBuilder.dump_found e (Frida.name app) st2
          = (Raise (Exc TimeoutError "Dump operation timed out"),
             IpaBuilder.pump (Frida.stream e) st)) as Hfound.
  { unfold IpaBuilder.dump_found.
    erewrite bind_raise; [done |]. by apply await_dump_timeout. }
  split.
  - exists ssh_config, st1. split; [done |].
    unfold IpaBuilder.dump_app, IpaBuilder.dump_app_try.
    rewrite Hloc, Hfound. split; [done |].
    by destruct (dump_app_finally_spec (Main.target a)
                   (IpaBuilder.Locals true false (Some (Frida.name app)))
                   (IpaBuilder.pump (Frida.stream e) st)) as [lines ->].
  - destruct (main_after_locate e w a app ssh_config st1 st2 Hnew Hstart Hloc)
      as [lines ->].
    rewrite Hfound. by destruct (IpaBuilder.pump (Frida.stream e) st).
Qed.

Lemma run_reaches_wait s :
  Main.reaches_wait (Scenario.phone s) Scenario.world Scenario.args
    Scenario.foo (Scenario.waiting s).
Proof.
  split; [reflexivity |].
  exists Scenario.config,
    (Main.startup Scenario.config (Main.new_builder Scenario.world None)).2,
    (IpaBuilder.locate (Scenario.phone s) "com.example.foo"
       (Main.startup Scenario.config (Main.new_builder Scenario.world None)).2).2.
  split; [reflexivity |].
  split; [vm_compute; reflexivity |].
  split; vm_compute; reflexivity.
Defined.

Lemma C7_witness :
  (Main.main (Scenario.phone Scenario.late_stream) Scenario.world
     (Main.Namespace Scenario.args)).1 = 1.
Proof.
  refine (proj1 (proj2 (proj2
    (C7_timeout_fails_the_run (Scenario.phone Scenario.late_stream)
       Scenario.world Scenario.args Scenario.foo
       (Scenario.waiting Scenario.late_stream) _ _)))).
  - apply run_reaches_wait.
  - vm_compute. reflexivity.
Defined.

(** ** Paths *)

Section paths.
Implicit Types base p q r : path.

Lemma relative_to_Some base p r :
  PyPath.relative_to base p = Some r ↔ p = base ++ r.
Proof.
  revert p. induction base as [|b base IH]; intros p; cbn.
  - split; [by intros [= ->] | by intros ->].
  - destruct p as [|c p]; [done |].
    destruct (String.eqb_spec b c) as [-> | Hne].
    + rewrite IH. split; [by intros -> | by intros [= ->]].
    + split; [done | by intros [= ? ?]].
Qed.

Lemma relative_to_app base r : PyPath.relative_to base (base ++ r) = Some r.
Proof. by apply relative_to_Some. Qed.

Lemma is_under_prefix base p : PyPath.is_under base p = true ↔ base `prefix_of` p.
Proof.
  unfold PyPath.is_under. split.
  - destruct (PyPath.relative_to base p) as [r|] eqn:E; [| done].
    intros _. exists r. by apply relative_to_Some.
  - intros [r ->]. by rewrite relative_to_app.
Qed.

Lemma is_under_false base p : PyPath.is_under base p = false ↔ ¬ base `prefix_of` p.
Proof. rewrite <- is_under_prefix. by destruct (PyPath.is_under base p). Qed.

Lemma is_child_spec p k : FS.is_child p k = true ↔ ∃ c, k = p ++ [c].
Proof.
  unfold FS.is_child. split.
  - destruct (PyPath.relative_to p k) as [[|c [|]]|] eqn:E; try done.
    intros _. exists c. by apply relative_to_Some.
  - intros [c ->]. by rewrite relative_to_app.
Qed.

Lemma is_below_spec p k : FS.is_below p k = true ↔ ∃ c r, k = p ++ c :: r.
Proof.
  unfold FS.is_below. split.
  - destruct (PyPath.relative_to p k) as [[|c r]|] eqn:E; try done.
    intros _. exists c, r. by apply relative_to_Some.
  - intros (c & r & ->). by rewrite relative_to_app.
Qed.

Lemma parent_snoc p c : PyPath.parent (p ++ [c]) = p.
Proof. unfold PyPath.parent. apply removelast_last. Qed.

Lemma basename_snoc p c : PyPath.basename (p ++ [c]) = c.
Proof. unfold PyPath.basename. apply last_last. Qed.

(** In a well-formed disk every ancestor of an entry is a directory. *)
Lemma wf_ancestor d p r :
  FS.wf d → r ≠ [] → is_Some (d !! (p ++ r)) → d !! p = Some Dir.
Proof.
  intros [_ Hwf]. revert p. induction r as [|c r IH] using rev_ind; [done |].
  intros p _ Hsome. rewrite app_assoc in Hsome.
  apply Hwf in Hsome. destruct r as [|c' r]; [by rewrite app_nil_r in Hsome |].
  apply IH; [done |]. by rewrite Hsome.
Qed.

(** Nothing lies below a regular file. *)
Lemma wf_below_file d p b r :
  FS.wf d → d !! p = Some (File b) → r ≠ [] → d !! (p ++ r) = None.
Proof.
  intros Hwf Hfile Hr.
  destruct (d !! (p ++ r)) as [n|] eqn:E; [| done].
  assert (d !! p = Some Dir) by (eapply wf_ancestor; eauto).
  congruence.
Qed.

Lemma wf_root d : FS.wf d → d !! [] = Some Dir.
Proof. by intros [? _]. Qed.

End paths.

(** ** The purge of the staging directory *)

Section purge.
Implicit Types (d : disk) (p q item staging : path).

Lemma remove_tree_lookup p d q :
  FS.remove_tree p d !! q = if PyPath.is_under p q then None else d !! q.
Proof.
  unfold FS.remove_tree. rewrite map_lookup_filter.
  destruct (d !! q) as [n|]; cbn; destruct (PyPath.is_under p q);
    by try case_guard.
Qed.

Lemma set_fs_same st : set_fs (fs st) st = st.
Proof. by destruct st. Qed.

(** One pass of the loop never raises. *)
Lemma purge_item_spec item st :
  IpaBuilder.purge_item item st = (Ok tt, set_fs (purged_item item (fs st)) st).
Proof.
  unfold IpaBuilder.purge_item, purged_item, IpaBuilder.rmtree. munfold. cbn.
  destruct (FS.is_dir (fs st) item && _); [by rewrite set_fs_same |].
  unfold FS.is_file, FS.is_dir, FS.unlink.
  destruct (fs st !! item) as [[b|]|] eqn:E; cbn; rewrite ?E; cbn;
    by rewrite ?set_fs_same.
Qed.

Lemma purge_loop_spec items st :
  IpaBuilder.for_each items IpaBuilder.purge_item st
  = (Ok tt, set_fs (foldl (λ d item, purged_item item d) (fs st) items) st).
Proof.
  revert st. induction items as [|item items IH]; intros st;
    cbn [IpaBuilder.for_each foldl].
  - by rewrite set_fs_same.
  - erewrite bind_ok; [| apply purge_item_spec].
    rewrite IH. by destruct st.
Qed.

(** The [finally] block of [generate_ipa] never raises once the
    staging directory can be listed. *)
Lemma generate_ipa_finally_spec st :
  FS.is_dir (fs st) (payload_dir st) = true →
  IpaBuilder.generate_ipa_finally st
  = (Ok tt, set_fs (foldl (λ d item, purged_item item d) (fs st)
                      (List.filter (FS.is_child (payload_dir st))
                         (map_to_list (fs st)).*1)) st).
Proof.
  intros Hdir. unfold IpaBuilder.generate_ipa_finally, FS.iterdir.
  unfold FS.is_dir in Hdir. munfold. cbn.
  destruct (fs st !! payload_dir st) as [[b|]|]; try done.
  apply purge_loop_spec.
Qed.

(** What one pass leaves in a well-formed disk. *)
Lemma purged_item_lookup d item q :
  FS.wf d →
  purged_item item d !! q
  = if PyPath.is_under item q
       && negb (FS.is_dir d item && PyStr.endswith ".app" (PyPath.basename item))
    then None else d !! q.
Proof.
  intros Hwf. unfold purged_item.
  destruct (FS.is_dir d item && _) eqn:Hkeep; cbn.
  { by rewrite andb_false_r. }
  rewrite andb_true_r. unfold FS.is_file, FS.is_dir.
  destruct (PyPath.is_under item q) eqn:Hunder.
  - apply is_under_prefix in Hunder as [r ->].
    destruct (d !! item) as [[b|]|] eqn:E.
    + destruct r as [|c r].
      * rewrite app_nil_r. apply lookup_delete_eq.
      * rewrite lookup_delete_ne.
        -- by eapply wf_below_file.
        -- intros Heq. apply (f_equal (@List.length string)) in Heq.
           rewrite length_app in Heq. cbn in Heq. lia.
    + rewrite remove_tree_lookup, (proj2 (is_under_prefix _ _)); [done |].
      by exists r.
    + destruct r as [|c r]; [by rewrite app_nil_r |].
      destruct (d !! (item ++ c :: r)) eqn:E'; [| done].
      assert (d !! item = Some Dir); [| congruence].
      eapply wf_ancestor; [done | | by rewrite E']. done.
  - destruct (d !! item) as [[b|]|] eqn:E; [| | done].
    + apply lookup_delete_ne. intros ->.
      apply is_under_false in Hunder. by apply Hunder.
    + by rewrite remove_tree_lookup, Hunder.
Qed.

Lemma purged_item_wf d staging c :
  FS.wf d → FS.wf (purged_item (staging ++ [c]) d).
Proof.
  intros Hwf. split.
  - rewrite purged_item_lookup by done.
    rewrite (proj2 (is_under_false (staging ++ [c]) [])).
    + by apply wf_root.
    + intros [r Hr]. by destruct staging.
  - intros p c' Hsome. rewrite purged_item_lookup in Hsome by done.
    rewrite purged_item_lookup by done.
    destruct (PyPath.is_under (staging ++ [c]) (p ++ [c']) && _) eqn:E1.
    { by destruct Hsome. }
    destruct (PyPath.is_under (staging ++ [c]) p && _) eqn:E2.
    + apply andb_true_iff in E2 as [Hunder Hk]. rewrite Hk, andb_true_r in E1.
      apply is_under_prefix in Hunder. apply is_under_false in E1.
      exfalso. apply E1. by apply prefix_app_r.
    + destruct Hwf as [_ Hwf]. by apply (Hwf p c').
Qed.

End purge.

Section purge_all.
Implicit Types (d : disk) (p q item staging : path).

Lemma existsb_ext_elem {A} (f g : A → bool) (l : list A) :
  (∀ x, x ∈ l → f x = g x) → existsb f l = existsb g l.
Proof.
  induction l as [|x l IH]; intros Hfg; cbn; [done |].
  rewrite Hfg by left. rewrite IH; [done |].
  intros y Hy. apply Hfg. by right.
Qed.

Lemma existsb_true {A} (f : A → bool) (l : list A) :
  existsb f l = true ↔ ∃ x, x ∈ l ∧ f x = true.
Proof.
  rewrite existsb_exists. by setoid_rewrite list_elem_of_In.
Qed.

Lemma elem_of_List_filter {A} (f : A → bool) (l : list A) x :
  x ∈ List.filter f l ↔ x ∈ l ∧ f x = true.
Proof. by rewrite !list_elem_of_In, filter_In. Qed.

Lemma NoDup_List_filter {A} (f : A → bool) (l : list A) :
  NoDup l → NoDup (List.filter f l).
Proof.
  induction 1 as [|x l Hx Hl IH]; cbn; [constructor |].
  destruct (f x); [| done]. constructor; [| done].
  rewrite elem_of_List_filter. tauto.
Qed.

Lemma child_under_child staging c q :
  PyPath.is_under (staging ++ [c]) q = true ↔ ∃ r, q = staging ++ c :: r.
Proof.
  rewrite is_under_prefix. split; intros [r ->]; exists r;
    by rewrite <- app_assoc.
Qed.

Lemma sibling_under staging c c' :
  PyPath.is_under (staging ++ [c]) (staging ++ [c']) = true → c = c'.
Proof.
  intros [r Hr]%child_under_child.
  apply app_inv_head in Hr. by injection Hr.
Qed.

(** The loop over distinct entries of the staging directory. *)
Lemma purge_fold_lookup staging items d q :
  FS.wf d → Forall (λ i, ∃ c, i = staging ++ [c]) items → NoDup items →
  foldl (λ d item, purged_item item d) d items !! q
  = if existsb (λ i, PyPath.is_under i q
                     && negb (FS.is_dir d i
                              && PyStr.endswith ".app" (PyPath.basename i))) items
    then None else d !! q.
Proof.
  intros Hwf Hch Hnd. revert d Hwf.
  induction items as [|i items IH]; intros d Hwf; cbn [foldl existsb]; [done |].
  inversion Hch as [|? ? [c ->] Hch']; subst.
  inversion Hnd as [|? ? Hni Hnd']; subst.
  rewrite IH; [| done | done | by apply purged_item_wf].
  rewrite purged_item_lookup by done.
  rewrite (existsb_ext_elem _
    (λ i, PyPath.is_under i q
          && negb (FS.is_dir d i && PyStr.endswith ".app" (PyPath.basename i)))).
  - destruct (PyPath.is_under (staging ++ [c]) q && _); cbn;
      by destruct (existsb _ items).
  - intros j Hj.
    assert (FS.is_dir (purged_item (staging ++ [c]) d) j = FS.is_dir d j) as ->;
      [| done].
    unfold FS.is_dir. rewrite purged_item_lookup by done.
    destruct (PyPath.is_under (staging ++ [c]) j) eqn:Hunder; cbn; [| done].
    destruct (proj1 (Forall_forall _ _) Hch' j Hj) as [c' ->].
    apply sibling_under in Hunder as ->. done.
Qed.

(** What the whole purge leaves in a well-formed disk. *)
Lemma purge_lookup staging d q :
  FS.wf d →
  foldl (λ d item, purged_item item d) d
    (List.filter (FS.is_child staging) (map_to_list d).*1) !! q
  = purged staging d q.
Proof.
  intros Hwf. rewrite (purge_fold_lookup staging); [| done | |].
  2: { apply Forall_forall. intros i [_ Hi]%elem_of_List_filter.
       by apply is_child_spec. }
  2: { apply NoDup_List_filter, NoDup_fst_map_to_list. }
  unfold purged.
  destruct (PyPath.relative_to staging q) as [[|c r]|] eqn:Hrel.
  - destruct (existsb _ _) eqn:Hex; [| done].
    apply existsb_true in Hex as (i & [_ Hi]%elem_of_List_filter & Hu).
    apply is_child_spec in Hi as [c ->].
    apply andb_true_iff in Hu as [[r ->]%child_under_child _].
    by rewrite relative_to_app in Hrel.
  - apply relative_to_Some in Hrel as ->. unfold retained.
    destruct (FS.is_dir d (staging ++ [c]) && PyStr.endswith ".app" c) eqn:Hkeep.
    + destruct (existsb _ _) eqn:Hex; [| done].
      apply existsb_true in Hex as (i & [_ Hi]%elem_of_List_filter & Hu).
      apply is_child_spec in Hi as [c' ->].
      apply andb_true_iff in Hu as [[r' Hr']%child_under_child Hnk].
      apply app_inv_head in Hr'. injection Hr' as <- _.
      by rewrite basename_snoc, Hkeep in Hnk.
    + destruct (d !! (staging ++ [c])) as [n|] eqn:E.
      * assert (existsb (λ i, PyPath.is_under i (staging ++ c :: r)
                  && negb (FS.is_dir d i
                           && PyStr.endswith ".app" (PyPath.basename i)))
                  (List.filter (FS.is_child staging) (map_to_list d).*1) = true)
          as ->; [| done].
        apply existsb_true. exists (staging ++ [c]). split.
        -- apply elem_of_List_filter. split.
           ++ apply list_elem_of_fmap. exists (staging ++ [c], n).
              split; [done |]. by apply elem_of_map_to_list.
           ++ apply is_child_spec. by exists c.
        -- rewrite basename_snoc, Hkeep, andb_true_r.
           apply child_under_child. by exists r.
      * assert (d !! (staging ++ c :: r) = None) as ->.
        { destruct r as [|c' r]; [done |].
          destruct (d !! (staging ++ c :: c' :: r)) eqn:E'; [| done].
          assert (d !! (staging ++ [c]) = Some Dir); [| congruence].
          apply (wf_ancestor d (staging ++ [c]) (c' :: r)); [done | done |].
          rewrite <- app_assoc. cbn. by rewrite E'. }
        by destruct (existsb _ _).
  - destruct (existsb _ _) eqn:Hex; [| done].
    apply existsb_true in Hex as (i & [_ Hi]%elem_of_List_filter & Hu).
    apply is_child_spec in Hi as [c ->].
    apply andb_true_iff in Hu as [[r ->]%child_under_child _].
    by rewrite relative_to_app in Hrel.
Qed.

End purge_all.

(** The test [wfb] is sound. *)
Lemma wfb_wf d : FS.wfb d = true → FS.wf d.
Proof.
  unfold FS.wfb, FS.is_dir. intros [Hroot Hall]%andb_true_iff. split.
  - by destruct (d !! []) as [[|]|].
  - intros p c [n Hn].
    rewrite forallb_forall in Hall. specialize (Hall (p ++ [c])).
    rewrite parent_snoc in Hall.
    destruct (p ++ [c]) eqn:E; [by destruct p |]. rewrite <- E in *.
    assert (In (p ++ [c]) (map_to_list d).*1) as Hin.
    { apply list_elem_of_In, list_elem_of_fmap. exists (p ++ [c], n).
      split; [done |]. by apply elem_of_map_to_list. }
    specialize (Hall Hin). by destruct (d !! p) as [[|]|].
Qed.

(** ** Making directories *)

Section mkdir.
Implicit Types (d : disk) (p q : path).

(** A new entry in an existing directory keeps the disk well formed
    when it is a directory or has nothing below it. *)
Lemma wf_insert d q c n :
  FS.wf d → d !! q = Some Dir →
  (n = Dir ∨ ∀ c', d !! ((q ++ [c]) ++ [c']) = None) →
  FS.wf (<[q ++ [c] := n]> d).
Proof.
  intros [Hroot Hwf] Hq Hn. split.
  - rewrite lookup_insert_ne; [done | by destruct q].
  - intros p c' Hsome.
    destruct (decide (q ++ [c] = p ++ [c'])) as [Heq | Hne].
    + apply app_inj_tail in Heq as [<- <-].
      rewrite lookup_insert_ne; [done |].
      intros Heq. apply (f_equal (@List.length string)) in Heq.
      rewrite length_app in Heq. cbn in Heq. lia.
    + rewrite lookup_insert_ne in Hsome by done.
      destruct (decide (q ++ [c] = p)) as [<- | Hne'].
      * rewrite lookup_insert_eq. destruct Hn as [-> | Hn]; [done |].
        rewrite Hn in Hsome. by destruct Hsome.
      * rewrite lookup_insert_ne by done. by apply (Hwf p c').
Qed.

Lemma prefix_snoc_inv q p c :
  q `prefix_of` p ++ [c] → q = p ++ [c] ∨ q `prefix_of` p.
Proof.
  intros [r Hr]. destruct r as [|c' r _] using rev_ind.
  - left. by rewrite app_nil_r in Hr.
  - right. rewrite app_assoc in Hr. apply app_inj_tail in Hr as [-> _].
    by exists r.
Qed.

(** Every prefix of an entry of a well-formed disk is an entry. *)
Lemma wf_prefix d p q :
  FS.wf d → is_Some (d !! p) → q `prefix_of` p → is_Some (d !! q).
Proof.
  intros Hwf Hp [r ->]. destruct r as [|c r].
  - by rewrite app_nil_r in Hp.
  - rewrite (wf_ancestor d q (c :: r)); done.
Qed.

(** What [mkdir(parents=True)] leaves when it succeeds: the missing
    prefixes of the path are directories now, and nothing else has
    changed. *)
Lemma mkdir_rev_spec exist_ok rp d d' :
  FS.wf d → FS.mkdir_rev exist_ok rp d = Ok d' →
  FS.wf d' ∧ d' !! rev rp = Some Dir ∧
  ∀ q, d' !! q = match d !! q with
                 | Some n => Some n
                 | None => if bool_decide (q `prefix_of` rev rp)
                           then Some Dir else None
                 end.
Proof.
  revert exist_ok d d'. induction rp as [|c rp IH]; intros exist_ok d d' Hwf.
  - cbn. unfold FS.os_mkdir, FS.is_dir. rewrite (wf_root d Hwf). cbn.
    destruct exist_ok; intros [= <-]. split; [done |].
    split; [by apply wf_root |]. intros q.
    destruct (d !! q) eqn:E; [done |]. case_bool_decide as Hq; [| done].
    apply prefix_nil_inv in Hq as ->. by rewrite (wf_root d Hwf) in E.
  - cbn [FS.mkdir_rev rev]. unfold FS.os_mkdir at 1.
    rewrite parent_snoc.
    destruct (d !! (rev rp ++ [c])) as [n|] eqn:Ep.
    + unfold FS.is_dir. rewrite Ep.
      destruct exist_ok, n; cbn; try done. intros [= <-].
      split; [done |]. split; [done |]. intros q.
      destruct (d !! q) eqn:E; [done |]. case_bool_decide as Hq; [| done].
      destruct (wf_prefix d _ q Hwf (mk_is_Some _ _ Ep) Hq). congruence.
    + destruct (d !! rev rp) as [[b|]|] eqn:Epar.
      * unfold FS.is_dir. rewrite Ep. by rewrite andb_false_r.
      * intros [= <-]. split; [by apply wf_insert; auto |].
        split; [apply lookup_insert_eq |]. intros q.
        destruct (decide (q = rev rp ++ [c])) as [-> | Hne].
        -- rewrite lookup_insert_eq, Ep. by rewrite bool_decide_eq_true_2.
        -- rewrite lookup_insert_ne by done.
           destruct (d !! q) eqn:E; [done |]. case_bool_decide as Hq; [| done].
           apply prefix_snoc_inv in Hq as [-> | Hq]; [done |].
           destruct (wf_prefix d _ q Hwf (mk_is_Some _ _ Epar) Hq). congruence.
      * destruct (FS.mkdir_rev true rp d) as [d1|e] eqn:Hrec; [| done].
        destruct (IH _ _ _ Hwf Hrec) as (Hwf1 & Hpar1 & Hlook1).
        assert (d1 !! (rev rp ++ [c]) = None) as Ep1.
        { rewrite Hlook1, Ep. rewrite bool_decide_eq_false_2; [done |].
          intros [r Hr]. apply (f_equal (@List.length string)) in Hr.
          rewrite !length_app in Hr. cbn in Hr. lia. }
        unfold FS.os_mkdir. rewrite parent_snoc, Ep1, Hpar1.
        intros [= <-]. split; [by apply wf_insert; auto |].
        split; [apply lookup_insert_eq |]. intros q.
        destruct (decide (q = rev rp ++ [c])) as [-> | Hne].
        -- rewrite lookup_insert_eq, Ep. by rewrite bool_decide_eq_true_2.
        -- rewrite lookup_insert_ne by done. rewrite Hlook1.
           destruct (d !! q) eqn:E; [done |].
           destruct (decide (q `prefix_of` rev rp)) as [Hq | Hq].
           ++ rewrite !bool_decide_eq_true_2; [done | | done].
              by apply prefix_app_r.
           ++ rewrite !bool_decide_eq_false_2; [done | | done].
              by intros [-> | ?]%prefix_snoc_inv.
Qed.

Lemma mkdir_parents_spec exist_ok p d d' :
  FS.wf d → FS.mkdir_parents exist_ok p d = Ok d' →
  FS.wf d' ∧ d' !! p = Some Dir ∧
  ∀ q, d' !! q = match d !! q with
                 | Some n => Some n
                 | None => if bool_decide (q `prefix_of` p) then Some Dir else None
                 end.
Proof.
  unfold FS.mkdir_parents. intros Hwf Hmk.
  apply mkdir_rev_spec in Hmk; [| done]. by rewrite rev_involutive in Hmk.
Qed.

End mkdir.

Section mkdir_total.
Implicit Types (d : disk) (p q : path).

(** [mkdir(parents=True)] succeeds when no prefix of the path is a
    regular file and, without [exist_ok], the path is free. *)
Lemma mkdir_rev_ok exist_ok rp d :
  FS.wf d →
  (∀ q b, q `prefix_of` rev rp → d !! q ≠ Some (File b)) →
  exist_ok = true ∨ d !! rev rp = None →
  ∃ d', FS.mkdir_rev exist_ok rp d = Ok d'.
Proof.
  revert exist_ok d. induction rp as [|c rp IH]; intros exist_ok d Hwf Hnf Hok.
  - cbn in *. unfold FS.os_mkdir, FS.is_dir. rewrite (wf_root d Hwf) in *. cbn.
    destruct Hok as [-> | ?]; [by eexists | done].
  - cbn [FS.mkdir_rev rev] in *. unfold FS.os_mkdir at 1. rewrite parent_snoc.
    destruct (d !! (rev rp ++ [c])) as [[b|]|] eqn:Ep.
    + by destruct (Hnf (rev rp ++ [c]) b).
    + unfold FS.is_dir. rewrite Ep. destruct Hok as [-> | ?]; [by eexists | done].
    + destruct (d !! rev rp) as [[b|]|] eqn:Epar.
      * destruct (Hnf (rev rp) b); [by apply prefix_app_r | done].
      * by eexists.
      * destruct (IH true d Hwf) as [d1 Hrec]; [| by left |].
        { intros q b Hq. apply Hnf. by apply prefix_app_r. }
        rewrite Hrec.
        destruct (mkdir_rev_spec _ _ _ _ Hwf Hrec) as (Hwf1 & Hpar1 & Hlook1).
        assert (d1 !! (rev rp ++ [c]) = None) as Ep1.
        { rewrite Hlook1, Ep. rewrite bool_decide_eq_false_2; [done |].
          intros [r Hr]. apply (f_equal (@List.length string)) in Hr.
          rewrite !length_app in Hr. cbn in Hr. lia. }
        unfold FS.os_mkdir. rewrite parent_snoc, Ep1, Hpar1. by eexists.
Qed.

Lemma mkdir_parents_ok exist_ok p d :
  FS.wf d →
  (∀ q b, q `prefix_of` p → d !! q ≠ Some (File b)) →
  exist_ok = true ∨ d !! p = None →
  ∃ d', FS.mkdir_parents exist_ok p d = Ok d'.
Proof.
  intros Hwf Hnf Hok. unfold FS.mkdir_parents.
  apply mkdir_rev_ok; by rewrite ?rev_involutive.
Qed.

Lemma remove_tree_wf p d : FS.wf d → p ≠ [] → FS.wf (FS.remove_tree p d).
Proof.
  intros Hwf Hp. split.
  - rewrite remove_tree_lookup.
    rewrite (proj2 (is_under_false p [])); [by apply wf_root |].
    by intros ->%prefix_nil_inv.
  - intros q c. rewrite !remove_tree_lookup.
    destruct (PyPath.is_under p (q ++ [c])) eqn:E1; [by intros [] |].
    intros Hsome.
    destruct (PyPath.is_under p q) eqn:E2.
    + apply is_under_prefix in E2. apply is_under_false in E1.
      destruct E1. by apply prefix_app_r.
    + destruct Hwf as [_ Hwf]. by apply (Hwf q c).
Qed.

Lemma mkdir_child d q c :
  d !! q = Some Dir → d !! (q ++ [c]) = None →
  FS.mkdir_parents false (q ++ [c]) d = Ok (<[q ++ [c] := Dir]> d).
Proof.
  intros Hq Hc. unfold FS.mkdir_parents. rewrite rev_unit.
  cbn [FS.mkdir_rev rev]. rewrite rev_involutive.
  unfold FS.os_mkdir. by rewrite parent_snoc, Hc, Hq.
Qed.

Lemma payload_dir_eq st : payload_dir st = output_dir st ++ ["Payload"].
Proof. reflexivity. Qed.

(** [create_directories] on a well-formed disk on which no prefix of
    the staging path is a regular file: it succeeds and leaves an
    empty staging directory. *)
Lemma create_directories_spec st :
  FS.wf (fs st) →
  (∀ q b, q `prefix_of` payload_dir st → fs st !! q ≠ Some (File b)) →
  ∃ d', IpaBuilder.create_directories st = (Ok tt, set_fs d' st) ∧
        FS.wf d' ∧ d' !! payload_dir st = Some Dir ∧
        ∀ p, FS.is_below (payload_dir st) p = true → d' !! p = None.
Proof.
  intros Hwf Hnf. rewrite payload_dir_eq in *.
  set (out := output_dir st) in *. set (staging := out ++ ["Payload"]) in *.
  destruct (mkdir_parents_ok true out (fs st)) as [d1 Hmk1]; [done | | by left |].
  { intros q b Hq. apply Hnf. by apply prefix_app_r. }
  destruct (mkdir_parents_spec _ _ _ _ Hwf Hmk1) as (Hwf1 & Hout1 & Hlook1).
  assert (staging ≠ []) as Hne by (subst staging; by destruct out).
  assert (¬ staging `prefix_of` out) as Hnp.
  { intros [r Hr]. apply (f_equal (@List.length string)) in Hr.
    subst staging. rewrite !length_app in Hr. cbn in Hr. lia. }
  assert (d1 !! staging = fs st !! staging) as Hst1.
  { rewrite Hlook1. destruct (fs st !! staging); [done |].
    by rewrite bool_decide_eq_false_2. }
  set (d2 := if FS.exists_ d1 staging then FS.remove_tree staging d1 else d1).
  assert (FS.wf d2 ∧ d2 !! out = Some Dir ∧
          ∀ r, d2 !! (staging ++ r) = None) as (Hwf2 & Hout2 & Hgone).
  { subst d2. unfold FS.exists_.
    destruct (d1 !! staging) as [n|] eqn:E.
    - split; [by apply remove_tree_wf |]. split.
      + rewrite remove_tree_lookup, (proj2 (is_under_false staging out)); done.
      + intros r. rewrite remove_tree_lookup.
        rewrite (proj2 (is_under_prefix staging _)); [done | by exists r].
    - split; [done |]. split; [done |]. intros [|c r].
      + by rewrite app_nil_r.
      + destruct (d1 !! (staging ++ c :: r)) eqn:E'; [| done].
        assert (d1 !! staging = Some Dir); [| congruence].
        apply (wf_ancestor d1 staging (c :: r)); [done | done |]. by rewrite E'. }
  exists (<[staging := Dir]> d2). split; [| split; [| split]].
  - specialize (Hgone []) as Hs. rewrite app_nil_r in Hs.
    unfold IpaBuilder.create_directories, IpaBuilder.rmtree. munfold. cbn.
    rewrite payload_dir_eq. fold out staging. rewrite Hmk1. cbn.
    unfold FS.exists_ in *.
    destruct (d1 !! staging) as [[b|]|] eqn:E.
    + rewrite Hst1 in E. by destruct (Hnf staging b).
    + cbn. rewrite E. cbn. subst d2 staging.
      rewrite mkdir_child by done. by destruct st.
    + cbn. subst d2 staging.
      rewrite mkdir_child by done. by destruct st.
  - subst staging. apply wf_insert; auto.
  - apply lookup_insert_eq.
  - intros p (c & r & ->)%is_below_spec.
    rewrite lookup_insert_ne; [apply Hgone |].
    intros Heq. apply (f_equal (@List.length string)) in Heq.
    rewrite length_app in Heq. cbn in Heq. lia.
Qed.

End mkdir_total.

(** ** Components of the state a computation leaves alone *)

Section keeps.
Context {B : Type} (proj : state → B).

Lemma keeps_ret {A} (a : A) : keeps proj (mret a).
Proof. done. Qed.

Lemma keeps_raise {A} e : keeps proj (raise e : M A).
Proof. done. Qed.

Lemma keeps_lift {A} (r : result A) : keeps proj (lift r).
Proof. done. Qed.

Lemma keeps_gets {A} (f : state → A) : keeps proj (gets f).
Proof. done. Qed.

Lemma keeps_modify f : (∀ st, proj (f st) = proj st) → keeps proj (modify f).
Proof. intros Hf st. apply Hf. Qed.

Lemma keeps_bind {A C} (m : M A) (f : A → M C) :
  keeps proj m → (∀ a, keeps proj (f a)) → keeps proj (m ≫= f).
Proof.
  intros Hm Hf st. unfold mbind, M_bind. specialize (Hm st).
  destruct (m st) as [[a|e] st1]; cbn in *; [| done].
  by rewrite Hf.
Qed.

Lemma keeps_try_except {A} (m : M A) (h : exn → M A) :
  keeps proj m → (∀ e, keeps proj (h e)) → keeps proj (try_except m h).
Proof.
  intros Hm Hh st. unfold try_except. specialize (Hm st).
  destruct (m st) as [[a|[cls msg|code]] st1]; cbn in *; try done.
  by rewrite Hh.
Qed.

Lemma keeps_try_finally {A} (m : M A) (final : M unit) :
  keeps proj m → keeps proj final → keeps proj (try_finally m final).
Proof.
  intros Hm Hf st. unfold try_finally. specialize (Hm st).
  destruct (m st) as [r st1]; cbn in *. specialize (Hf st1).
  destruct (final st1) as [[[]|e] st2]; cbn in *; congruence.
Qed.

Lemma keeps_for_each {A} (items : list A) (body : A → M unit) :
  (∀ x, keeps proj (body x)) → keeps proj (IpaBuilder.for_each items body).
Proof.
  intros Hbody. induction items as [|x items IH]; cbn [IpaBuilder.for_each].
  - apply keeps_ret.
  - apply keeps_bind; [apply Hbody | by intros _].
Qed.

End keeps.

(** Breaks a computation into its steps. *)
Ltac keeps_steps :=
  repeat first
    [ apply keeps_ret | apply keeps_raise | apply keeps_lift | apply keeps_gets
    | apply keeps_modify; by intros []
    | apply keeps_for_each; intros ?
    | apply keeps_bind; [| intros ?]
    | apply keeps_try_except; [| intros ?]
    | apply keeps_try_finally
    | case_match ].

Lemma generate_ipa_try_keeps_output_dir display_name :
  keeps output_dir (IpaBuilder.generate_ipa_try display_name).
Proof.
  unfold IpaBuilder.generate_ipa_try, IpaBuilder.move_artifact,
    IpaBuilder.write_archive, IpaBuilder.on_fs, logger.
  keeps_steps.
Qed.

Lemma generate_ipa_keeps_finished display_name :
  keeps finished (IpaBuilder.generate_ipa display_name).
Proof.
  unfold IpaBuilder.generate_ipa, IpaBuilder.generate_ipa_caught,
    IpaBuilder.generate_ipa_try,
    IpaBuilder.generate_ipa_finally, IpaBuilder.purge_item,
    IpaBuilder.move_artifact, IpaBuilder.write_archive, IpaBuilder.on_fs, logger.
  keeps_steps.
Qed.

Lemma generate_ipa_caught_keeps_output_dir display_name :
  keeps output_dir (IpaBuilder.generate_ipa_caught display_name).
Proof.
  apply keeps_try_except; [apply generate_ipa_try_keeps_output_dir |].
  intros e. unfold logger. keeps_steps.
Qed.

Lemma purge_fold_wf staging items d :
  FS.wf d → Forall (λ i, ∃ c, i = staging ++ [c]) items →
  FS.wf (foldl (λ d item, purged_item item d) d items).
Proof.
  intros Hwf Hch. revert d Hwf.
  induction Hch as [|i items [c ->] _ IH]; intros d Hwf; cbn [foldl]; [done |].
  apply IH. by apply purged_item_wf.
Qed.

(** [generate_ipa] is its guarded [try] block followed by the purge. *)
Lemma generate_ipa_unfold display_name st :
  let tried := IpaBuilder.generate_ipa_caught display_name st in
  FS.is_dir (fs tried.2) (payload_dir st) = true →
  IpaBuilder.generate_ipa display_name st
  = (tried.1,
     set_fs (foldl (λ d item, purged_item item d) (fs tried.2)
               (List.filter (FS.is_child (payload_dir st))
                  (map_to_list (fs tried.2)).*1)) tried.2).
Proof.
  intros tried Hdir. subst tried. unfold IpaBuilder.generate_ipa, try_finally.
  pose proof (generate_ipa_caught_keeps_output_dir display_name st) as Hk.
  unfold keeps in Hk.
  destruct (IpaBuilder.generate_ipa_caught display_name st) as [r st1].
  cbn [fst snd] in *.
  assert (payload_dir st1 = payload_dir st) as Hpd.
  { rewrite !payload_dir_eq. by rewrite Hk. }
  rewrite generate_ipa_finally_spec by by rewrite Hpd.
  by rewrite Hpd.
Qed.

(** ** The claim on the purge *)

(** C8 as stated fails: after a complete run the bundle root is still
    in the staging directory, with the application in it. *)
Lemma C8_bundle_root_survives :
  let st' := (IpaBuilder.generate_ipa "Foo" Scenario.staged).2 in
  payload_dir st' = ["home"; "u"; "Downloads"; "ios_dumps"; "Payload"] ∧
  FS.iterdir (fs st') (payload_dir st')
    = Ok [["home"; "u"; "Downloads"; "ios_dumps"; "Payload"; "Foo.app"]] ∧
  fs st' !! ["home"; "u"; "Downloads"; "ios_dumps"; "Payload"; "Foo.app"; "Foo"]
    = Some (File (Raw "decrypted main")).
Proof. vm_compute. done. Qed.

(** C8, amended.  Whether the [try] block of [generate_ipa] ends well
    or not, the purge that follows removes every entry of the staging
    directory except the directories whose name ends in [.app], which
    stay with all they hold; nothing outside the staging directory is
    touched.  The staging directory is empty again once
    [create_directories] has run, at the start of the next run. *)
Theorem C8_purge_retains_app_directories display_name st :
  let tried := IpaBuilder.generate_ipa_caught display_name st in
  let staging := payload_dir st in
  FS.wf (fs tried.2) →
  FS.is_dir (fs tried.2) staging = true →
  ∃ st',
    IpaBuilder.generate_ipa display_name st = (tried.1, st') ∧
    payload_dir st' = staging ∧
    (∀ p, fs st' !! p = purged staging (fs tried.2) p) ∧
    ∃ d, IpaBuilder.create_directories st' = (Ok tt, set_fs d st') ∧
         d !! staging = Some Dir ∧
         ∀ p, FS.is_below staging p = true → d !! p = None.
Proof.
  intros tried staging Hwf Hdir.
  pose proof (generate_ipa_unfold display_name st Hdir) as Hgen.
  fold tried staging in Hgen.
  set (d' := foldl _ _ _) in Hgen.
  assert (FS.wf d') as Hwf'.
  { subst d'. apply (purge_fold_wf staging); [done |].
    apply Forall_forall. intros i [_ Hi]%elem_of_List_filter.
    by apply is_child_spec. }
  assert (payload_dir (set_fs d' tried.2) = staging) as Hpd.
  { subst staging. rewrite !payload_dir_eq.
    assert (output_dir tried.2 = output_dir st) as Hk
      by apply generate_ipa_caught_keeps_output_dir.
    rewrite <- Hk. by destruct tried.2. }
  assert (∀ p, d' !! p = purged staging (fs tried.2) p) as Hlook.
  { intros p. subst d'. by apply purge_lookup. }
  exists (set_fs d' tried.2). split; [done |]. split; [done |].
  split; [by destruct tried.2 |].
  destruct (create_directories_spec (set_fs d' tried.2)) as (d & Hcd & _ & Hd & Hempty).
  - by destruct tried.2.
  - rewrite Hpd. intros q b Hq.
    assert (fs (set_fs d' tried.2) = d') as -> by by destruct tried.2.
    rewrite Hlook. unfold purged.
    assert (fs tried.2 !! q = Some Dir) as Hq'.
    { assert (fs tried.2 !! staging = Some Dir) as Hs.
      { unfold FS.is_dir in Hdir. by destruct (fs tried.2 !! staging) as [[|]|]. }
      destruct Hq as [[|c r] Hr].
      - rewrite app_nil_r in Hr. by rewrite <- Hr.
      - apply (wf_ancestor _ q (c :: r)); [done | done |].
        by rewrite <- Hr, Hs. }
    destruct (PyPath.relative_to staging q) as [[|c r]|] eqn:Hrel;
      rewrite ?Hq'; try done.
    apply relative_to_Some in Hrel. destruct Hq as [r' Hr'].
    rewrite Hrel, <- app_assoc in Hr'.
    apply (f_equal (@List.length string)) in Hr'.
    rewrite !length_app in Hr'. cbn in Hr'. lia.
  - exists d. rewrite Hpd in *. done.
Qed.

Lemma C8_witness :
  ∃ st',
    IpaBuilder.generate_ipa "Foo" Scenario.staged
      = ((IpaBuilder.generate_ipa_caught "Foo" Scenario.staged).1, st') ∧
    payload_dir st' = payload_dir Scenario.staged ∧
    (∀ p, fs st' !! p
          = purged (payload_dir Scenario.staged)
              (fs (IpaBuilder.generate_ipa_caught "Foo" Scenario.staged).2) p) ∧
    ∃ d, IpaBuilder.create_directories st' = (Ok tt, set_fs d st') ∧
         d !! payload_dir Scenario.staged = Some Dir ∧
         ∀ p, FS.is_below (payload_dir Scenario.staged) p = true → d !! p = None.
Proof.
  apply (C8_purge_retains_app_directories "Foo" Scenario.staged).
  - apply wfb_wf. vm_compute. reflexivity.
  - vm_compute. reflexivity.
Defined.

(** ** The claim on a failing assembly *)

(** An exception of the [try] block of [generate_ipa] is caught and
    logged there, the purge runs and the call returns. *)
Lemma generate_ipa_swallows display_name st cls msg :
  (IpaBuilder.generate_ipa_try display_name st).1 = Raise (Exc cls msg) →
  FS.is_dir (fs (IpaBuilder.generate_ipa_try display_name st).2) (payload_dir st)
    = true →
  ∃ st',
    IpaBuilder.generate_ipa display_name st = (Ok tt, st') ∧
    log st' = log (IpaBuilder.generate_ipa_try display_name st).2
              ++ [LogEntry ERROR "Failed to generate IPA: " (ArgExn (Exc cls msg))].
Proof.
  intros Hraise Hdir.
  assert (IpaBuilder.generate_ipa_caught display_name st
          = (Ok tt,
             set_log (log (IpaBuilder.generate_ipa_try display_name st).2
                      ++ [LogEntry ERROR "Failed to generate IPA: "
                            (ArgExn (Exc cls msg))])
               (IpaBuilder.generate_ipa_try display_name st).2)) as Hcaught.
  { unfold IpaBuilder.generate_ipa_caught, try_except.
    destruct (IpaBuilder.generate_ipa_try display_name st) as [r st1].
    cbn in Hraise. by subst r. }
  eexists. split.
  - rewrite generate_ipa_unfold; rewrite Hcaught; cbn [fst snd]; [done |].
    by destruct (IpaBuilder.generate_ipa_try display_name st).2.
  - by destruct (IpaBuilder.generate_ipa_try display_name st).2.
Qed.

(** Without the reserved entry the [try] block raises at once. *)
Lemma generate_ipa_try_without_app display_name st :
  PyDict.get "app" (file_dict st) = None →
  (IpaBuilder.generate_ipa_try display_name st).1
    = Raise (Exc RuntimeError "App name not found in file dictionary.") ∧
  fs (IpaBuilder.generate_ipa_try display_name st).2 = fs st.
Proof.
  intros Hno. unfold IpaBuilder.generate_ipa_try. munfold. cbn.
  rewrite Hno. by destruct st.
Qed.

(** With the reserved entry alone and no bundle root on the disk the
    [try] block raises after the (empty) loop. *)
Lemma generate_ipa_try_without_bundle display_name st app_name :
  file_dict st = [("app", app_name)] → app_name ≠ "" →
  FS.is_dir (fs st) (PyPath.joinpath (payload_dir st) app_name) = false →
  (IpaBuilder.generate_ipa_try display_name st).1
    = Raise (Exc RuntimeError "The .app folder does not exist or is not a directory.") ∧
  fs (IpaBuilder.generate_ipa_try display_name st).2 = fs st.
Proof.
  intros Hfd Hne Hnd. unfold IpaBuilder.generate_ipa_try. munfold. cbn.
  rewrite Hfd. cbn. destruct app_name as [|c s]; [done |].
  munfold. cbn. unfold payload_dir in *. destruct st; cbn in *.
  rewrite Hnd. by rewrite orb_true_r.
Qed.

(** When the wait ends with the completion event set, the exit status
    is 0 as soon as [generate_ipa] returns. *)
Lemma main_after_wait e w a app st :
  Main.reaches_wait e w a app st →
  finished (IpaBuilder.pump (Frida.stream e) st) = true →
  (IpaBuilder.generate_ipa (Frida.name app)
     (IpaBuilder.pump (Frida.stream e) st)).1 = Ok tt →
  (Main.main e w (Main.Namespace a)).1 = 0 ∧
  ∃ before, stdout (Main.main e w (Main.Namespace a)).2
            = before ++ success_summary (Frida.name app).
Proof.
  intros (Hcred & ssh_config & st1 & st2 & Hnew & Hstart & Hloc & Hprep) Hfin Hgen.
  destruct (main_after_locate e w a app ssh_config st1 st2 Hnew Hstart Hloc)
    as [lines ->].
  set (st_w := IpaBuilder.pump (Frida.stream e) st) in *.
  assert (∃ st3, IpaBuilder.dump_found e (Frida.name app) st2 = (Ok tt, st3))
    as [st3 ->]; [| split; [done | by eexists]].
  unfold IpaBuilder.dump_found.
  erewrite bind_ok; [| by apply await_dump_done].
  unfold IpaBuilder.assemble. munfold. cbn. fold st_w.
  set (st_a := set_log _ _).
  destruct (framed_same_but_log (IpaBuilder.generate_ipa (Frida.name app)) st_w st_a)
    as [Hres _].
  { apply generate_ipa_framed. }
  { subst st_a. unfold Spec.same_but_log. by destruct st_w. }
  rewrite Hgen in Hres.
  destruct (IpaBuilder.generate_ipa (Frida.name app) st_a) as [r st4].
  cbn in Hres. subst r. by eexists.
Qed.

(** * Further properties of the code *)

(** ** Exceptions that [except Exception] catches *)

Section exc_only.

Lemma exc_only_ret {A} (a : A) : exc_only (mret a).
Proof. done. Qed.

Lemma exc_only_raise {A} cls msg : exc_only (raise (Exc cls msg) : M A).
Proof. done. Qed.

Lemma exc_only_lift {A} (r : result A) :
  (∀ code, r ≠ Raise (SystemExit code)) → exc_only (lift r).
Proof. intros Hr st code. apply Hr. Qed.

Lemma exc_only_gets {A} (f : state → A) : exc_only (gets f).
Proof. done. Qed.

Lemma exc_only_modify f : exc_only (modify f).
Proof. done. Qed.

Lemma exc_only_bind {A B} (m : M A) (f : A → M B) :
  exc_only m → (∀ a, exc_only (f a)) → exc_only (m ≫= f).
Proof.
  intros Hm Hf st code. unfold mbind, M_bind. specialize (Hm st code).
  destruct (m st) as [[a|e] st1]; cbn in *; [apply Hf |].
  intros [= ->]. by apply Hm.
Qed.

Lemma exc_only_try_except {A} (m : M A) (h : exn → M A) :
  exc_only m → (∀ cls msg, exc_only (h (Exc cls msg))) →
  exc_only (try_except m h).
Proof.
  intros Hm Hh st code. unfold try_except. specialize (Hm st code).
  destruct (m st) as [[a|[cls msg|code']] st1]; cbn in *; [done | apply Hh | exact Hm].
Qed.

Lemma exc_only_try_finally {A} (m : M A) (final : M unit) :
  exc_only m → exc_only final → exc_only (try_finally m final).
Proof.
  intros Hm Hf st code. unfold try_finally. specialize (Hm st code).
  destruct (m st) as [r st1]; cbn in *. specialize (Hf st1 code).
  destruct (final st1) as [[[]|e] st2]; cbn in *; [exact Hm |].
  intros [= ->]. by apply Hf.
Qed.

Lemma exc_only_for_each {A} (items : list A) (body : A → M unit) :
  (∀ x, exc_only (body x)) → exc_only (IpaBuilder.for_each items body).
Proof.
  intros Hbody. induction items as [|x items IH]; cbn [IpaBuilder.for_each].
  - apply exc_only_ret.
  - apply exc_only_bind; [apply Hbody | by intros _].
Qed.

(** A guarded block whose handler only logs always ends well. *)
Lemma guarded_ok (m : M unit) lv text st :
  exc_only m →
  (try_except m (λ e, logger lv text (ArgExn e)) st).1 = Ok tt.
Proof.
  intros Hm. unfold try_except. specialize (Hm st).
  destruct (m st) as [[[]|[cls msg|code]] st1]; cbn in *; try done.
  by destruct (Hm code).
Qed.

End exc_only.

(** Breaks a computation into its steps. *)
Ltac exc_only_steps :=
  repeat first
    [ apply exc_only_ret | apply exc_only_raise | apply exc_only_gets
    | apply exc_only_modify
    | apply exc_only_lift; intros ?; repeat case_match; done
    | apply exc_only_for_each; intros ?
    | apply exc_only_bind; [| intros ?]
    | apply exc_only_try_except; [| intros ? ?]
    | apply exc_only_try_finally
    | case_match ].

Lemma handle_dump_payload_exc_only payload :
  exc_only (IpaBuilder._handle_dump_payload_208 payload).
Proof.
  unfold IpaBuilder._handle_dump_payload_208, IpaBuilder.fetch_and_record_dump,
    IpaBuilder.scp_open, IpaBuilder.scp_get, PyVal.getitem,
    IpaBuilder.find_marker, IpaBuilder.slice_value, IpaBuilder.name_of,
    logger, emit.
  exc_only_steps.
Qed.

Lemma handle_app_payload_exc_only payload :
  exc_only (IpaBuilder._handle_app_payload_217 payload).
Proof.
  unfold IpaBuilder._handle_app_payload_217, IpaBuilder.fetch_and_record_app,
    IpaBuilder.scp_open, IpaBuilder.scp_get, PyVal.getitem, IpaBuilder.name_of,
    logger, emit.
  exc_only_steps.
Qed.

(** The handler never raises: whatever the message and the state of
    the channel, the call returns. *)
Theorem on_message_never_raises message st :
  (IpaBuilder.on_message message st).1 = Ok tt.
Proof.
  rewrite on_message_route.
  destruct (Spec.classify message) as [v| |v|p|p| | |e]; cbn [Spec.route];
    try done.
  - apply guarded_ok, handle_dump_payload_exc_only.
  - apply guarded_ok, handle_app_payload_exc_only.
Qed.

(** ** A transfer that fails *)

(** A failed transfer of an artifact stays inside the handler: the
    call returns, one error line is logged, and the mapping, the disk,
    the completion event and the connection are as before. *)
Theorem failed_transfer_is_contained message d remote st :
  PyVal.eq_str (PyVal.dict_get message "type") "error" = false →
  PyVal.dict_get message "payload" = VDict d →
  IpaBuilder.is_log_payload (VDict d) = false →
  PyDict.get "dump" d = Some (VStr remote) →
  Spec.transfer_fails remote false st →
  ∃ entry evs,
    IpaBuilder.on_message message st
      = (Ok tt, set_log (log st ++ [entry]) (set_trace (trace st ++ evs) st)) ∧
    log_level entry = ERROR.
Proof.
  intros Hty Hpl Hlog Hdump Hfail.
  rewrite on_message_route, (classify_dump _ _ _ Hty Hpl Hlog Hdump).
  by apply (dump_handler_fails d remote).
Qed.

Lemma failed_transfer_is_contained_witness :
  ∃ entry evs,
    IpaBuilder.on_message Scenario.dump_lost Scenario.ready
      = (Ok tt, set_log (log Scenario.ready ++ [entry])
                  (set_trace (trace Scenario.ready ++ evs) Scenario.ready)) ∧
    log_level entry = ERROR.
Proof.
  apply (failed_transfer_is_contained Scenario.dump_lost
           [("dump", VStr "/tmp/Lost.fid");
            ("path", VStr "/var/c/Foo.app/Frameworks/Lost")] "/tmp/Lost.fid").
  - reflexivity.
  - reflexivity.
  - reflexivity.
  - reflexivity.
  - right. vm_compute. reflexivity.
Defined.

Section same_but_log.
Import Spec.

Lemma same_but_log_refl st : same_but_log st st.
Proof. by repeat split. Qed.

Lemma same_but_log_sym st st' : same_but_log st st' → same_but_log st' st.
Proof. intros (? & ? & ? & ? & ? & ? & ? & ? & ?). by repeat split. Qed.

Lemma same_but_log_trans st1 st2 st3 :
  same_but_log st1 st2 → same_but_log st2 st3 → same_but_log st1 st3.
Proof.
  intros (? & ? & ? & ? & ? & ? & ? & ? & ?) (? & ? & ? & ? & ? & ? & ? & ? & ?).
  repeat split; congruence.
Qed.

Lemma same_but_log_appended st entries evs :
  same_but_log (set_log (log st ++ entries) (set_trace (trace st ++ evs) st)) st.
Proof. by destruct st. Qed.

Lemma pump_same_but_log s st st' :
  same_but_log st st' →
  same_but_log (IpaBuilder.pump s st) (IpaBuilder.pump s st').
Proof.
  intros Hsame.
  apply (framed_same_but_log (modify (IpaBuilder.pump s)) st st'); [| done].
  intros l t st0. unfold modify. by rewrite pump_framed.
Qed.

End same_but_log.

Lemma pump_finished s st : finished st = true → IpaBuilder.pump s st = st.
Proof. intros Hfin. destruct s as [|[t i] s]; cbn; by rewrite ?Hfin. Qed.

(** Inputs that arrive before the timeout are handled one after the
    other. *)
Lemma pump_app pre rest st :
  Forall (λ x, x.1 < IpaBuilder.wait_timeout) pre →
  IpaBuilder.pump (pre ++ rest) st = IpaBuilder.pump rest (IpaBuilder.pump pre st).
Proof.
  intros Hpre. revert st.
  induction Hpre as [|[t i] pre Ht _ IH]; intros st; cbn [app IpaBuilder.pump].
  - done.
  - destruct (finished st) eqn:Hfin; [by rewrite pump_finished |].
    cbn in Ht. destruct (Z.leb_spec IpaBuilder.wait_timeout t); [lia |].
    apply IH.
Qed.

(** An artifact whose transfer fails is as if its message had never
    come: the messages after it are handled alike, the completion
    event is set alike, and the assembly that follows has the same
    outcome and leaves the same disk.  Only the log and the trace
    tell the two runs apart. *)
Theorem lost_artifact_changes_only_the_log pre t message d remote post st :
  Forall (λ x, x.1 < IpaBuilder.wait_timeout) pre →
  t < IpaBuilder.wait_timeout →
  PyVal.eq_str (PyVal.dict_get message "type") "error" = false →
  PyVal.dict_get message "payload" = VDict d →
  IpaBuilder.is_log_payload (VDict d) = false →
  PyDict.get "dump" d = Some (VStr remote) →
  Spec.transfer_fails remote false (IpaBuilder.pump pre st) →
  let with_it := IpaBuilder.pump (pre ++ (t, Frida.Message message) :: post) st in
  let without := IpaBuilder.pump (pre ++ post) st in
  Spec.same_but_log with_it without ∧
  ∀ display_name,
    (IpaBuilder.generate_ipa display_name with_it).1
      = (IpaBuilder.generate_ipa display_name without).1 ∧
    fs (IpaBuilder.generate_ipa display_name with_it).2
      = fs (IpaBuilder.generate_ipa display_name without).2.
Proof.
  intros Hpre Ht Hty Hpl Hlog Hdump Hfail with_it without.
  assert (Spec.same_but_log with_it without) as Hsame.
  { subst with_it without. rewrite !pump_app by done.
    set (st1 := IpaBuilder.pump pre st) in *. cbn [IpaBuilder.pump].
    destruct (finished st1) eqn:Hfin.
    { rewrite pump_finished by done. apply same_but_log_refl. }
    destruct (Z.leb_spec IpaBuilder.wait_timeout t); [lia |].
    cbn [IpaBuilder.handle_input].
    rewrite on_message_route, (classify_dump _ _ _ Hty Hpl Hlog Hdump).
    destruct (dump_handler_fails d remote st1) as (entry & evs & -> & _);
      [done | done |].
    cbn [snd]. apply pump_same_but_log, same_but_log_appended. }
  split; [done |]. intros display_name.
  destruct (framed_same_but_log (IpaBuilder.generate_ipa display_name)
              with_it without (generate_ipa_framed display_name) Hsame)
    as [Hres Hst].
  split; [done |]. apply Hst.
Qed.

Lemma lost_artifact_witness :
  let with_it := IpaBuilder.pump Scenario.lossy_stream Scenario.ready in
  let without := IpaBuilder.pump Scenario.full_stream Scenario.ready in
  Spec.same_but_log with_it without ∧
  ∀ display_name,
    (IpaBuilder.generate_ipa display_name with_it).1
      = (IpaBuilder.generate_ipa display_name without).1 ∧
    fs (IpaBuilder.generate_ipa display_name with_it).2
      = fs (IpaBuilder.generate_ipa display_name without).2.
Proof.
  apply (lost_artifact_changes_only_the_log
           [(10, Frida.Message Scenario.dump_main)] 15 Scenario.dump_lost
           [("dump", VStr "/tmp/Lost.fid");
            ("path", VStr "/var/c/Foo.app/Frameworks/Lost")] "/tmp/Lost.fid"
           [(20, Frida.Message Scenario.dump_bar);
            (30, Frida.Message Scenario.app_bundle);
            (40, Frida.Message Scenario.done)] Scenario.ready).
  - repeat constructor.
  - reflexivity.
  - reflexivity.
  - reflexivity.
  - reflexivity.
  - reflexivity.
  - right. vm_compute. reflexivity.
Defined.

(** ** The SSH connection *)

(** [_create_ssh_connection] when the device accepts the connection:
    the transport is active afterwards. *)
Lemma create_ssh_connection_up st :
  is_Some (ssh_config st) →
  sshd_up st = true →
  IpaBuilder._create_ssh_connection st
  = (Ok tt,
     set_log (log st ++ [LogEntry INFO "SSH connection established successfully" NoArg])
       (set_trace (trace st ++ [EvConnect]) (set_ssh_client (Some Active) st))).
Proof.
  intros [config Hconfig] Hup. unfold IpaBuilder._create_ssh_connection. munfold.
  destruct st. cbn in *. by rewrite Hconfig, Hup.
Qed.

(** [_create_ssh_connection] when the device refuses: the failure is
    logged and raised again, and the builder keeps a client without a
    transport. *)
Lemma create_ssh_connection_down st :
  is_Some (ssh_config st) →
  sshd_up st = false →
  IpaBuilder._create_ssh_connection st
  = (Raise (Exc SSHException "Unable to connect"),
     set_log (log st ++ [LogEntry ERROR "SSH connection failed: "
                           (ArgExn (Exc SSHException "Unable to connect"))])
       (set_trace (trace st ++ [EvConnect]) (set_ssh_client (Some NoTransport) st))).
Proof.
  intros [config Hconfig] Hup. unfold IpaBuilder._create_ssh_connection. munfold.
  destruct st. cbn in *. by rewrite Hconfig, Hup.
Qed.

(** [_create_ssh_connection] on a builder that holds no credential:
    reading the host off [self.ssh_config] fails before [connect] is
    called; the failure is logged and raised again. *)
Lemma create_ssh_connection_unconfigured st :
  ssh_config st = None →
  IpaBuilder._create_ssh_connection st
  = (Raise (Exc AttributeError "'NoneType' object has no attribute 'host'"),
     set_log (log st ++ [LogEntry ERROR "SSH connection failed: "
                           (ArgExn (Exc AttributeError
                                      "'NoneType' object has no attribute 'host'"))])
       (set_ssh_client (Some NoTransport) st)).
Proof.
  intros Hconfig. unfold IpaBuilder._create_ssh_connection. munfold.
  destruct st. cbn in *. by rewrite Hconfig.
Qed.

(** [connect_ssh] stores the credential and succeeds exactly when the
    device accepts the connection; it makes one attempt and does not
    retry. *)
Theorem connect_ssh_once config st :
  ((IpaBuilder.connect_ssh config st).1 = Ok tt ↔ sshd_up st = true) ∧
  trace (IpaBuilder.connect_ssh config st).2 = trace st ++ [EvConnect] ∧
  (ssh_client (IpaBuilder.connect_ssh config st).2 = Some Active ↔ sshd_up st = true) ∧
  ssh_config (IpaBuilder.connect_ssh config st).2 = Some config.
Proof.
  unfold IpaBuilder.connect_ssh, mbind, M_bind, modify.
  destruct (sshd_up st) eqn:Hup.
  - rewrite create_ssh_connection_up by (by destruct st). by destruct st.
  - rewrite create_ssh_connection_down by (by destruct st). by destruct st.
Qed.

(** [_ensure_ssh_connection] with an active transport only checks. *)
Lemma ensure_active st :
  ssh_client st = Some Active →
  IpaBuilder._ensure_ssh_connection st
  = (Ok tt, set_trace (trace st ++ [EvEnsure]) st).
Proof.
  intros Hc. unfold IpaBuilder._ensure_ssh_connection. munfold.
  destruct st. cbn in *. by rewrite Hc.
Qed.

(** When [_ensure_ssh_connection] returns, the transport is active:
    it was, or a new connection has been made. *)
Theorem ensure_returns_with_active_transport st st' :
  IpaBuilder._ensure_ssh_connection st = (Ok tt, st') →
  ssh_client st' = Some Active ∧
  (ssh_client st = Some Active → trace st' = trace st ++ [EvEnsure]) ∧
  (ssh_client st ≠ Some Active →
   sshd_up st = true ∧ trace st' = trace st ++ [EvEnsure; EvConnect]).
Proof.
  unfold IpaBuilder._ensure_ssh_connection, IpaBuilder._create_ssh_connection.
  munfold. destruct st as [out fd fin ssh config up dev d lg tr so]. cbn.
  destruct ssh as [[| |]|], config as [config|], up; cbn; intros [= <-]; cbn;
    rewrite <- ?app_assoc; done.
Qed.

Lemma ensure_returns_witness :
  ssh_client (IpaBuilder._ensure_ssh_connection Scenario.dropped).2 = Some Active.
Proof.
  refine (proj1 (ensure_returns_with_active_transport Scenario.dropped
                   (IpaBuilder._ensure_ssh_connection Scenario.dropped).2 _)).
  vm_compute. reflexivity.
Defined.

(** With a transport that is absent or not active and a device that
    refuses, [_ensure_ssh_connection] raises and leaves a client
    without a transport.  When a credential is stored it tries to
    connect twice, the second time from its [except] clause.  On a
    builder on which [connect_ssh] was never called it calls
    [_create_ssh_connection] twice as well, but each call fails on the
    missing credential before [connect] is reached. *)
Theorem ensure_retries_once st :
  ssh_client st ≠ Some Active → sshd_up st = false →
  ssh_client (IpaBuilder._ensure_ssh_connection st).2 = Some NoTransport ∧
  match ssh_config st with
  | Some _ =>
      (IpaBuilder._ensure_ssh_connection st).1
        = Raise (Exc SSHException "Unable to connect") ∧
      trace (IpaBuilder._ensure_ssh_connection st).2
        = trace st ++ [EvEnsure; EvConnect; EvConnect]
  | None =>
      (IpaBuilder._ensure_ssh_connection st).1
        = Raise (Exc AttributeError "'NoneType' object has no attribute 'host'") ∧
      trace (IpaBuilder._ensure_ssh_connection st).2 = trace st ++ [EvEnsure]
  end.
Proof.
  unfold IpaBuilder._ensure_ssh_connection, IpaBuilder._create_ssh_connection.
  munfold. destruct st as [out fd fin ssh config up dev d lg tr so]. cbn.
  intros Hc ->.
  destruct ssh as [[| |]|], config as [config|]; cbn; rewrite <- ?app_assoc; done.
Qed.

Lemma ensure_retries_witness :
  (IpaBuilder._ensure_ssh_connection refused).1
    = Raise (Exc SSHException "Unable to connect") ∧
  trace (IpaBuilder._ensure_ssh_connection refused).2
    = trace refused ++ [EvEnsure; EvConnect; EvConnect].
Proof.
  refine (proj2 (ensure_retries_once refused _ _)); [discriminate | reflexivity].
Defined.
(** ** The two definitions of the handlers *)

Lemma fetch_and_record_dump_framed payload :
  Spec.framed (IpaBuilder.fetch_and_record_dump payload).
Proof.
  unfold IpaBuilder.fetch_and_record_dump, IpaBuilder.scp_get. framed_steps.
Qed.

Lemma fetch_and_record_dump_exc_only payload :
  exc_only (IpaBuilder.fetch_and_record_dump payload).
Proof.
  unfold IpaBuilder.fetch_and_record_dump, IpaBuilder.scp_get, PyVal.getitem,
    IpaBuilder.find_marker, IpaBuilder.slice_value, IpaBuilder.name_of, emit.
  exc_only_steps.
Qed.

Lemma same_but_log_logged st st' entry entry' :
  Spec.same_but_log st st' →
  Spec.same_but_log (set_log (log st ++ [entry]) st) (set_log (log st' ++ entry') st').
Proof. by destruct st, st'. Qed.

(** A computation that begins by emitting [ev]. *)
Lemma begins_emit {A} ev (f : unit → M A) st :
  emits (λ _, True) (f tt) →
  ∃ evs, trace ((emit ev ≫= f) st).2 = trace st ++ ev :: evs.
Proof.
  intros Hf. destruct (Hf (set_trace (trace st ++ [ev]) st)) as (evs & Htr & _).
  exists evs. change ((emit ev ≫= f) st) with (f tt (set_trace (trace st ++ [ev]) st)).
  rewrite Htr. destruct st. cbn. by rewrite <- app_assoc.
Qed.

Lemma begins_bind {A B} ev (m : M A) (f : A → M B) st :
  (∃ evs, trace (m st).2 = trace st ++ ev :: evs) →
  (∀ a, emits (λ _, True) (f a)) →
  ∃ evs, trace ((m ≫= f) st).2 = trace st ++ ev :: evs.
Proof.
  intros (evs & Htr) Hf. unfold mbind, M_bind.
  destruct (m st) as [[a|e] st1]; cbn in *; [| by exists evs].
  destruct (Hf a st1) as (evs' & Htr' & _).
  exists (evs ++ evs'). by rewrite Htr', Htr, <- app_assoc.
Qed.

Lemma begins_try_except {A} ev (m : M A) (h : exn → M A) st :
  (∃ evs, trace (m st).2 = trace st ++ ev :: evs) →
  (∀ e, emits (λ _, True) (h e)) →
  ∃ evs, trace (try_except m h st).2 = trace st ++ ev :: evs.
Proof.
  intros (evs & Htr) Hh. unfold try_except.
  destruct (m st) as [[a|[cls msg|code]] st1]; cbn in *; try by exists evs.
  destruct (Hh (Exc cls msg) st1) as (evs' & Htr' & _).
  exists (evs ++ evs'). by rewrite Htr', Htr, <- app_assoc.
Qed.

(** The artifact handler as first defined (line 88) never raises and
    begins with the liveness check. *)
Theorem first_dump_handler_checks_liveness payload st :
  (IpaBuilder._handle_dump_payload_88 payload st).1 = Ok tt ∧
  ∃ evs, trace (IpaBuilder._handle_dump_payload_88 payload st).2
         = trace st ++ EvEnsure :: evs.
Proof.
  split.
  - apply guarded_ok.
    unfold IpaBuilder._ensure_ssh_connection, IpaBuilder._create_ssh_connection,
      IpaBuilder.scp_open, IpaBuilder.fetch_and_record_dump, IpaBuilder.scp_get,
      PyVal.getitem, IpaBuilder.find_marker, IpaBuilder.slice_value,
      IpaBuilder.name_of, logger, emit.
    exc_only_steps.
  - unfold IpaBuilder._handle_dump_payload_88, IpaBuilder._ensure_ssh_connection.
    apply begins_try_except; [| intros e; emits_steps].
    apply begins_bind.
    + apply begins_emit.
      unfold IpaBuilder._create_ssh_connection. emits_steps.
    + intros _. unfold IpaBuilder.scp_open, IpaBuilder.fetch_and_record_dump,
        IpaBuilder.scp_get. emits_steps.
Qed.

(** The bundle handler as first defined (line 102) never raises and
    begins with the liveness check. *)
Theorem first_app_handler_checks_liveness payload st :
  (IpaBuilder._handle_app_payload_102 payload st).1 = Ok tt ∧
  ∃ evs, trace (IpaBuilder._handle_app_payload_102 payload st).2
         = trace st ++ EvEnsure :: evs.
Proof.
  split.
  - apply guarded_ok.
    unfold IpaBuilder._ensure_ssh_connection, IpaBuilder._create_ssh_connection,
      IpaBuilder.scp_open, IpaBuilder.fetch_and_record_app, IpaBuilder.scp_get,
      PyVal.getitem, IpaBuilder.name_of, logger, emit.
    exc_only_steps.
  - unfold IpaBuilder._handle_app_payload_102, IpaBuilder._ensure_ssh_connection.
    apply begins_try_except; [| intros e; emits_steps].
    apply begins_bind.
    + apply begins_emit.
      unfold IpaBuilder._create_ssh_connection. emits_steps.
    + intros _. unfold IpaBuilder.scp_open, IpaBuilder.fetch_and_record_app,
        IpaBuilder.scp_get. emits_steps.
Qed.

Lemma try_except_bind_ok {A B} (m : M A) (f : A → M B) h st a st1 :
  m st = (Ok a, st1) → try_except (m ≫= f) h st = try_except (f a) h st1.
Proof. intros Hm. unfold try_except, mbind, M_bind. by rewrite Hm. Qed.

Lemma scp_open_active st :
  ssh_client st = Some Active →
  IpaBuilder.scp_open st = (Ok tt, set_trace (trace st ++ [EvOpen]) st).
Proof.
  intros Hc. unfold IpaBuilder.scp_open. munfold. by rewrite Hc.
Qed.

(** With an active transport the two definitions of the artifact
    handler do the same to the mapping and to the disk: both return,
    and the states they leave differ in the log and the trace only. *)
Theorem dump_handlers_agree_when_active payload st :
  ssh_client st = Some Active →
  (IpaBuilder._handle_dump_payload_88 payload st).1 = Ok tt ∧
  (IpaBuilder._handle_dump_payload_208 payload st).1 = Ok tt ∧
  Spec.same_but_log (IpaBuilder._handle_dump_payload_88 payload st).2
                    (IpaBuilder._handle_dump_payload_208 payload st).2.
Proof.
  intros Hc.
  set (s88 := set_trace (trace (set_trace (trace st ++ [EvEnsure]) st) ++ [EvOpen])
                (set_trace (trace st ++ [EvEnsure]) st)).
  set (s208 := set_trace (trace st ++ [EvOpen]) st).
  assert (Spec.same_but_log s88 s208) as Hsame by (subst s88 s208; by destruct st).
  destruct (framed_same_but_log (IpaBuilder.fetch_and_record_dump payload)
              s88 s208 (fetch_and_record_dump_framed payload) Hsame)
    as [Hres Hst].
  pose proof (fetch_and_record_dump_exc_only payload s88) as Hexc.
  assert (IpaBuilder._handle_dump_payload_88 payload st
          = try_except
              (try_except (IpaBuilder.fetch_and_record_dump payload)
                 (λ e, logger ERROR "Failed to transfer file: " (ArgExn e) ;; raise e))
              (λ e, logger ERROR "Failed to handle dump payload: " (ArgExn e))
              s88) as ->.
  { unfold IpaBuilder._handle_dump_payload_88.
    erewrite try_except_bind_ok; [| by apply ensure_active].
    erewrite try_except_bind_ok; [done |].
    apply scp_open_active. by destruct st. }
  assert (IpaBuilder._handle_dump_payload_208 payload st
          = try_except (IpaBuilder.fetch_and_record_dump payload)
              (λ e, logger ERROR "Failed to handle dump payload: " (ArgExn e))
              s208) as ->.
  { unfold IpaBuilder._handle_dump_payload_208.
    erewrite bind_ok; [done |]. by apply scp_open_active. }
  unfold try_except.
  destruct (IpaBuilder.fetch_and_record_dump payload s88) as [r1 t1].
  destruct (IpaBuilder.fetch_and_record_dump payload s208) as [r2 t2].
  cbn in Hres, Hst, Hexc. subst r2.
  destruct r1 as [[]|[cls msg|code]]; cbn.
  - done.
  - split; [done |]. split; [done |].
    destruct t1, t2. unfold Spec.same_but_log in *. cbn in *. done.
  - by destruct (Hexc code).
Qed.

Lemma dump_handlers_agree_witness :
  Spec.same_but_log
    (IpaBuilder._handle_dump_payload_88
       (PyVal.dict_get Scenario.dump_main "payload") Scenario.ready).2
    (IpaBuilder._handle_dump_payload_208
       (PyVal.dict_get Scenario.dump_main "payload") Scenario.ready).2.
Proof.
  refine (proj2 (proj2 (dump_handlers_agree_when_active _ Scenario.ready _))).
  vm_compute. reflexivity.
Defined.

(** ** The selection of the device *)

Section selection.
Implicit Types (usb : list Frida.device) (answers : list (option Z)).

(** The prompt goes past the answers it turns down, writing the
    prompt and a rejection for each. *)
Lemma prompt_choice_skips usb skipped answers st :
  Forall (rejected (List.length usb)) skipped →
  IpaBuilder.prompt_choice usb (skipped ++ answers) st
  = IpaBuilder.prompt_choice usb answers
      (set_stdout (stdout st ++ turned_down skipped) st).
Proof.
  intros Hrej. revert st. unfold turned_down.
  induction Hrej as [|a skipped Ha _ IH]; intros st;
    cbn [app mbind list_bind].
  - rewrite app_nil_r. by destruct st.
  - cbn [IpaBuilder.prompt_choice]. destruct a as [choice|]; cbn in Ha.
    + erewrite bind_ok by reflexivity.
      destruct (Z.leb_spec 1 choice), (Z.leb_spec choice (Z.of_nat (List.length usb)));
        cbn [andb]; try lia.
      all: erewrite bind_ok by reflexivity; rewrite IH; cbn;
        rewrite <- !app_assoc; by destruct st.
    + erewrite !bind_ok by reflexivity. rewrite IH. cbn.
      rewrite <- !app_assoc. by destruct st.
Qed.

(** The prompt takes the first answer in range: the device at that
    place in the list. *)
Lemma prompt_choice_takes usb choice answers dv st :
  usb !! Z.to_nat (choice - 1) = Some dv → 1 ≤ choice →
  IpaBuilder.prompt_choice usb (Some choice :: answers) st
  = (Ok dv, set_log (log st ++ [LogEntry INFO "Selected device: "
                                  (ArgStr (Frida.dev_name dv))])
              (set_stdout (stdout st ++ [IpaBuilder.prompt]) st)).
Proof.
  intros Hdv Hlo. cbn [IpaBuilder.prompt_choice].
  apply lookup_lt_Some in Hdv as Hlt.
  erewrite bind_ok by reflexivity.
  destruct (Z.leb_spec 1 choice), (Z.leb_spec choice (Z.of_nat (List.length usb)));
    cbn [andb]; try lia.
  rewrite Hdv. by destruct st.
Qed.

(** Whatever the prompt returns is one of the devices listed. *)
Lemma prompt_choice_elem usb answers st dv st' :
  IpaBuilder.prompt_choice usb answers st = (Ok dv, st') → dv ∈ usb.
Proof.
  revert st. induction answers as [|[choice|] answers IH]; intros st;
    cbn [IpaBuilder.prompt_choice]; [done | |].
  - erewrite bind_ok by reflexivity. destruct (_ && _).
    + destruct (usb !! Z.to_nat (choice - 1)) as [sel|] eqn:E; [| done].
      munfold. cbn. intros [= <- _]. by eapply list_elem_of_lookup_2.
    + erewrite bind_ok by reflexivity. apply IH.
  - erewrite !bind_ok by reflexivity. apply IH.
Qed.

End selection.

Section attempts.
Implicit Types (e : Frida.env) (answers : list (option Z)).

Lemma for_each_print {A} (f : A → string) (l : list A) st :
  IpaBuilder.for_each l (λ x, print (f x)) st
  = (Ok tt, set_stdout (stdout st ++ (f <$> l)) st).
Proof.
  revert st. induction l as [|x l IH]; intros st; cbn [IpaBuilder.for_each fmap list_fmap].
  - rewrite app_nil_r. by destruct st.
  - erewrite bind_ok by reflexivity. rewrite IH. cbn.
    rewrite <- app_assoc. by destruct st.
Qed.

(** The places [enumerate] gives are those of the list, counted from
    [start]. *)
Lemma enumerate_imap {A} (start : Z) (l : list A) :
  IpaBuilder.enumerate start l = imap (λ i x, (start + Z.of_nat i, x)) l.
Proof.
  revert start. induction l as [|x l IH]; intros start; cbn [IpaBuilder.enumerate imap].
  - done.
  - rewrite Z.add_0_r, IH. f_equal. apply imap_ext. intros i y _. cbn.
    f_equal. lia.
Qed.

Lemma listing_enumerate (l : list Frida.device) :
  IpaBuilder.device_line <$> IpaBuilder.enumerate 1 l = listing l.
Proof.
  rewrite enumerate_imap, fmap_imap. unfold listing. apply imap_ext.
  intros i dv _. unfold IpaBuilder.device_line. cbn. by rewrite Z.add_comm.
Qed.

Lemma usb_attempt_none e attempt answers st :
  usb_devices e = [] →
  IpaBuilder.usb_attempt e attempt answers st
  = (Ok None,
     set_log (log st ++ [LogEntry WARNING "No iPhone connected via USB. Attempt "
                           (ArgStr (pretty (attempt + 1) +:+ "/3"))]) st).
Proof.
  unfold usb_devices, IpaBuilder.usb_attempt. intros ->. reflexivity.
Qed.

Lemma usb_attempt_one e attempt answers dv st :
  usb_devices e = [dv] →
  IpaBuilder.usb_attempt e attempt answers st
  = (Ok (Some dv),
     set_log (log st ++ [LogEntry INFO "One iPhone detected: "
                           (ArgStr (Frida.dev_name dv))]) st).
Proof.
  unfold usb_devices, IpaBuilder.usb_attempt. intros ->. reflexivity.
Qed.

(** The state in which the prompt starts: the devices are listed. *)
Lemma usb_attempt_many e attempt answers d1 d2 ds st :
  usb_devices e = d1 :: d2 :: ds →
  IpaBuilder.usb_attempt e attempt answers st
  = try_except
      (dv ← IpaBuilder.prompt_choice (usb_devices e) answers; mret (Some dv))
      (λ x, logger ERROR "Error while detecting devices: " (ArgExn x) ;; mret None)
      (set_stdout (stdout st ++ listing (usb_devices e))
         (set_log (log st ++ [LogEntry INFO "Multiple devices detected. Please select one:" NoArg]) st)).
Proof.
  unfold usb_devices, IpaBuilder.usb_attempt. intros Hmany. rewrite Hmany.
  erewrite try_except_bind_ok by reflexivity.
  erewrite try_except_bind_ok by apply for_each_print.
  rewrite listing_enumerate. by destruct st.
Qed.

Lemma usb_attempt_elem e attempt answers st dv st' :
  IpaBuilder.usb_attempt e attempt answers st = (Ok (Some dv), st') →
  dv ∈ usb_devices e.
Proof.
  destruct (usb_devices e) as [|d1 [|d2 ds]] eqn:Husb.
  - by rewrite usb_attempt_none.
  - rewrite (usb_attempt_one e attempt answers d1) by done. intros [= <- _]. by left.
  - rewrite (usb_attempt_many e attempt answers d1 d2 ds) by done.
    unfold try_except, mbind, M_bind.
    destruct (IpaBuilder.prompt_choice _ answers _) as [[sel|[cls msg|code]] s1] eqn:Hp;
      cbn; try done.
    intros [= <- _]. rewrite <- Husb. by eapply prompt_choice_elem.
Qed.

End attempts.

(** [get_usb_iphone] returns nothing but a USB device the runtime has
    listed. *)
Theorem get_usb_iphone_returns_usb e st dv st' :
  IpaBuilder.get_usb_iphone e st = (Ok dv, st') →
  dv ∈ Frida.devices e ∧ Frida.dev_type dv = "usb".
Proof.
  intros Hget.
  assert (dv ∈ usb_devices e) as Hin.
  { unfold IpaBuilder.get_usb_iphone, mbind, M_bind in Hget.
    destruct (IpaBuilder.usb_attempt e 0 (Frida.stdin e) st) as [[[d1|]|x] s1] eqn:H1;
      [| | done].
    { injection Hget as <- _. by eapply usb_attempt_elem. }
    destruct (IpaBuilder.usb_attempt e 1 [] s1) as [[[d2|]|x] s2] eqn:H2; [| | done].
    { injection Hget as <- _. by eapply usb_attempt_elem. }
    destruct (IpaBuilder.usb_attempt e 2 [] s2) as [[[d3|]|x] s3] eqn:H3; [| | done].
    { injection Hget as <- _. by eapply usb_attempt_elem. }
    cbn in Hget. done. }
  unfold usb_devices in Hin. apply elem_of_List_filter in Hin as [Hin Hty].
  split; [done |]. by apply String.eqb_eq.
Qed.

Lemma get_usb_iphone_returns_usb_witness :
  Frida.Device "iPhone" "udid" "usb" [Scenario.foo]
    ∈ Frida.devices (Scenario.phone []) ∧
  Frida.dev_type (Frida.Device "iPhone" "udid" "usb" [Scenario.foo]) = "usb".
Proof.
  apply (get_usb_iphone_returns_usb (Scenario.phone []) Scenario.ready _
           (IpaBuilder.get_usb_iphone (Scenario.phone []) Scenario.ready).2).
  vm_compute. reflexivity.
Defined.

(** Without a USB device [get_usb_iphone] gives up after three passes,
    each logging a warning that tells which of the three it is, and
    raises [RuntimeError]; nothing is asked of the operator and nothing
    is printed. *)
Theorem get_usb_iphone_without_device e st :
  usb_devices e = [] →
  IpaBuilder.get_usb_iphone e st
  = (Raise (Exc RuntimeError "No iPhone detected"),
     set_log (log st ++
              [LogEntry WARNING "No iPhone connected via USB. Attempt " (ArgStr "1/3");
               LogEntry WARNING "No iPhone connected via USB. Attempt " (ArgStr "2/3");
               LogEntry WARNING "No iPhone connected via USB. Attempt " (ArgStr "3/3");
               LogEntry ERROR "Failed to detect an iPhone after multiple attempts." NoArg])
       st).
Proof.
  intros Hnone. unfold IpaBuilder.get_usb_iphone, mbind, M_bind.
  rewrite !usb_attempt_none by done.
  munfold. destruct st. cbn. by rewrite <- !app_assoc.
Qed.

Lemma get_usb_iphone_without_device_witness :
  IpaBuilder.get_usb_iphone
    (Frida.Env [Frida.Device "Local System" "local" "local" []] [] [])
    Scenario.ready
  = (Raise (Exc RuntimeError "No iPhone detected"),
     set_log (log Scenario.ready ++
              [LogEntry WARNING "No iPhone connected via USB. Attempt " (ArgStr "1/3");
               LogEntry WARNING "No iPhone connected via USB. Attempt " (ArgStr "2/3");
               LogEntry WARNING "No iPhone connected via USB. Attempt " (ArgStr "3/3");
               LogEntry ERROR "Failed to detect an iPhone after multiple attempts." NoArg])
       Scenario.ready).
Proof.
  apply (get_usb_iphone_without_device
           (Frida.Env [Frida.Device "Local System" "local" "local" []] [] [])
           Scenario.ready).
  reflexivity.
Defined.

(** A single USB device is selected without asking. *)
Theorem get_usb_iphone_single_device e dv st :
  usb_devices e = [dv] →
  IpaBuilder.get_usb_iphone e st
  = (Ok dv, set_log (log st ++ [LogEntry INFO "One iPhone detected: "
                                  (ArgStr (Frida.dev_name dv))]) st).
Proof.
  intros Hone. unfold IpaBuilder.get_usb_iphone.
  erewrite bind_ok by by apply usb_attempt_one. done.
Qed.

Lemma get_usb_iphone_single_device_witness :
  (IpaBuilder.get_usb_iphone (Scenario.phone []) Scenario.ready).1
  = Ok (Frida.Device "iPhone" "udid" "usb" [Scenario.foo]).
Proof.
  rewrite (get_usb_iphone_single_device (Scenario.phone [])
             (Frida.Device "iPhone" "udid" "usb" [Scenario.foo]) Scenario.ready);
    reflexivity.
Defined.

(** With several USB devices the list is printed, each device with
    its place, name and id, and the operator is asked until an answer
    is a number between 1 and the number of devices; the device at
    that place is returned.  Every answer turned down leaves the prompt
    it was given to and a rejection on the console, the answer taken
    its prompt. *)
Theorem get_usb_iphone_choice e d1 d2 ds skipped choice more dv st :
  usb_devices e = d1 :: d2 :: ds →
  Frida.stdin e = skipped ++ Some choice :: more →
  Forall (rejected (List.length (usb_devices e))) skipped →
  1 ≤ choice →
  usb_devices e !! Z.to_nat (choice - 1) = Some dv →
  (IpaBuilder.get_usb_iphone e st).1 = Ok dv ∧
  stdout (IpaBuilder.get_usb_iphone e st).2
  = stdout st ++ listing (usb_devices e) ++ turned_down skipped
      ++ ["Enter the number of the device you want to use: "].
Proof.
  intros Hmany Hin Hrej Hlo Hdv. unfold IpaBuilder.get_usb_iphone.
  erewrite bind_ok.
  2: { rewrite (usb_attempt_many e _ _ d1 d2 ds) by done.
       rewrite Hin. erewrite try_except_ok; [done |].
       erewrite bind_ok; [done |].
       rewrite prompt_choice_skips by done.
       by apply prompt_choice_takes. }
  cbn. destruct st. cbn. by rewrite <- !app_assoc.
Qed.

Lemma get_usb_iphone_choice_witness :
  let e := Frida.Env [Frida.Device "A" "1" "usb" []; Frida.Device "B" "2" "usb" []]
             [None; Some 3; Some 2] [] in
  (IpaBuilder.get_usb_iphone e Scenario.ready).1 = Ok (Frida.Device "B" "2" "usb" []).
Proof.
  intros e.
  refine (proj1 (get_usb_iphone_choice e (Frida.Device "A" "1" "usb" [])
                   (Frida.Device "B" "2" "usb" []) [] [None; Some 3] 2 []
                   (Frida.Device "B" "2" "usb" []) Scenario.ready _ _ _ _ _)).
  - reflexivity.
  - reflexivity.
  - repeat constructor. cbn. lia.
  - lia.
  - reflexivity.
Defined.

(** ** The application looked for *)

(** The application the loop of line 278 stops at is the first one, in
    the order of the enumeration, whose identifier or name is the
    argument; there is none exactly when no application matches. *)
Theorem find_application_first app_identifier apps :
  match IpaBuilder.find_application app_identifier apps with
  | Some app =>
      ∃ before after, apps = before ++ app :: after ∧
                      matches app_identifier app ∧
                      Forall (λ other, ¬ matches app_identifier other) before
  | None => Forall (λ other, ¬ matches app_identifier other) apps
  end.
Proof.
  unfold IpaBuilder.find_application, matches.
  induction apps as [|app apps IH]; cbn [find]; [done |].
  destruct (String.eqb_spec app_identifier (Frida.identifier app)) as [Hid | Hid];
    cbn [orb].
  { exists [], apps. auto. }
  destruct (String.eqb_spec app_identifier (Frida.name app)) as [Hname | Hname].
  { exists [], apps. auto. }
  destruct (find _ apps) as [found|].
  - destruct IH as (before & after & -> & Hm & Hbefore).
    exists (app :: before), after. split; [done |]. split; [done |].
    constructor; [tauto | done].
  - constructor; [tauto | done].
Qed.

(** ** [dump_app] and [main] *)

Lemma prompt_choice_keeps_fs usb answers :
  keeps fs (IpaBuilder.prompt_choice usb answers).
Proof.
  induction answers as [|[choice|] answers IH]; cbn [IpaBuilder.prompt_choice].
  - unfold print. keeps_steps.
  - unfold logger, print. keeps_steps. apply IH.
  - unfold print. keeps_steps. apply IH.
Qed.

Lemma locate_keeps_fs e app_identifier :
  keeps fs (IpaBuilder.locate e app_identifier).
Proof.
  unfold IpaBuilder.locate, IpaBuilder.get_usb_iphone, IpaBuilder.usb_attempt,
    logger, print.
  keeps_steps; apply prompt_choice_keeps_fs.
Qed.

(** When no device is selected or no application matches, [dump_app]
    returns [False] before the workspace is touched: the disk is as it
    was, and the failure summary is printed. *)
Theorem selection_failure_leaves_the_disk e app_identifier st :
  (∀ app, (IpaBuilder.locate e app_identifier st).1 ≠ Ok (Some app)) →
  (IpaBuilder.dump_app e app_identifier st).1 = Ok false ∧
  fs (IpaBuilder.dump_app e app_identifier st).2 = fs st ∧
  ∃ before, stdout (IpaBuilder.dump_app e app_identifier st).2
            = before ++ failure_summary app_identifier.
Proof.
  intros Hnone. unfold IpaBuilder.dump_app, IpaBuilder.dump_app_try.
  pose proof (locate_keeps_fs e app_identifier st) as Hfs.
  destruct (IpaBuilder.locate e app_identifier st) as [[[app|]|x] st1];
    cbn in Hfs.
  - by destruct (Hnone app).
  - destruct (dump_app_finally_spec app_identifier
                (IpaBuilder.Locals false false None) st1) as [lines ->].
    cbn. split; [done |]. split; [by destruct st1 |].
    eexists. by destruct st1.
  - destruct (dump_app_finally_spec app_identifier
                (IpaBuilder.Locals false false None) st1) as [lines ->].
    cbn. split; [done |]. split; [by destruct st1 |].
    eexists. by destruct st1.
Qed.

Lemma selection_failure_witness :
  (IpaBuilder.dump_app (Scenario.phone []) "com.example.absent" Scenario.ready).1
  = Ok false.
Proof.
  refine (proj1 (selection_failure_leaves_the_disk (Scenario.phone [])
                   "com.example.absent" Scenario.ready _)).
  intros app. vm_compute. discriminate.
Defined.

Lemma await_dump_finished e name st st' :
  IpaBuilder.await_dump e name st = (Ok tt, st') → finished st' = true.
Proof.
  unfold IpaBuilder.await_dump, mbind at 1, M_bind at 1.
  destruct (IpaBuilder.prepare name st) as [[[]|x] st1]; [| done].
  munfold. cbn.
  destruct (finished (IpaBuilder.pump (Frida.stream e) st1)) eqn:Hfin; [| done].
  intros [= <-]. by destruct (IpaBuilder.pump (Frida.stream e) st1).
Qed.

Lemma assemble_keeps_finished display_name :
  keeps finished (IpaBuilder.assemble display_name).
Proof.
  unfold IpaBuilder.assemble.
  apply keeps_bind; [unfold logger; keeps_steps | intros _].
  apply keeps_bind; [apply generate_ipa_keeps_finished | intros _].
  unfold logger. keeps_steps.
Qed.

Lemma dump_app_flag e app_identifier st :
  ∃ success,
    (IpaBuilder.dump_app e app_identifier st).1 = Ok success ∧
    (success = true → finished (IpaBuilder.dump_app e app_identifier st).2 = true).
Proof.
  unfold IpaBuilder.dump_app, IpaBuilder.dump_app_try.
  destruct (IpaBuilder.locate e app_identifier st) as [[[app|]|x] st1].
  - unfold IpaBuilder.dump_found, mbind, M_bind.
    destruct (IpaBuilder.await_dump e (Frida.name app) st1) as [[[]|x] st2] eqn:Hawait.
    + pose proof (await_dump_finished _ _ _ _ Hawait) as Hfin.
      pose proof (assemble_keeps_finished (Frida.name app) st2) as Hkeep.
      destruct (IpaBuilder.assemble (Frida.name app) st2) as [[[]|x] st3];
        cbn in Hkeep.
      * destruct (dump_app_finally_spec app_identifier
                    (IpaBuilder.Locals true true (Some (Frida.name app))) st3)
          as [lines ->].
        exists true. split; [done |]. intros _. cbn. destruct st3. cbn in *.
        congruence.
      * destruct (dump_app_finally_spec app_identifier
                    (IpaBuilder.Locals true false (Some (Frida.name app))) st3)
          as [lines ->].
        by exists false.
    + destruct (dump_app_finally_spec app_identifier
                  (IpaBuilder.Locals true false (Some (Frida.name app))) st2)
        as [lines ->].
      by exists false.
  - destruct (dump_app_finally_spec app_identifier
                (IpaBuilder.Locals false false None) st1) as [lines ->].
    by exists false.
  - destruct (dump_app_finally_spec app_identifier
                (IpaBuilder.Locals false false None) st1) as [lines ->].
    by exists false.
Qed.

(** [dump_app] never raises: its [finally] block ends in a [return],
    so every exception of the [try] block, the timeout included, is
    dropped and the call returns the flag.  The flag is [True] only if
    the completion event was set during the wait. *)
Theorem dump_app_always_returns e app_identifier st :
  ∃ success,
    (IpaBuilder.dump_app e app_identifier st).1 = Ok success ∧
    (success = true → finished (IpaBuilder.dump_app e app_identifier st).2 = true).
Proof.
  destruct (dump_app_flag e app_identifier st) as (success & Hres & Hfin).
  exists success. by split.
Qed.

Lemma startup_exc_only ssh_config : exc_only (Main.startup ssh_config).
Proof.
  unfold Main.startup, IpaBuilder.connect_ssh, IpaBuilder._create_ssh_connection,
    logger, print, emit.
  exc_only_steps.
Qed.

Lemma main_with_exit_status e w a :
  let run := Main.main_with e w a in
  (run.1 = 0 ∨ run.1 = 1 ∨ run.1 = 2) ∧
  (run.1 = 2 ↔
   SSHConfig.truthy (Main.password a) || SSHConfig.truthy (Main.key_file a) = false) ∧
  (run.1 = 0 → finished run.2 = true).
Proof.
  intros run. subst run.
  unfold Main.main_with, SSHConfig.new, SSHConfig.__post_init__.
  cbn [SSHConfig.password SSHConfig.key_filename].
  destruct (SSHConfig.truthy (Main.password a)) eqn:Hp,
           (SSHConfig.truthy (Main.key_file a)) eqn:Hk; cbn [negb andb orb].
  4: { cbn. repeat split; intros; first [done | auto]. }
  all: set (st0 := Main.new_builder w (Main.output a)).
  all: unfold Main.main_try, try_except, mbind, M_bind.
  all: match goal with |- context [Main.startup ?c ?s] =>
         pose proof (startup_exc_only c s) as Hexc;
         destruct (Main.startup c s) as [[[]|[cls msg|code]] st1]; cbn in Hexc;
         [ | cbn; repeat split; intros; first [done | auto] | by destruct (Hexc code)]
       end.
  all: destruct (dump_app_flag e (Main.target a) st1)
    as (success & Hres & Hfin).
  all: destruct (IpaBuilder.dump_app e (Main.target a) st1) as [r st2].
  all: cbn in Hres, Hfin; subst r; destruct success; cbn.
  all: repeat split; intros; first [done | auto].
Qed.

(** The exit status of [main] is 0, 1 or 2.  It is 2 exactly when the
    parser rejects the command line or the namespace holds neither a
    password nor a key file; it is 0 only if the parser has printed
    the help or the completion event was set during the wait. *)
Theorem main_exit_status e w p :
  let run := Main.main e w p in
  (run.1 = 0 ∨ run.1 = 1 ∨ run.1 = 2) ∧
  (run.1 = 2 ↔
   p = Main.Usage ∨
   ∃ a, p = Main.Namespace a ∧
        SSHConfig.truthy (Main.password a) || SSHConfig.truthy (Main.key_file a)
          = false) ∧
  (run.1 = 0 → p = Main.Help ∨ finished run.2 = true).
Proof.
  intros run. subst run. destruct p as [a| |]; cbn [Main.main].
  - destruct (main_with_exit_status e w a) as (Hcodes & Htwo & Hzero).
    split; [done |]. split; [| auto]. rewrite Htwo. split.
    + intros Hnone. right. by exists a.
    + intros [? | (a' & [= <-] & Hnone)]; done.
  - cbn. split; [auto |]. split; [| auto]. split; [done |].
    intros [? | (a & ? & _)]; done.
  - cbn. split; [auto |]. split; [| done]. split; [by left | done].
Qed.

(** When the device refuses the SSH connection, [main] leaves with
    status 1 before any device is looked for: the disk is untouched
    and the log holds the failed connection and the fatal error. *)
Theorem main_connection_refused e w a :
  SSHConfig.truthy (Main.password a) || SSHConfig.truthy (Main.key_file a) = true →
  Main.sshd w = false →
  let run := Main.main e w (Main.Namespace a) in
  run.1 = 1 ∧
  fs run.2 = Main.local_disk w ∧
  trace run.2 = [EvConnect] ∧
  log run.2
  = [LogEntry INFO "Establishing SSH connection..." NoArg;
     LogEntry ERROR "SSH connection failed: "
       (ArgExn (Exc SSHException "Unable to connect"));
     LogEntry ERROR "Fatal error during dump process: "
       (ArgExn (Exc SSHException "Unable to connect"))] ∧
  stdout run.2
  = ["Starting iOS App Dumper..."; "Dump process failed. Check logs for details."].
Proof.
  intros Hcred Hdown.
  cbn [Main.main].
  unfold Main.main_with, SSHConfig.new, SSHConfig.__post_init__.
  cbn [SSHConfig.password SSHConfig.key_filename].
  assert (negb (SSHConfig.truthy (Main.password a))
          && negb (SSHConfig.truthy (Main.key_file a)) = false) as ->.
  { by destruct (SSHConfig.truthy _), (SSHConfig.truthy _). }
  unfold Main.main_try, Main.startup, IpaBuilder.connect_ssh,
    IpaBuilder._create_ssh_connection, Main.new_builder.
  munfold. cbn. rewrite Hdown. cbn. done.
Qed.

Lemma main_connection_refused_witness :
  (Main.main (Scenario.phone Scenario.full_stream)
     (Main.World ["home"; "u"] ["home"; "u"] Scenario.local_disk
        Scenario.device_disk false)
     (Main.Namespace Scenario.args)).1 = 1.
Proof.
  refine (proj1 (main_connection_refused _ _ _ _ _)); reflexivity.
Defined.

(** ** The workspace *)

(** [create_directories] on a well-formed disk where no prefix of the
    staging path is a regular file: the call succeeds; the staging
    directory exists and is empty, whatever it held; outside of it
    nothing has changed but for the missing directories on the way to
    the output directory, which exist now. *)
Theorem create_directories_resets_staging st :
  FS.wf (fs st) →
  (∀ q b, q `prefix_of` payload_dir st → fs st !! q ≠ Some (File b)) →
  ∃ d', IpaBuilder.create_directories st = (Ok tt, set_fs d' st) ∧
        FS.wf d' ∧ d' !! payload_dir st = Some Dir ∧
        (∀ p, FS.is_below (payload_dir st) p = true → d' !! p = None) ∧
        (∀ p, PyPath.is_under (payload_dir st) p = false →
              d' !! p = match fs st !! p with
                        | Some n => Some n
                        | None => if bool_decide (p `prefix_of` output_dir st)
                                  then Some Dir else None
                        end).
Proof.
  intros Hwf Hnf. rewrite payload_dir_eq in *.
  set (out := output_dir st) in *. set (staging := out ++ ["Payload"]) in *.
  destruct (mkdir_parents_ok true out (fs st)) as [d1 Hmk1]; [done | | by left |].
  { intros q b Hq. apply Hnf. by apply prefix_app_r. }
  destruct (mkdir_parents_spec _ _ _ _ Hwf Hmk1) as (Hwf1 & Hout1 & Hlook1).
  assert (staging ≠ []) as Hne by (subst staging; by destruct out).
  assert (¬ staging `prefix_of` out) as Hnp.
  { intros [r Hr]. apply (f_equal (@List.length string)) in Hr.
    subst staging. rewrite !length_app in Hr. cbn in Hr. lia. }
  assert (d1 !! staging = fs st !! staging) as Hst1.
  { rewrite Hlook1. destruct (fs st !! staging); [done |].
    by rewrite bool_decide_eq_false_2. }
  set (d2 := if FS.exists_ d1 staging then FS.remove_tree staging d1 else d1).
  assert (FS.wf d2 ∧ d2 !! out = Some Dir ∧
          (∀ r, d2 !! (staging ++ r) = None) ∧
          ∀ p, PyPath.is_under staging p = false → d2 !! p = d1 !! p)
    as (Hwf2 & Hout2 & Hgone & Hframe).
  { subst d2. unfold FS.exists_.
    destruct (d1 !! staging) as [n|] eqn:E.
    - split; [by apply remove_tree_wf |]. split; [| split].
      + rewrite remove_tree_lookup, (proj2 (is_under_false staging out)); done.
      + intros r. rewrite remove_tree_lookup.
        rewrite (proj2 (is_under_prefix staging _)); [done | by exists r].
      + intros p Hp. by rewrite remove_tree_lookup, Hp.
    - split; [done |]. split; [done |]. split; [| done]. intros [|c r].
      + by rewrite app_nil_r.
      + destruct (d1 !! (staging ++ c :: r)) eqn:E'; [| done].
        assert (d1 !! staging = Some Dir); [| congruence].
        apply (wf_ancestor d1 staging (c :: r)); [done | done |]. by rewrite E'. }
  exists (<[staging := Dir]> d2). split; [| split; [| split; [| split]]].
  - specialize (Hgone []) as Hs. rewrite app_nil_r in Hs.
    unfold IpaBuilder.create_directories, IpaBuilder.rmtree. munfold. cbn.
    rewrite payload_dir_eq. fold out staging. rewrite Hmk1. cbn.
    unfold FS.exists_ in *.
    destruct (d1 !! staging) as [[b|]|] eqn:E.
    + rewrite Hst1 in E. by destruct (Hnf staging b).
    + cbn. rewrite E. cbn. subst d2 staging.
      rewrite mkdir_child by done. by destruct st.
    + cbn. subst d2 staging.
      rewrite mkdir_child by done. by destruct st.
  - subst staging. apply wf_insert; auto.
  - apply lookup_insert_eq.
  - intros p (c & r & ->)%is_below_spec.
    rewrite lookup_insert_ne; [apply Hgone |].
    intros Heq. apply (f_equal (@List.length string)) in Heq.
    rewrite length_app in Heq. cbn in Heq. lia.
  - intros p Hp. rewrite lookup_insert_ne.
    + by rewrite Hframe, Hlook1.
    + intros <-. apply is_under_false in Hp. by apply Hp.
Qed.

(** Above a directory of a well-formed disk there are directories
    only. *)
Lemma above_directory d p q b :
  FS.wf d → d !! p = Some Dir → q `prefix_of` p → d !! q ≠ Some (File b).
Proof.
  intros Hwf Hp [[|c r] ->].
  - rewrite app_nil_r in Hp. congruence.
  - rewrite (wf_ancestor d q (c :: r)); [done | done | done | by rewrite Hp].
Qed.

Lemma create_directories_resets_staging_witness :
  ∃ d', IpaBuilder.create_directories Scenario.staged = (Ok tt, set_fs d' Scenario.staged) ∧
        FS.wf d' ∧ d' !! payload_dir Scenario.staged = Some Dir ∧
        (∀ p, FS.is_below (payload_dir Scenario.staged) p = true → d' !! p = None) ∧
        (∀ p, PyPath.is_under (payload_dir Scenario.staged) p = false →
              d' !! p = match fs Scenario.staged !! p with
                        | Some n => Some n
                        | None => if bool_decide (p `prefix_of` output_dir Scenario.staged)
                                  then Some Dir else None
                        end).
Proof.
  apply (create_directories_resets_staging Scenario.staged).
  - apply wfb_wf. vm_compute. reflexivity.
  - intros q b. apply above_directory.
    + apply wfb_wf. vm_compute. reflexivity.
    + vm_compute. reflexivity.
Defined.

(** When the staging path is a regular file, [create_directories]
    raises [NotADirectoryError]: [rmtree] hands the failure of
    [scandir] to [_force_remove], which changes the mode of the file
    and then fails as [scandir] did.  The names and the contents on
    the disk are as they were; the call of [chmod] is what is left of
    the attempt. *)
Theorem create_directories_staging_is_a_file st b :
  FS.wf (fs st) →
  fs st !! payload_dir st = Some (File b) →
  IpaBuilder.create_directories st
  = (Raise (Exc NotADirectoryError "Not a directory"),
     set_trace (trace st ++ [EvChmod (payload_dir st)]) st).
Proof.
  intros Hwf Hfile. rewrite payload_dir_eq in *.
  set (out := output_dir st) in *.
  assert (fs st !! out = Some Dir) as Hout.
  { apply (wf_ancestor (fs st) out ["Payload"]); [done | done | by rewrite Hfile]. }
  assert (FS.mkdir_parents true out (fs st) = Ok (fs st)) as Hmk.
  { destruct (mkdir_parents_ok true out (fs st)) as [d1 Hmk1]; [done | | by left |].
    { intros q b'. by apply above_directory. }
    rewrite Hmk1. f_equal. apply map_eq. intros p.
    destruct (mkdir_parents_spec _ _ _ _ Hwf Hmk1) as (_ & _ & ->).
    destruct (fs st !! p) eqn:E; [done |].
    case_bool_decide as Hp; [| done].
    destruct (wf_prefix (fs st) out p Hwf) as [n Hn]; [by rewrite Hout | done |].
    congruence. }
  unfold IpaBuilder.create_directories, IpaBuilder.rmtree,
    IpaBuilder._force_remove, IpaBuilder.on_fs, emit.
  munfold. cbn.
  rewrite payload_dir_eq. fold out. rewrite Hmk. cbn.
  unfold FS.exists_, FS.scandir.
  rewrite set_fs_same. repeat (rewrite Hfile; cbn). done.
Qed.

Lemma create_directories_staging_is_a_file_witness :
  IpaBuilder.create_directories blocked
  = (Raise (Exc NotADirectoryError "Not a directory"),
     set_trace (trace blocked ++ [EvChmod (payload_dir blocked)]) blocked).
Proof.
  apply (create_directories_staging_is_a_file blocked (Raw "stale")).
  - apply wfb_wf. vm_compute. reflexivity.
  - vm_compute. reflexivity.
Defined.

(** ** The assembly and the purge *)

Section fs_exceptions.

Lemma os_mkdir_exc p d code : FS.os_mkdir p d ≠ Raise (SystemExit code).
Proof. unfold FS.os_mkdir. by repeat case_match. Qed.

Lemma mkdir_rev_exc exist_ok rp d code :
  FS.mkdir_rev exist_ok rp d ≠ Raise (SystemExit code).
Proof.
  revert exist_ok d. induction rp as [|c rp IH]; intros exist_ok d;
    cbn [FS.mkdir_rev].
  - pose proof (os_mkdir_exc (rev []) d code).
    destruct (FS.os_mkdir (rev []) d) as [|[[] msg|]]; try done;
      by destruct (exist_ok && _).
  - pose proof (os_mkdir_exc (rev (c :: rp)) d code).
    destruct (FS.os_mkdir (rev (c :: rp)) d) as [|[[] msg|]]; try done;
      try by destruct (exist_ok && _).
    pose proof (IH true d).
    destruct (FS.mkdir_rev true rp d) as [d1|e]; [| done].
    pose proof (os_mkdir_exc (rev (c :: rp)) d1 code).
    destruct (FS.os_mkdir (rev (c :: rp)) d1); [done |].
    by destruct (exist_ok && _).
Qed.

Lemma move_exc src dst d code : FS.move src dst d ≠ Raise (SystemExit code).
Proof.
  unfold FS.move.
  destruct (FS.is_dir d dst && bool_decide (src = dst)); [done |].
  set (real_dst := if FS.is_dir d dst then dst ++ [PyPath.basename src] else dst).
  destruct (FS.is_dir d dst && FS.exists_ d real_dst); [done |].
  destruct (d !! src) as [[b|]|]; [by destruct (FS.is_dir d (PyPath.parent real_dst)) | | done].
  destruct (FS.exists_ d real_dst); [done |].
  destruct (PyPath.is_under src real_dst); [done |].
  pose proof (mkdir_rev_exc true (rev (PyPath.parent real_dst)) d code).
  unfold FS.mkdir_parents. by destruct (FS.mkdir_rev _ _ _).
Qed.

Lemma write_file_exc p b d code :
  IpaBuilder.write_file p b d ≠ Raise (SystemExit code).
Proof. unfold IpaBuilder.write_file. by repeat case_match. Qed.

Lemma zip_entries_exc d base files code :
  (IpaBuilder.zip_entries d base files).2 ≠ Raise (SystemExit code).
Proof.
  induction files as [|f files IH]; cbn [IpaBuilder.zip_entries]; [done |].
  destruct (d !! f) as [[b|]|]; [| done | done].
  destruct (PyPath.relative_to base f); [| done].
  by destruct (IpaBuilder.zip_entries d base files).
Qed.

Lemma on_fs_exc_only f :
  (∀ d code, f d ≠ Raise (SystemExit code)) → exc_only (IpaBuilder.on_fs f).
Proof.
  intros Hf st code. unfold IpaBuilder.on_fs. munfold.
  specialize (Hf (fs st) code).
  destruct (f (fs st)) as [d'|e]; cbn; [done |]. by intros [= ->].
Qed.

End fs_exceptions.

Lemma mkdir_parents_exc exist_ok p d code :
  FS.mkdir_parents exist_ok p d ≠ Raise (SystemExit code).
Proof. apply mkdir_rev_exc. Qed.

Lemma move_artifact_exc_only app_name item :
  exc_only (IpaBuilder.move_artifact app_name item).
Proof.
  unfold IpaBuilder.move_artifact. destruct item as [key value].
  destruct (negb _); [| apply exc_only_ret].
  apply exc_only_bind; [apply exc_only_gets | intros staging].
  apply exc_only_bind; [| intros _]; apply on_fs_exc_only; intros.
  - apply mkdir_parents_exc.
  - apply move_exc.
Qed.

Lemma write_archive_exc_only ipa_path app_folder :
  exc_only (IpaBuilder.write_archive ipa_path app_folder).
Proof.
  unfold IpaBuilder.write_archive.
  apply exc_only_bind; [| intros _].
  { apply on_fs_exc_only. intros. apply write_file_exc. }
  apply exc_only_bind; [apply exc_only_gets | intros d].
  apply exc_only_bind; [apply exc_only_gets | intros staging].
  pose proof (zip_entries_exc d (PyPath.parent staging) (FS.rglob d app_folder)) as Hz.
  destruct (IpaBuilder.zip_entries _ _ _) as [entries r].
  apply exc_only_bind; [apply exc_only_modify | intros _].
  apply exc_only_lift. intros code. apply Hz.
Qed.

Lemma generate_ipa_try_exc_only display_name :
  exc_only (IpaBuilder.generate_ipa_try display_name).
Proof.
  unfold IpaBuilder.generate_ipa_try.
  apply exc_only_bind; [apply exc_only_gets | intros out].
  apply exc_only_bind; [apply exc_only_gets | intros staging].
  apply exc_only_bind; [unfold logger; apply exc_only_modify | intros _].
  apply exc_only_bind; [apply exc_only_gets | intros items].
  destruct (PyDict.get "app" items) as [[|a app_name]|];
    [apply exc_only_raise | | apply exc_only_raise].
  apply exc_only_bind; [| intros _].
  { apply exc_only_for_each. intros item. apply move_artifact_exc_only. }
  apply exc_only_bind; [apply exc_only_gets | intros d].
  destruct (_ || _); [apply exc_only_raise |].
  apply exc_only_bind; [apply write_archive_exc_only | intros _].
  unfold logger. apply exc_only_modify.
Qed.

(** ** Assembly: what leaves [generate_ipa] *)

Lemma generate_ipa_finally_result st :
  (IpaBuilder.generate_ipa_finally st).1
  = match FS.iterdir (fs st) (payload_dir st) with
    | Ok _ => Ok tt
    | Raise e => Raise e
    end.
Proof.
  unfold IpaBuilder.generate_ipa_finally. munfold. unfold lift.
  destruct (FS.iterdir (fs st) (payload_dir st)) as [items|e]; cbn; [| done].
  by rewrite purge_loop_spec.
Qed.

(** No exception of the [try] block of [generate_ipa] leaves the
    function: it returns normally exactly when the staging directory
    can be listed once that block is over, and otherwise raises what
    [iterdir] raises in the [finally] block. *)
Theorem generate_ipa_raises_only_from_purge display_name st :
  (IpaBuilder.generate_ipa display_name st).1
  = match FS.iterdir (fs (IpaBuilder.generate_ipa_try display_name st).2)
                     (payload_dir st) with
    | Ok _ => Ok tt
    | Raise e => Raise e
    end.
Proof.
  pose proof (generate_ipa_try_keeps_output_dir display_name st) as Hout.
  pose proof (generate_ipa_try_exc_only display_name st) as Hexc.
  unfold IpaBuilder.generate_ipa, try_finally, IpaBuilder.generate_ipa_caught,
    try_except.
  destruct (IpaBuilder.generate_ipa_try display_name st)
    as [[[]|[cls msg|code]] st1] eqn:E; cbn in *.
  - pose proof (generate_ipa_finally_result st1) as Hfin.
    replace (payload_dir st1) with (payload_dir st) in Hfin
      by (unfold payload_dir; by rewrite Hout).
    destruct (IpaBuilder.generate_ipa_finally st1) as [[[]|e] st2]; cbn in *;
      by destruct (FS.iterdir (fs st1) (payload_dir st)).
  - unfold logger, modify.
    set (st1' := set_log _ st1).
    pose proof (generate_ipa_finally_result st1') as Hfin.
    replace (payload_dir st1') with (payload_dir st) in Hfin
      by (unfold payload_dir; subst st1'; cbn; by rewrite Hout).
    replace (fs st1') with (fs st1) in Hfin by done.
    destruct (IpaBuilder.generate_ipa_finally st1') as [[[]|e] st2]; cbn in *;
      by destruct (FS.iterdir (fs st1) (payload_dir st)).
  - by destruct (Hexc code).
Qed.

(** Assembly when the mapping has no usable ['app'] entry (none, or an
    empty name): [generate_ipa] returns normally; the log gains the
    announcement and the error; no archive is written and no artifact
    is moved, the disk being the purge of the disk of before. *)
Theorem assembly_without_app_entry display_name st :
  default "" (PyDict.get "app" (file_dict st)) = "" →
  FS.wf (fs st) →
  FS.is_dir (fs st) (payload_dir st) = true →
  ∃ st',
    IpaBuilder.generate_ipa display_name st = (Ok tt, st') ∧
    log st' = log st ++
      [LogEntry INFO "Generating IPA: "
         (ArgPath (PyPath.joinpath (output_dir st) (display_name +:+ ".ipa")));
       LogEntry ERROR "Failed to generate IPA: "
         (ArgExn (Exc RuntimeError "App name not found in file dictionary."))] ∧
    file_dict st' = file_dict st ∧
    ∀ p, fs st' !! p = purged (payload_dir st) (fs st) p.
Proof.
  intros Happ Hwf Hdir.
  assert (IpaBuilder.generate_ipa_caught display_name st
          = (Ok tt,
             set_log (log st ++
               [LogEntry INFO "Generating IPA: "
                  (ArgPath (PyPath.joinpath (output_dir st) (display_name +:+ ".ipa")));
                LogEntry ERROR "Failed to generate IPA: "
                  (ArgExn (Exc RuntimeError "App name not found in file dictionary."))])
               st)) as Hcaught.
  { unfold IpaBuilder.generate_ipa_caught, try_except,
      IpaBuilder.generate_ipa_try, logger.
    munfold. cbn.
    destruct (PyDict.get "app" (file_dict st)) as [[|a s]|]; try done;
      cbn; unfold modify; cbn; by rewrite <- app_assoc. }
  pose proof (generate_ipa_unfold display_name st) as Hun. cbn zeta in Hun.
  rewrite Hcaught in Hun. cbn in Hun. rewrite (Hun Hdir).
  eexists. split; [done |]. cbn. split; [done |]. split; [done |].
  intros p. by apply purge_lookup.
Qed.

Lemma assembly_without_app_entry_witness :
  ∃ st',
    IpaBuilder.generate_ipa "Foo" Scenario.ready = (Ok tt, st') ∧
    log st' = log Scenario.ready ++
      [LogEntry INFO "Generating IPA: "
         (ArgPath (PyPath.joinpath (output_dir Scenario.ready) ("Foo" +:+ ".ipa")));
       LogEntry ERROR "Failed to generate IPA: "
         (ArgExn (Exc RuntimeError "App name not found in file dictionary."))] ∧
    file_dict st' = file_dict Scenario.ready ∧
    ∀ p, fs st' !! p = purged (payload_dir Scenario.ready) (fs Scenario.ready) p.
Proof.
  apply (assembly_without_app_entry "Foo" Scenario.ready).
  - reflexivity.
  - apply wfb_wf. vm_compute. reflexivity.
  - vm_compute. reflexivity.
Defined.

(** ** The completion event *)

Lemma route_keeps_finished k :
  k ≠ Spec.KDone → keeps finished (Spec.route k).
Proof.
  intros Hk. destruct k; cbn [Spec.route]; try done;
    unfold IpaBuilder._handle_dump_payload_208, IpaBuilder._handle_app_payload_217,
      IpaBuilder.fetch_and_record_dump, IpaBuilder.fetch_and_record_app,
      IpaBuilder.scp_open, IpaBuilder.scp_get, logger, emit;
    keeps_steps.
Qed.

(** The completion event is set after [on_message] exactly when it was
    set before or the message signals completion: no other message
    sets it, and none clears it. *)
Theorem completion_set_by_done_only message st :
  finished (IpaBuilder.on_message message st).2 = true ↔
  finished st = true ∨ Spec.classify message = Spec.KDone.
Proof.
  rewrite on_message_route.
  destruct (Spec.classify message) eqn:Hk;
    try (rewrite route_keeps_finished by done; split; [by left | by intros [|]]).
  cbn. unfold modify. cbn. split; [by right | by destruct st].
Qed.

Lemma pump_finished_origin s st :
  finished (IpaBuilder.pump s st) = true →
  finished st = true ∨
  ∃ t message, (t, Frida.Message message) ∈ s ∧ t < IpaBuilder.wait_timeout ∧
               Spec.classify message = Spec.KDone.
Proof.
  revert st. induction s as [|[t i] s IH]; intros st; cbn [IpaBuilder.pump].
  { by left. }
  destruct (finished st) eqn:Hfin; [by left |].
  destruct (Z.leb_spec IpaBuilder.wait_timeout t) as [Hlate | Hearly].
  { intros Hf. left. congruence. }
  intros [Hf | (t' & m & Hin & Ht & Hm)]%IH.
  - destruct i as [message|]; cbn [IpaBuilder.handle_input] in Hf.
    + rewrite on_message_route in Hf.
      destruct (Spec.classify message) eqn:Hk;
        try (rewrite route_keeps_finished in Hf by done; congruence).
      right. exists t, message. split; [apply elem_of_cons; by left | done].
    + unfold modify in Hf. cbn in Hf.
      destruct (ssh_client st) as [[]|]; destruct st; cbn in *; congruence.
  - right. exists t', m. split; [apply elem_of_cons; by right | done].
Qed.

Lemma prompt_choice_keeps_finished usb answers :
  keeps finished (IpaBuilder.prompt_choice usb answers).
Proof.
  induction answers as [|[choice|] answers IH]; cbn [IpaBuilder.prompt_choice].
  - unfold print. keeps_steps.
  - unfold logger, print. keeps_steps. apply IH.
  - unfold print. keeps_steps. apply IH.
Qed.

Lemma locate_keeps_finished e app_identifier :
  keeps finished (IpaBuilder.locate e app_identifier).
Proof.
  unfold IpaBuilder.locate, IpaBuilder.get_usb_iphone, IpaBuilder.usb_attempt,
    logger, print.
  keeps_steps; apply prompt_choice_keeps_finished.
Qed.

Lemma prepare_keeps_finished display_name :
  keeps finished (IpaBuilder.prepare display_name).
Proof.
  unfold IpaBuilder.prepare, IpaBuilder.create_directories, IpaBuilder.rmtree,
    IpaBuilder._force_remove, IpaBuilder.on_fs, logger, emit.
  keeps_steps.
Qed.

(** A run that starts with the completion event clear reports success
    only if, before the timeout of the wait, the script has sent a
    message that signals completion. *)
Theorem success_needs_a_completion_message e app_identifier st :
  finished st = false →
  (IpaBuilder.dump_app e app_identifier st).1 = Ok true →
  ∃ t message,
    (t, Frida.Message message) ∈ Frida.stream e ∧
    t < IpaBuilder.wait_timeout ∧
    Spec.classify message = Spec.KDone.
Proof.
  intros Hclear. unfold IpaBuilder.dump_app, IpaBuilder.dump_app_try.
  pose proof (locate_keeps_finished e app_identifier st) as Hloc.
  destruct (IpaBuilder.locate e app_identifier st) as [[[app|]|x] st1];
    cbn in Hloc.
  - unfold IpaBuilder.dump_found, mbind at 1, M_bind at 1.
    destruct (IpaBuilder.await_dump e (Frida.name app) st1)
      as [[[]|x] st2] eqn:Hawait.
    + destruct (IpaBuilder.assemble (Frida.name app) st2) as [[[]|x] st3].
      * intros _. revert Hawait.
        unfold IpaBuilder.await_dump, mbind at 1, M_bind at 1.
        pose proof (prepare_keeps_finished (Frida.name app) st1) as Hprep.
        destruct (IpaBuilder.prepare (Frida.name app) st1) as [[[]|x] st1'];
          [| done].
        cbn in Hprep. munfold. cbn.
        destruct (finished (IpaBuilder.pump (Frida.stream e) st1')) eqn:Hfin;
          [| done].
        intros _. apply pump_finished_origin in Hfin as [Hfin | Hfin];
          [congruence | done].
      * destruct (dump_app_finally_spec app_identifier
                    (IpaBuilder.Locals true false (Some (Frida.name app))) st3)
          as [lines ->]. done.
    + destruct (dump_app_finally_spec app_identifier
                  (IpaBuilder.Locals true false (Some (Frida.name app))) st2)
        as [lines ->]. done.
  - destruct (dump_app_finally_spec app_identifier
                (IpaBuilder.Locals false false None) st1) as [lines ->]. done.
  - destruct (dump_app_finally_spec app_identifier
                (IpaBuilder.Locals false false None) st1) as [lines ->]. done.
Qed.

Lemma success_needs_a_completion_message_witness :
  ∃ t message,
    (t, Frida.Message message) ∈ Frida.stream (Scenario.phone Scenario.full_stream) ∧
    t < IpaBuilder.wait_timeout ∧
    Spec.classify message = Spec.KDone.
Proof.
  apply (success_needs_a_completion_message
           (Scenario.phone Scenario.full_stream) "com.example.foo" Scenario.ready).
  - vm_compute. reflexivity.
  - vm_compute. reflexivity.
Defined.

(** ** Assembly: the purge and the move of one artifact *)

(** The [finally] block of [generate_ipa] on a well-formed disk whose
    staging directory exists: it ends normally; what is not below the
    staging directory is as before; below it, what is left is exactly
    what lay in a directory entry of the staging directory whose name
    ends in [.app], that entry included. *)
Theorem purge_keeps_bundles_only st :
  FS.wf (fs st) →
  FS.is_dir (fs st) (payload_dir st) = true →
  ∃ d', IpaBuilder.generate_ipa_finally st = (Ok tt, set_fs d' st) ∧
        FS.wf d' ∧
        (∀ p, FS.is_below (payload_dir st) p = false → d' !! p = fs st !! p) ∧
        (∀ c r, d' !! (payload_dir st ++ c :: r)
                = if FS.is_dir (fs st) (payload_dir st ++ [c])
                     && PyStr.endswith ".app" c
                  then fs st !! (payload_dir st ++ c :: r) else None).
Proof.
  intros Hwf Hdir. eexists. split; [by apply generate_ipa_finally_spec |].
  split; [| split].
  - apply (purge_fold_wf (payload_dir st)); [done |].
    apply Forall_forall. intros i [_ Hi]%elem_of_List_filter.
    by apply is_child_spec.
  - intros p Hp. rewrite purge_lookup by done. unfold purged.
    unfold FS.is_below in Hp.
    by destruct (PyPath.relative_to (payload_dir st) p) as [[|c r]|].
  - intros c r. rewrite purge_lookup by done. unfold purged, retained.
    by rewrite (proj2 (relative_to_Some (payload_dir st) _ (c :: r))).
Qed.

Lemma purge_keeps_bundles_only_witness :
  ∃ d', IpaBuilder.generate_ipa_finally Scenario.staged
          = (Ok tt, set_fs d' Scenario.staged) ∧
        FS.wf d' ∧
        (∀ p, FS.is_below (payload_dir Scenario.staged) p = false →
              d' !! p = fs Scenario.staged !! p) ∧
        (∀ c r, d' !! (payload_dir Scenario.staged ++ c :: r)
                = if FS.is_dir (fs Scenario.staged) (payload_dir Scenario.staged ++ [c])
                     && PyStr.endswith ".app" c
                  then fs Scenario.staged !! (payload_dir Scenario.staged ++ c :: r)
                  else None).
Proof.
  apply (purge_keeps_bundles_only Scenario.staged).
  - apply wfb_wf. vm_compute. reflexivity.
  - vm_compute. reflexivity.
Defined.

Lemma not_prefix_of_parent (p : path) : p ≠ [] → ¬ p `prefix_of` PyPath.parent p.
Proof.
  destruct p as [|c p _] using rev_ind; [done |]. intros _ [r Hr].
  rewrite parent_snoc in Hr. apply (f_equal (@List.length string)) in Hr.
  rewrite !length_app in Hr. cbn in Hr. lia.
Qed.

(** The body of the loop of lines 235-239 for an entry other than
    ['app'], when the staged artifact is a regular file, its target is
    not a directory and no regular file lies on the way to the target:
    the step succeeds; the file is at the target and no longer at its
    staged place; the directories on the way to the target exist;
    nothing else has changed. *)
Theorem move_artifact_places_the_file app_name key value st b :
  key ≠ "app" →
  FS.wf (fs st) →
  fs st !! staged_at st key = Some (File b) →
  FS.is_dir (fs st) (bundle_target st app_name value) = false →
  (∀ q b', q `prefix_of` PyPath.parent (bundle_target st app_name value) →
           fs st !! q ≠ Some (File b')) →
  ∃ d', IpaBuilder.move_artifact app_name (key, value) st = (Ok tt, set_fs d' st) ∧
        d' !! bundle_target st app_name value = Some (File b) ∧
        ∀ q, q ≠ bundle_target st app_name value →
             d' !! q =
             if bool_decide (q = staged_at st key) then None
             else match fs st !! q with
                  | Some n => Some n
                  | None =>
                      if bool_decide
                           (q `prefix_of` PyPath.parent (bundle_target st app_name value))
                      then Some Dir else None
                  end.
Proof.
  intros Hkey Hwf Hsrc Hnd Hway.
  set (src := staged_at st key) in *.
  set (target := bundle_target st app_name value) in *.
  destruct (mkdir_parents_ok true (PyPath.parent target) (fs st))
    as [d1 Hmk]; [done | done | by left |].
  destruct (mkdir_parents_spec _ _ _ _ Hwf Hmk) as (Hwf1 & Hpar & Hlook).
  assert (d1 !! src = Some (File b)) as Hsrc1 by (by rewrite Hlook, Hsrc).
  assert (FS.is_dir d1 target = false) as Hnd1.
  { unfold FS.is_dir in *. rewrite Hlook.
    destruct (fs st !! target) as [[]|] eqn:E; try done.
    case_bool_decide as Hp; [| done].
    destruct (decide (target = [])) as [Ht | Ht].
    - rewrite Ht in E. by rewrite (wf_root _ Hwf) in E.
    - by destruct (not_prefix_of_parent target Ht). }
  exists (<[target := File b]> (delete src d1)). split; [| split].
  - unfold IpaBuilder.move_artifact.
    rewrite (proj2 (String.eqb_neq _ _) Hkey). cbn [negb].
    unfold IpaBuilder.on_fs. munfold. cbn.
    change (PyPath.joinpath (PyPath.joinpath (payload_dir st) app_name) value)
      with target.
    change (PyPath.joinpath (payload_dir st) key) with src.
    rewrite Hmk. cbn. unfold FS.move. rewrite Hnd1. cbn.
    rewrite Hsrc1. unfold FS.is_dir. rewrite Hpar. cbn. by destruct st.
  - apply lookup_insert_eq.
  - intros q Hq. rewrite lookup_insert_ne by done.
    case_bool_decide as Hqs.
    + subst q. apply lookup_delete_eq.
    + rewrite lookup_delete_ne by done. apply Hlook.
Qed.

Lemma move_artifact_places_the_file_witness :
  ∃ d', IpaBuilder.move_artifact "Foo.app" ("Bar.fid", "Frameworks/Bar") Scenario.staged
          = (Ok tt, set_fs d' Scenario.staged) ∧
        d' !! bundle_target Scenario.staged "Foo.app" "Frameworks/Bar"
          = Some (File (Raw "decrypted Bar")) ∧
        ∀ q, q ≠ bundle_target Scenario.staged "Foo.app" "Frameworks/Bar" →
             d' !! q =
             if bool_decide (q = staged_at Scenario.staged "Bar.fid") then None
             else match fs Scenario.staged !! q with
                  | Some n => Some n
                  | None =>
                      if bool_decide
                           (q `prefix_of`
                              PyPath.parent
                                (bundle_target Scenario.staged "Foo.app" "Frameworks/Bar"))
                      then Some Dir else None
                  end.
Proof.
  apply (move_artifact_places_the_file "Foo.app" "Bar.fid" "Frameworks/Bar"
           Scenario.staged (Raw "decrypted Bar")).
  - discriminate.
  - apply wfb_wf. vm_compute. reflexivity.
  - vm_compute. reflexivity.
  - vm_compute. reflexivity.
  - intros q b'. apply above_directory.
    + apply wfb_wf. vm_compute. reflexivity.
    + vm_compute. reflexivity.
Defined.

(** ** Assembly: the archive *)

Lemma zip_entries_ok d base files :
  Forall (λ f, base `prefix_of` f) files →
  ∃ entries,
    IpaBuilder.zip_entries d base files = (entries, Ok tt) ∧
    ∀ arc b, (arc, b) ∈ entries ↔
             base ++ arc ∈ files ∧ d !! (base ++ arc) = Some (File b).
Proof.
  induction 1 as [|f files [r ->] _ (entries & IH & Hin)];
    cbn [IpaBuilder.zip_entries].
  { exists []. split; [done |]. intros arc b. split.
    - by intros ?%elem_of_nil.
    - by intros [?%elem_of_nil _]. }
  rewrite IH.
  destruct (d !! (base ++ r)) as [[b0|]|] eqn:E.
  - rewrite (proj2 (relative_to_Some base (base ++ r) r)) by done.
    exists ((r, b0) :: entries). split; [done |]. intros arc b.
    rewrite !elem_of_cons, Hin. split.
    + intros [[= -> ->] | [? ?]]; [by split; [left |] | by split; [right |]].
    + intros [[Heq%app_inv_head | Hf] Hb].
      * subst arc. left. congruence.
      * by right.
  - exists entries. split; [done |]. intros arc b. rewrite elem_of_cons, Hin.
    split; [intros [? ?]; by split; [right |] |].
    intros [[Heq%app_inv_head | Hf] Hb]; [subst arc; congruence | done].
  - exists entries. split; [done |]. intros arc b. rewrite elem_of_cons, Hin.
    split; [intros [? ?]; by split; [right |] |].
    intros [[Heq%app_inv_head | Hf] Hb]; [subst arc; congruence | done].
Qed.

Lemma elem_of_rglob d p f :
  f ∈ FS.rglob d p ↔ is_Some (d !! f) ∧ FS.is_below p f = true.
Proof.
  unfold FS.rglob. rewrite elem_of_List_filter, list_elem_of_fmap.
  split.
  - intros [([k n] & -> & Hk%elem_of_map_to_list) Hb]. by split; [exists n |].
  - intros [[n Hn] Hb]. split; [| done]. exists (f, n). split; [done |].
    by apply elem_of_map_to_list.
Qed.

(** The [with zipfile.ZipFile(...)] block of lines 245-248, when the
    archive can be created and the bundle folder lies under the parent
    of the staging directory: the block ends normally; the archive
    holds exactly the regular files below the bundle folder, each under
    its path relative to the parent of the staging directory; nothing
    else on the disk changes. *)
Theorem write_archive_contents ipa_path app_folder st :
  fs st !! ipa_path ≠ Some Dir →
  FS.is_dir (fs st) (PyPath.parent ipa_path) = true →
  PyPath.parent (payload_dir st) `prefix_of` app_folder →
  ∃ entries,
    IpaBuilder.write_archive ipa_path app_folder st
    = (Ok tt, set_fs (<[ipa_path := File (Zip entries)]> (fs st)) st) ∧
    ∀ arc b,
      (arc, b) ∈ entries ↔
      FS.is_below app_folder (PyPath.parent (payload_dir st) ++ arc) = true ∧
      <[ipa_path := File (Zip [])]> (fs st) !! (PyPath.parent (payload_dir st) ++ arc)
        = Some (File b).
Proof.
  intros Hnd Hpar Hunder.
  set (d1 := <[ipa_path := File (Zip [])]> (fs st)).
  set (base := PyPath.parent (payload_dir st)) in *.
  destruct (zip_entries_ok d1 base (FS.rglob d1 app_folder))
    as (entries & Hzip & Hin).
  { apply Forall_forall. intros f [_ (c & r & ->)%is_below_spec]%elem_of_rglob.
    by apply prefix_app_r. }
  exists entries. split.
  - unfold IpaBuilder.write_archive, IpaBuilder.on_fs, IpaBuilder.write_file.
    munfold. cbn. rewrite Hpar.
    destruct (fs st !! ipa_path) as [[|]|] eqn:E; try done; cbn;
      change (payload_dir (set_fs _ st)) with (payload_dir st);
      fold d1 base; rewrite Hzip; cbn;
      subst d1; rewrite insert_insert_eq; by destruct st.
  - intros arc b. rewrite Hin, elem_of_rglob. split.
    + intros [[_ Hb] Hf]. by split.
    + intros [Hb Hf]. split; [split; [by rewrite Hf | done] | done].
Qed.

Lemma write_archive_contents_witness :
  ∃ entries,
    IpaBuilder.write_archive ["home"; "u"; "Downloads"; "ios_dumps"; "Foo.ipa"]
      (payload_dir Scenario.staged ++ ["Foo.app"]) Scenario.staged
    = (Ok tt, set_fs (<[["home"; "u"; "Downloads"; "ios_dumps"; "Foo.ipa"]
                          := File (Zip entries)]> (fs Scenario.staged))
                     Scenario.staged) ∧
    ∀ arc b,
      (arc, b) ∈ entries ↔
      FS.is_below (payload_dir Scenario.staged ++ ["Foo.app"])
                  (PyPath.parent (payload_dir Scenario.staged) ++ arc) = true ∧
      <[["home"; "u"; "Downloads"; "ios_dumps"; "Foo.ipa"] := File (Zip [])]>
        (fs Scenario.staged) !! (PyPath.parent (payload_dir Scenario.staged) ++ arc)
        = Some (File b).
Proof.
  apply (write_archive_contents ["home"; "u"; "Downloads"; "ios_dumps"; "Foo.ipa"]
           (payload_dir Scenario.staged ++ ["Foo.app"]) Scenario.staged).
  - vm_compute. discriminate.
  - vm_compute. reflexivity.
  - exists ["Payload"; "Foo.app"]. vm_compute. reflexivity.
Defined.

(** * The run after a failure *)

(** ** A failing assembly *)

(** C3.  A failure of the assembly does not fail the run.  Whatever
    exception the [try] block of [generate_ipa] raises, the missing
    [app] entry and the missing bundle root included, the [except]
    clause of line 251 logs it and [generate_ipa] returns; [dump_app]
    then sets [success], prints the summary of a successful run, and
    [main] leaves with status 0. *)
Theorem C3_failed_assembly_reported_as_success e w a app st cls msg :
  Main.reaches_wait e w a app st →
  finished (IpaBuilder.pump (Frida.stream e) st) = true →
  (IpaBuilder.generate_ipa_try (Frida.name app)
     (IpaBuilder.pump (Frida.stream e) st)).1 = Raise (Exc cls msg) →
  FS.is_dir
    (fs (IpaBuilder.generate_ipa_try (Frida.name app)
           (IpaBuilder.pump (Frida.stream e) st)).2)
    (payload_dir (IpaBuilder.pump (Frida.stream e) st)) = true →
  (Main.main e w (Main.Namespace a)).1 = 0 ∧
  (∃ before, stdout (Main.main e w (Main.Namespace a)).2
             = before ++ success_summary (Frida.name app)) ∧
  LogEntry ERROR "Failed to generate IPA: " (ArgExn (Exc cls msg))
    ∈ log (Main.main e w (Main.Namespace a)).2.
Proof.
  intros (Hcred & ssh_config & st1 & st2 & Hnew & Hstart & Hloc & Hprep)
    Hfin Hraise Hdir.
  destruct (main_after_locate e w a app ssh_config st1 st2 Hnew Hstart Hloc)
    as [lines ->].
  set (waited := IpaBuilder.pump (Frida.stream e) st) in *.
  set (name := Frida.name app) in *.
  set (st_a := set_log (log waited ++
                 [LogEntry INFO "Dump operation completed successfully" NoArg;
                  LogEntry INFO "Creating IPA file..." NoArg]) waited).
  assert (Spec.same_but_log waited st_a) as Hsame.
  { subst st_a. unfold Spec.same_but_log. by destruct waited. }
  destruct (framed_same_but_log (IpaBuilder.generate_ipa_try name) waited st_a
              (generate_ipa_try_framed name) Hsame) as [Hres Hst].
  assert (payload_dir st_a = payload_dir waited) as Hpd.
  { subst st_a. by destruct waited. }
  destruct (generate_ipa_swallows name st_a cls msg) as (st' & Hgen & Hlog).
  { by rewrite <- Hres. }
  { rewrite Hpd. destruct Hst as (_ & _ & _ & _ & _ & _ & _ & <- & _). done. }
  assert (∃ st3, IpaBuilder.dump_found e name st2 = (Ok tt, st3) ∧
                 LogEntry ERROR "Failed to generate IPA: " (ArgExn (Exc cls msg))
                   ∈ log st3) as (st3 & -> & Hin).
  { unfold IpaBuilder.dump_found.
    erewrite bind_ok; [| by apply await_dump_done].
    unfold IpaBuilder.assemble. munfold. cbn. fold waited.
    replace (set_log _ (set_log _ waited)) with st_a
      by (subst st_a; destruct waited; cbn; by rewrite <- app_assoc).
    rewrite Hgen. cbn. eexists. split; [done |]. cbn.
    rewrite Hlog. rewrite !elem_of_app, !elem_of_cons. tauto. }
  split; [done |]. split; [by eexists |].
  cbn. rewrite elem_of_app. by left.
Qed.

Lemma C3_witness :
  (Main.main (Scenario.phone Scenario.bundleless_stream) Scenario.world
     (Main.Namespace Scenario.args)).1 = 0 ∧
  (∃ before,
     stdout (Main.main (Scenario.phone Scenario.bundleless_stream) Scenario.world
               (Main.Namespace Scenario.args)).2
     = before ++ success_summary "Foo") ∧
  LogEntry ERROR "Failed to generate IPA: "
    (ArgExn (Exc RuntimeError "App name not found in file dictionary."))
    ∈ log (Main.main (Scenario.phone Scenario.bundleless_stream) Scenario.world
             (Main.Namespace Scenario.args)).2.
Proof.
  apply (C3_failed_assembly_reported_as_success
           (Scenario.phone Scenario.bundleless_stream) Scenario.world Scenario.args
           Scenario.foo (Scenario.waiting Scenario.bundleless_stream)
           RuntimeError "App name not found in file dictionary.").
  - apply run_reaches_wait.
  - vm_compute. reflexivity.
  - vm_compute. reflexivity.
  - vm_compute. reflexivity.
Defined.

(** ** A lost artifact *)






